(** * Digital Lounge: real-time player-state synchronisation core

    A shallow embedding of the TypeScript sources of the lounge's
    networking core (wire protocol, reconnecting client, server session
    registry, player registry tick, remote-player interpolation, chat
    command parsing), and the properties its specification states about
    them.

    Conventions of the embedding:
    - [Date.now()] (and every other read of the environment) is an explicit
      argument of the function that reads it;
    - a JavaScript [Map] is an insertion-ordered association list
      ([JsMap]), because iteration order is observable (order of a position
      batch, first username match of a whisper);
    - a method that mutates [this] returns the new object; what it sends to
      a socket or passes to a callback is returned next to it;
    - times, counters and delays are integers ([Z], milliseconds);
      coordinates are [number]s: exact rationals kept in lowest terms, or
      [NaN]. *)

From Stdlib Require Import ZArith QArith Qreduction List String Ascii Bool Lia.
From Stdlib Require DecimalString DecimalPos DecimalFacts.
Import ListNotations.

Local Open Scope Z_scope.

(** ** JavaScript numbers used as coordinates *)

Inductive number : Type :=
| Num (q : Q)
| NaN.

Definition num_of_Z (z : Z) : number := Num (inject_Z z).

Definition nbin (f : Q -> Q -> Q) (a b : number) : number :=
  match a, b with
  | Num p, Num q => Num (Qred (f p q))
  | _, _ => NaN
  end.

Definition nadd : number -> number -> number := nbin Qplus.
Definition nsub : number -> number -> number := nbin Qminus.
Definition nmul : number -> number -> number := nbin Qmult.

(** [a / b] for finite operands; [0 / 0] is [NaN].  (A non-zero numerator
    over zero is an infinity in JavaScript; no division of this
    development can reach that case, it is mapped to [NaN].) *)
Definition ndiv (a b : number) : number :=
  match a, b with
  | Num p, Num q => if Qeq_bool q 0 then NaN else Num (Qred (p / q))
  | _, _ => NaN
  end.

(** [Math.max] and [Math.min]: [NaN] if either argument is. *)
Definition Math_max (a b : number) : number :=
  match a, b with
  | Num p, Num q => if Qle_bool p q then Num q else Num p
  | _, _ => NaN
  end.

Definition Math_min (a b : number) : number :=
  match a, b with
  | Num p, Num q => if Qle_bool p q then Num p else Num q
  | _, _ => NaN
  end.

Record Vector3 : Type := mkVector3 { x : number; y : number; z : number }.

(** ** Insertion-ordered maps with string keys (JavaScript [Map]) *)

Module JsMap.
Section Ops.
Context {V : Type}.

Definition t : Type := list (string * V).

Definition empty : t := [].

Fixpoint get (k : string) (m : t) : option V :=
  match m with
  | [] => None
  | (k', v) :: r => if String.eqb k k' then Some v else get k r
  end.

(** [Map.prototype.set]: an existing key keeps its place. *)
Fixpoint set (k : string) (v : V) (m : t) : t :=
  match m with
  | [] => [(k, v)]
  | (k', v') :: r =>
      if String.eqb k k' then (k', v) :: r else (k', v') :: set k v r
  end.

Fixpoint delete (k : string) (m : t) : t :=
  match m with
  | [] => []
  | (k', v') :: r =>
      if String.eqb k k' then delete k r else (k', v') :: delete k r
  end.

Definition keys (m : t) : list string := map fst m.
Definition values (m : t) : list V := map snd m.
Definition size (m : t) : nat := List.length m.
Definition has (k : string) (m : t) : bool :=
  match get k m with Some _ => true | None => false end.

(** In-place update of the object stored under [k] (a field assignment
    through a reference obtained from [get]). *)
Definition modify (k : string) (f : V -> V) (m : t) : t :=
  map (fun kv => if String.eqb k (fst kv) then (fst kv, f (snd kv)) else kv) m.
End Ops.
Arguments t : clear implicits.
End JsMap.

(** ** Player state ([lib/player/types.ts]) *)

Inductive PlayerStatus : Type := active | idle | away.
Inductive AvatarType : Type := default | robot | alien | human.

Record PlayerState : Type := mkPlayerState {
  id : string;
  username : string;
  position : Vector3;
  rotation : Vector3;
  avatar : AvatarType;
  status : PlayerStatus;
  color : Z
}.

Record PlayerPositionUpdate : Type := mkUpdate {
  u_id : string;
  u_position : Vector3;
  u_rotation : Vector3;
  u_timestamp : Z
}.

Definition zero3 : Vector3 := mkVector3 (num_of_Z 0) (num_of_Z 0) (num_of_Z 0).

Section PlayerTypes.
(** [generatePlayerColor] hashes the id into an RGB colour through
    floating-point HSL arithmetic; no property below depends on the
    colour, it is kept abstract. *)
Variable generatePlayerColor : string -> Z.

Definition createDefaultPlayerState (i u : string) (c : option Z) : PlayerState :=
  {| id := i; username := u;
     position := zero3; rotation := zero3;
     avatar := default; status := active;
     color := match c with Some k => k | None => generatePlayerColor i end |}.
End PlayerTypes.

(** ** Server-side player registry ([PlayerRegistry]) *)

Module PlayerRegistry.

(** [ServerPlayerState extends PlayerState]: the public fields plus the
    server's bookkeeping. *)
Record ServerPlayerState : Type := mkServerPlayerState {
  pub : PlayerState;
  lastUpdate : Z;
  dirty : bool
}.

Definition with_dirty (d : bool) (p : ServerPlayerState) : ServerPlayerState :=
  {| pub := pub p; lastUpdate := lastUpdate p; dirty := d |}.

Record t : Type := mkRegistry {
  players : JsMap.t ServerPlayerState;
  tickInterval : bool;       (* is the interval timer armed *)
  onBroadcast : bool         (* is a broadcast callback installed *)
}.

Definition initial : t :=
  {| players := JsMap.empty; tickInterval := false; onBroadcast := false |}.

Definition with_players (m : JsMap.t ServerPlayerState) (r : t) : t :=
  {| players := m; tickInterval := tickInterval r; onBroadcast := onBroadcast r |}.

Definition start (r : t) : t :=
  {| players := players r; tickInterval := true; onBroadcast := true |}.

Definition stop (r : t) : t :=
  {| players := players r; tickInterval := false; onBroadcast := false |}.

Section WithColor.
Variable generatePlayerColor : string -> Z.

Definition addPlayer (now : Z) (clientId uname : string) (r : t) : t * PlayerState :=
  let state := createDefaultPlayerState generatePlayerColor clientId uname None in
  let serverState := {| pub := state; lastUpdate := now; dirty := true |} in
  (with_players (JsMap.set clientId serverState (players r)) r, state).
End WithColor.

Definition removePlayer (clientId : string) (r : t) : t * option PlayerState :=
  match JsMap.get clientId (players r) with
  | Some player => (with_players (JsMap.delete clientId (players r)) r, Some (pub player))
  | None => (r, None)
  end.

Definition set_position (pos rot : Vector3) (now : Z) (p : ServerPlayerState)
  : ServerPlayerState :=
  {| pub := {| id := id (pub p); username := username (pub p);
               position := pos; rotation := rot;
               avatar := avatar (pub p); status := status (pub p);
               color := color (pub p) |};
     lastUpdate := now; dirty := true |}.

Definition updatePosition (now : Z) (clientId : string) (pos rot : Vector3) (r : t)
  : t * bool :=
  match JsMap.get clientId (players r) with
  | None => (r, false)
  | Some _ =>
      (with_players (JsMap.modify clientId (set_position pos rot now) (players r)) r, true)
  end.

Definition set_status (s : PlayerStatus) (now : Z) (p : ServerPlayerState)
  : ServerPlayerState :=
  {| pub := {| id := id (pub p); username := username (pub p);
               position := position (pub p); rotation := rotation (pub p);
               avatar := avatar (pub p); status := s;
               color := color (pub p) |};
     lastUpdate := now; dirty := dirty p |}.

Definition updateStatus (now : Z) (clientId : string) (s : PlayerStatus) (r : t)
  : t * bool :=
  match JsMap.get clientId (players r) with
  | None => (r, false)
  | Some _ =>
      (with_players (JsMap.modify clientId (set_status s now) (players r)) r, true)
  end.

(** [toPublicState] copies the seven public fields. *)
Definition toPublicState (server : ServerPlayerState) : PlayerState :=
  {| id := id (pub server); username := username (pub server);
     position := position (pub server); rotation := rotation (pub server);
     avatar := avatar (pub server); status := status (pub server);
     color := color (pub server) |}.

Definition getPlayer (clientId : string) (r : t) : option PlayerState :=
  match JsMap.get clientId (players r) with
  | None => None
  | Some player => Some (toPublicState player)
  end.

Definition getAllPlayers (r : t) : list PlayerState :=
  map toPublicState (JsMap.values (players r)).

Definition playerCount (r : t) : nat := JsMap.size (players r).

(** The update pushed for one player by [tick]. *)
Definition update_of (player : ServerPlayerState) : PlayerPositionUpdate :=
  {| u_id := id (pub player);
     u_position := position (pub player);
     u_rotation := rotation (pub player);
     u_timestamp := lastUpdate player |}.

(** The [for (const player of this.players.values())] loop of [tick]:
    [updates] grows at its end, a dirty player is pushed and cleaned. *)
Fixpoint tick_loop (entries : JsMap.t ServerPlayerState)
         (updates : list PlayerPositionUpdate)
  : JsMap.t ServerPlayerState * list PlayerPositionUpdate :=
  match entries with
  | [] => ([], updates)
  | (k, player) :: rest =>
      if dirty player then
        let (rest', updates') := tick_loop rest (updates ++ [update_of player]) in
        ((k, with_dirty false player) :: rest', updates')
      else
        let (rest', updates') := tick_loop rest updates in
        ((k, player) :: rest', updates')
  end.

(** [tick]: the new registry, and the arguments of the call of
    [onBroadcast] when the tick makes one. *)
Definition tick (now : Z) (r : t)
  : t * option (list PlayerPositionUpdate * Z) :=
  if negb (onBroadcast r) || (JsMap.size (players r) =? 0)%nat then (r, None)
  else
    let serverTime := now in
    let (players', updates) := tick_loop (players r) [] in
    if (0 <? List.length updates)%nat
    then (with_players players' r, Some (updates, serverTime))
    else (with_players players' r, None).

End PlayerRegistry.

(** ** Remote players: snapshot buffer and interpolation ([RemotePlayer]) *)

(** [THREE.MathUtils.lerp (x, y, t)] is [(1 - t) * x + t * y]. *)
Definition lerp (a b t : number) : number :=
nadd (nmul (nsub (num_of_Z 1) t) a) (nmul t b).

Module RemotePlayer.

Record PositionSnapshot : Type := mkSnapshot {
  s_position : Vector3;
  s_rotation : Vector3;
  s_timestamp : Z
}.

Definition INTERPOLATION_DELAY : Z := 100.
Definition MAX_BUFFER_SIZE : nat := 10.
Definition LERP_SPEED : number := Num (15 # 100).

(** The fields of a [RemotePlayer] the frame update reads and writes;
    [meshPosition] and [meshRotation] are [mesh.position] and
    [mesh.rotation]. *)
Record t : Type := mkRemotePlayer {
  rp_id : string;
  state : PlayerState;
  positionBuffer : list PositionSnapshot;
  targetPosition : Vector3;
  targetRotation : Vector3;
  meshPosition : Vector3;
  meshRotation : Vector3
}.

Definition create (st : PlayerState) : t :=
{| rp_id := id st; state := st; positionBuffer := [];
   targetPosition := position st; targetRotation := rotation st;
   meshPosition := position st; meshRotation := rotation st |}.

(** [while (buffer.length > MAX_BUFFER_SIZE) buffer.shift ()]. *)
Fixpoint shift_over (cap : nat) (fuel : nat) (buf : list PositionSnapshot)
  : list PositionSnapshot :=
match fuel with
| O => buf
| S fuel' =>
    if (cap <? List.length buf)%nat then shift_over cap fuel' (tl buf) else buf
end.

Definition pushPositionUpdate (update : PlayerPositionUpdate) (p : t) : t :=
let pushed := positionBuffer p ++
              [ {| s_position := u_position update;
                   s_rotation := u_rotation update;
                   s_timestamp := u_timestamp update |} ] in
{| rp_id := rp_id p; state := state p;
   positionBuffer := shift_over MAX_BUFFER_SIZE (List.length pushed) pushed;
   targetPosition := targetPosition p; targetRotation := targetRotation p;
   meshPosition := meshPosition p; meshRotation := meshRotation p |}.

(** The bracket search of [update]: the first adjacent pair
    [(buffer[i], buffer[i+1])] with
    [buffer[i].timestamp <= renderTime <= buffer[i+1].timestamp]. *)
Fixpoint find_bracket (renderTime : Z) (buf : list PositionSnapshot)
  : option (PositionSnapshot * PositionSnapshot) :=
match buf with
| prev :: ((next :: _) as rest) =>
    if (s_timestamp prev <=? renderTime) && (renderTime <=? s_timestamp next)
    then Some (prev, next)
    else find_bracket renderTime rest
| _ => None
end.

Definition lerp3 (a b : Vector3) (t : number) : Vector3 :=
mkVector3 (lerp (x a) (x b) t) (lerp (y a) (y b) t) (lerp (z a) (z b) t).

(** [this.mesh.position.lerp (target, alpha)] and the three rotation
    assignments: [cur += (target - cur) * alpha] on each component. *)
Definition approach (cur target : Vector3) (alpha : number) : Vector3 :=
mkVector3 (nadd (x cur) (nmul (nsub (x target) (x cur)) alpha))
          (nadd (y cur) (nmul (nsub (y target) (y cur)) alpha))
          (nadd (z cur) (nmul (nsub (z target) (z cur)) alpha)).

(** [while (buffer.length > 0 && buffer[0].timestamp < limit) buffer.shift ()]. *)
Fixpoint drop_old (limit : Z) (buf : list PositionSnapshot) : list PositionSnapshot :=
match buf with
| s :: rest => if s_timestamp s <? limit then drop_old limit rest else buf
| [] => []
end.

(** The targets after the first half of [update]. *)
Definition retarget (renderTime : Z) (p : t) : Vector3 * Vector3 :=
if (2 <=? List.length (positionBuffer p))%nat then
  match find_bracket renderTime (positionBuffer p) with
  | Some (prevSnapshot, nextSnapshot) =>
      let duration := s_timestamp nextSnapshot - s_timestamp prevSnapshot in
      let elapsed := renderTime - s_timestamp prevSnapshot in
      let t := Math_min (num_of_Z 1)
                 (Math_max (num_of_Z 0) (ndiv (num_of_Z elapsed) (num_of_Z duration))) in
      (lerp3 (s_position prevSnapshot) (s_position nextSnapshot) t,
       lerp3 (s_rotation prevSnapshot) (s_rotation nextSnapshot) t)
  | None => (targetPosition p, targetRotation p)
  end
else
  match positionBuffer p with
  | [snapshot] => (s_position snapshot, s_rotation snapshot)
  | _ => (targetPosition p, targetRotation p)
  end.

(** [update (_deltaTime)], called once per frame at wall-clock time [now]. *)
Definition update (now : Z) (p : t) : t :=
let renderTime := now - INTERPOLATION_DELAY in
let (tp, tr) := retarget renderTime p in
{| rp_id := rp_id p; state := state p;
   positionBuffer := drop_old (renderTime - 1000) (positionBuffer p);
   targetPosition := tp; targetRotation := tr;
   meshPosition := approach (meshPosition p) tp LERP_SPEED;
   meshRotation := approach (meshRotation p) tr LERP_SPEED |}.

End RemotePlayer.

(** ** JavaScript values, completions and the JSON runtime *)

Set Warnings "-register-all".
Local Open Scope string_scope.
Local Open Scope list_scope.
Local Open Scope Z_scope.

(** The values that can occur in a message. *)
Inductive jsval : Type :=
| JUndefined
| JNull
| JBool (b : bool)
| JNumber (n : number)
| JString (s : string)
| JArray (items : list jsval)
| JObject (props : list (string * jsval)).

Inductive JsError : Type := SyntaxError | TypeError.

(** The completion of an expression: a value, or a thrown exception. *)
Inductive completion (A : Type) : Type :=
| Normal (a : A)
| Throw (e : JsError).
Arguments Normal {A} a.
Arguments Throw {A} e.

Definition bind {A B : Type} (c : completion A) (k : A -> completion B) : completion B :=
match c with
| Normal a => k a
| Throw e => Throw e
end.

Notation "x <- c ;; k" := (bind c (fun x => k))
  (at level 61, c at next level, right associativity).

(** [try { body } catch { handler }]. *)
Definition try_catch {A : Type} (body : completion A) (handler : JsError -> completion A)
  : completion A :=
match body with
| Normal a => Normal a
| Throw e => handler e
end.

(** [a && b] on completions of booleans: [b] is not evaluated when [a] is
    false. *)
Definition and_then (a b : completion bool) : completion bool :=
r <- a ;; if r then b else Normal false.

Definition typeof (v : jsval) : string :=
match v with
| JUndefined => "undefined"
| JNull => "object"
| JBool _ => "boolean"
| JNumber _ => "number"
| JString _ => "string"
| JArray _ => "object"
| JObject _ => "object"
end.

Fixpoint own (name : string) (props : list (string * jsval)) : option jsval :=
match props with
| [] => None
| (k, v) :: rest => if String.eqb name k then Some v else own name rest
end.

(** [v.name] for the property names read in this development
    ([type], [payload], [timestamp], [senderId]), none of which is defined
    by a prototype or is an array index: the own property of an object,
    [undefined] on any other value, and a [TypeError] on [undefined] and
    [null]. *)
Definition get_prop (v : jsval) (name : string) : completion jsval :=
match v with
| JUndefined | JNull => Throw TypeError
| JObject props =>
    Normal (match own name props with Some w => w | None => JUndefined end)
| _ => Normal JUndefined
end.

(** [name in v], for the same property names: a [TypeError] unless [v] is
    an object. *)
Definition js_in (name : string) (v : jsval) : completion bool :=
match v with
| JObject props =>
    Normal (match own name props with Some _ => true | None => false end)
| JArray _ => Normal false
| _ => Throw TypeError
end.

Definition is_null (v : jsval) : bool :=
match v with JNull => true | _ => false end.

(** ** Wire protocol ([lib/websocket/protocol.ts]) *)

Module Protocol.

Record BaseMessage : Type := mkBaseMessage {
  type : string;
  payload : jsval;
  timestamp : number;
  senderId : string
}.


Definition isSystemMessage (msg : BaseMessage) : bool :=
String.prefix "system:" (type msg).

Definition createMessage (now : Z) (ty : string) (pl : jsval) (sender : string)
  : BaseMessage :=
{| type := ty; payload := pl; timestamp := num_of_Z now; senderId := sender |}.

Section Runtime.
(** The JSON runtime of the JavaScript engine.  [JSON_parse] throws a
    [SyntaxError] on malformed text. *)
Variable JSON_stringify : jsval -> string.
Variable JSON_parse : string -> completion jsval.

(** The condition of the [if] in [parseMessage]. *)
Definition envelope_check (parsed : jsval) : completion bool :=
and_then (Normal (String.eqb (typeof parsed) "object"))
 (and_then (Normal (negb (is_null parsed)))
  (and_then (ty <- get_prop parsed "type" ;; Normal (String.eqb (typeof ty) "string"))
   (and_then (js_in "payload" parsed)
    (and_then (ts <- get_prop parsed "timestamp" ;;
               Normal (String.eqb (typeof ts) "number"))
              (sid <- get_prop parsed "senderId" ;;
               Normal (String.eqb (typeof sid) "string")))))).

(** [parseMessage]: [Normal None] is the result [null]; the value returned
    on success is the parsed object itself ([parsed as BaseMessage]). *)
Definition parseMessage (data : string) : completion (option jsval) :=
try_catch
  (parsed <- JSON_parse data ;;
   ok <- envelope_check parsed ;;
   if ok then Normal (Some parsed) else Normal None)
  (fun _ => Normal None).


End Runtime.


(** The four required fields, as the specification lists them: a string
    [type], a [payload] that is present, a numeric [timestamp] and a string
    [senderId]. *)
Definition has_required_fields (v : jsval) : Prop :=
exists props ty pl ts sid,
  v = JObject props /\
  own "type" props = Some (JString ty) /\
  own "payload" props = Some pl /\
  own "timestamp" props = Some (JNumber ts) /\
  own "senderId" props = Some (JString sid).

Inductive CloseCode : Type :=
| NORMAL | GOING_AWAY | PROTOCOL_ERROR | INVALID_DATA | POLICY_VIOLATION
| MESSAGE_TOO_BIG | INTERNAL_ERROR | HEARTBEAT_TIMEOUT | AUTH_FAILED | KICKED.

Definition close_code (c : CloseCode) : Z :=
match c with
| NORMAL => 1000 | GOING_AWAY => 1001 | PROTOCOL_ERROR => 1002
| INVALID_DATA => 1003 | POLICY_VIOLATION => 1008 | MESSAGE_TOO_BIG => 1009
| INTERNAL_ERROR => 1011 | HEARTBEAT_TIMEOUT => 4000 | AUTH_FAILED => 4001
| KICKED => 4002
end.

End Protocol.

(** ** Reconnecting client ([LoungeClient]) *)

Module LoungeClient.
Import Protocol.

Inductive ConnectionState : Type :=
| disconnected | connecting | connected | reconnecting.

Definition state_eqb (a b : ConnectionState) : bool :=
match a, b with
| disconnected, disconnected | connecting, connecting
| connected, connected | reconnecting, reconnecting => true
| _, _ => false
end.

Record ClientConfig : Type := mkConfig {
  url : string;
  autoReconnect : bool;
  reconnectInterval : Z;
  maxReconnectAttempts : Z;
  heartbeatInterval : Z;
  heartbeatTimeout : Z
}.

Definition DEFAULT_CONFIG (u : string) : ClientConfig :=
{| url := u; autoReconnect := true; reconnectInterval := 2000;
   maxReconnectAttempts := 10; heartbeatInterval := 25000;
   heartbeatTimeout := 5000 |}.

(** [socket] tells whether [this.socket] is non-null; a timer field holds
    the delay of the pending timer, if one is armed. *)
Record t : Type := mkClient {
  config : ClientConfig;
  socket : bool;
  clientId : option string;
  state : ConnectionState;
  reconnectAttempts : Z;
  reconnectTimer : option Z;
  heartbeatTimer : option Z;
  heartbeatTimeoutTimer : option Z;
  pingSeq : Z;
  lastPongTime : Z
}.

Definition create (cfg : ClientConfig) : t :=
{| config := cfg; socket := false; clientId := None; state := disconnected;
   reconnectAttempts := 0; reconnectTimer := None; heartbeatTimer := None;
   heartbeatTimeoutTimer := None; pingSeq := 0; lastPongTime := 0 |}.

(** What a method does to the outside world. *)
Inductive Effect : Type :=
| StateChange (newState previousState : ConnectionState)
| NewWebSocket (u : string)
| SocketClose (code : Z) (reason : string)
| SocketSend (msg : BaseMessage)
| SetReconnectTimeout (delay : Z)
| ClearReconnectTimeout.

Definition with_socket (b : bool) (c : t) : t :=
{| config := config c; socket := b; clientId := clientId c; state := state c;
   reconnectAttempts := reconnectAttempts c; reconnectTimer := reconnectTimer c;
   heartbeatTimer := heartbeatTimer c;
   heartbeatTimeoutTimer := heartbeatTimeoutTimer c;
   pingSeq := pingSeq c; lastPongTime := lastPongTime c |}.

Definition with_clientId (i : option string) (c : t) : t :=
{| config := config c; socket := socket c; clientId := i; state := state c;
   reconnectAttempts := reconnectAttempts c; reconnectTimer := reconnectTimer c;
   heartbeatTimer := heartbeatTimer c;
   heartbeatTimeoutTimer := heartbeatTimeoutTimer c;
   pingSeq := pingSeq c; lastPongTime := lastPongTime c |}.

Definition with_state (s : ConnectionState) (c : t) : t :=
{| config := config c; socket := socket c; clientId := clientId c; state := s;
   reconnectAttempts := reconnectAttempts c; reconnectTimer := reconnectTimer c;
   heartbeatTimer := heartbeatTimer c;
   heartbeatTimeoutTimer := heartbeatTimeoutTimer c;
   pingSeq := pingSeq c; lastPongTime := lastPongTime c |}.

Definition with_reconnect (attempts : Z) (timer : option Z) (c : t) : t :=
{| config := config c; socket := socket c; clientId := clientId c; state := state c;
   reconnectAttempts := attempts; reconnectTimer := timer;
   heartbeatTimer := heartbeatTimer c;
   heartbeatTimeoutTimer := heartbeatTimeoutTimer c;
   pingSeq := pingSeq c; lastPongTime := lastPongTime c |}.

Definition with_heartbeat (timer timeout : option Z) (c : t) : t :=
{| config := config c; socket := socket c; clientId := clientId c; state := state c;
   reconnectAttempts := reconnectAttempts c; reconnectTimer := reconnectTimer c;
   heartbeatTimer := timer; heartbeatTimeoutTimer := timeout;
   pingSeq := pingSeq c; lastPongTime := lastPongTime c |}.

(** [setState]: the handlers are notified only of a real change. *)
Definition setState (newState : ConnectionState) (c : t) : t * list Effect :=
if state_eqb (state c) newState then (c, [])
else (with_state newState c, [StateChange newState (state c)]).

Definition stopHeartbeat (c : t) : t := with_heartbeat None None c.

Definition clearHeartbeatTimeout (c : t) : t :=
with_heartbeat (heartbeatTimer c) None c.

Definition stopReconnect (c : t) : t * list Effect :=
(with_reconnect 0 None c,
 match reconnectTimer c with Some _ => [ClearReconnectTimeout] | None => [] end).

Definition handleConnectionFailure (c : t) : t * list Effect :=
let c1 := with_clientId None (with_socket false c) in
if maxReconnectAttempts (config c1) <=? reconnectAttempts c1 then
  setState disconnected c1
else
  let attempts := reconnectAttempts c1 + 1 in
  let delay := reconnectInterval (config c1) * Z.min attempts 5 in
  let (c2, notified) := setState reconnecting (with_reconnect attempts (reconnectTimer c1) c1) in
  (with_reconnect attempts (Some delay) c2, notified ++ [SetReconnectTimeout delay]).

(** [connect]; [constructed] tells whether [new WebSocket (url)] returned
    rather than threw. *)
Definition connect (constructed : bool) (c : t) : t * list Effect :=
match state c with
| connected | connecting => (c, [])
| _ =>
    let (c1, notified) :=
      setState (if state_eqb (state c) disconnected then connecting else reconnecting) c in
    if constructed then
      (with_socket true c1, notified ++ [NewWebSocket (url (config c1))])
    else
      let (c2, effects) := handleConnectionFailure c1 in
      (c2, notified ++ effects)
end.

Definition disconnect (c : t) : t * list Effect :=
let (c1, cleared) := stopReconnect (stopHeartbeat c) in
let closing := if socket c1 then [SocketClose (close_code NORMAL) "Client disconnected"]
               else [] in
let (c2, notified) := setState disconnected (with_clientId None (with_socket false c1)) in
(c2, cleared ++ closing ++ notified).

Definition nonempty (s : string) : bool :=
match s with EmptyString => false | _ => true end.

(** [send]: the message goes out only in state [connected], with a socket
    and a (non-empty) client id. *)
Definition send (now : Z) (ty : string) (pl : jsval) (c : t) : bool * list Effect :=
match clientId c with
| Some cid =>
    if state_eqb (state c) connected && socket c && nonempty cid
    then (true, [SocketSend (createMessage now ty pl cid)])
    else (false, [])
| None => (false, [])
end.

(** [socket.onopen]. *)
Definition onopen (c : t) : t :=
with_reconnect 0 (reconnectTimer c) c.

(** [socket.onclose] with the close code of the event. *)
Definition onclose (code : Z) (c : t) : t * list Effect :=
let c1 := stopHeartbeat c in
if autoReconnect (config c1) && negb (code =? close_code NORMAL)
   && negb (state_eqb (state c1) disconnected)
then handleConnectionFailure c1
else setState disconnected (with_clientId None c1).

(** The [CONNECT] case of [handleMessage]. *)
Definition onConnectMessage (assigned : string) (c : t) : t * list Effect :=
let (c1, notified) := setState connected (with_clientId (Some assigned) c) in
(with_heartbeat (Some (heartbeatInterval (config c1))) None c1, notified).

End LoungeClient.

(** ** String helpers of the JavaScript runtime

    Strings are byte strings (the UTF-8 form of the text).  [is_space] is
    the ASCII part of the white space of [\s] and [trim] (tab, line feed,
    vertical tab, form feed, carriage return, space) and [toLowerCase]
    acts on the ASCII letters: on ASCII text these are JavaScript's
    functions, on other text (a no-break space, an accented capital) they
    are not, so every statement that depends on how a text is split,
    trimmed or lower-cased is stated for ASCII text. *)

Definition is_space (c : ascii) : bool :=
let n := nat_of_ascii c in
((n =? 32) || ((9 <=? n) && (n <=? 13)))%nat.

Definition lower_char (c : ascii) : ascii :=
let n := nat_of_ascii c in
if ((65 <=? n) && (n <=? 90))%nat then ascii_of_nat (n + 32) else c.

Fixpoint toLowerCase (s : string) : string :=
match s with
| EmptyString => EmptyString
| String c r => String (lower_char c) (toLowerCase r)
end.

(** [s.split (/\s+/)], scanning [s] with the token read so far in [cur];
    [gap] tells that the last character read was white space. *)
Fixpoint split_ws (s : string) (cur : string) (gap : bool) : list string :=
match s with
| EmptyString => [cur]
| String c r =>
    if is_space c then
      if gap then split_ws r cur true else cur :: split_ws r EmptyString true
    else split_ws r (cur ++ String c EmptyString)%string false
end.

Definition split_whitespace (s : string) : list string :=
split_ws s EmptyString false.

(** [s.slice (1)]. *)
Definition slice1 (s : string) : string :=
match s with
| EmptyString => EmptyString
| String _ r => r
end.

(** [items.join (' ')]. *)
Definition join_space (items : list string) : string := String.concat " " items.

Fixpoint trimStart (s : string) : string :=
match s with
| String c r => if is_space c then trimStart r else s
| EmptyString => EmptyString
end.

Fixpoint all_space (s : string) : bool :=
match s with
| EmptyString => true
| String c r => is_space c && all_space r
end.

Fixpoint trimEnd (s : string) : string :=
match s with
| EmptyString => EmptyString
| String c r => if all_space s then EmptyString else String c (trimEnd r)
end.

Definition trim (s : string) : string := trimEnd (trimStart s).

(** Text of ASCII characters only. *)
Definition is_ascii (c : ascii) : bool := (nat_of_ascii c <? 128)%nat.

Fixpoint all_ascii (s : string) : bool :=
match s with
| EmptyString => true
| String c r => is_ascii c && all_ascii r
end.

Definition startsWith (s p : string) : bool := String.prefix p s.

Definition string_of_Z (n : Z) : string :=
DecimalString.NilZero.string_of_int (Z.to_int n).

(** ** Chat types ([lib/chat/types.ts]) *)

Inductive ChatType : Type := chat | system | whisper | emote.

Record ChatMessage : Type := mkChatMessage {
  cm_id : string;
  cm_senderId : string;
  cm_senderName : string;
  cm_content : string;
  cm_timestamp : Z;
  cm_type : ChatType;
  cm_targetId : option string;
  cm_targetName : option string
}.

Definition CHAT_SEND : string := "chat:send".
Definition CHAT_WHISPER : string := "chat:whisper".
Definition CHAT_EMOTE : string := "chat:emote".
Definition CHAT_MESSAGE : string := "chat:message".
Definition CHAT_SYSTEM : string := "chat:system".
Definition CHAT_ERROR : string := "chat:error".

(** ** Chat manager ([ChatManager]) *)

Module ChatManager.

Definition MAX_MESSAGE_HISTORY : nat := 100.

Record CommandResult : Type := mkResult {
  handled : bool;
  error : option string
}.

Record t : Type := mkChatManager {
  client : LoungeClient.t;
  messages : list ChatMessage
}.

(** What a call does besides returning: messages handed to the socket by
    [client.send], and messages passed to the [onMessage] callback. *)
Inductive Effect : Type :=
| ClientSend (msg : Protocol.BaseMessage)
| OnMessage (message : ChatMessage).

Definition client_send (now : Z) (ty : string) (pl : jsval) (m : t)
  : bool * list Effect :=
let (sent, effects) := LoungeClient.send now ty pl (client m) in
(sent,
 flat_map (fun e => match e with
                    | LoungeClient.SocketSend msg => [ClientSend msg]
                    | _ => []
                    end) effects).

(** [messages.slice (-MAX_MESSAGE_HISTORY)]. *)
Definition last_n {A : Type} (n : nat) (l : list A) : list A :=
skipn (List.length l - n) l.

Definition addMessage (message : ChatMessage) (m : t) : t :=
let pushed := messages m ++ [message] in
{| client := client m;
   messages := if (MAX_MESSAGE_HISTORY <? List.length pushed)%nat
               then last_n MAX_MESSAGE_HISTORY pushed else pushed |}.

Definition handleChatMessage (message : ChatMessage) (m : t) : t * list Effect :=
(addMessage message m, [OnMessage message]).

Definition is_connected (m : t) : bool :=
LoungeClient.state_eqb (LoungeClient.state (client m)) LoungeClient.connected.

Definition sendChat (now : Z) (content : string) (m : t) : CommandResult * list Effect :=
if negb (is_connected m) then
  ({| handled := false; error := Some "Not connected" |}, [])
else
  let (sent, effects) :=
    client_send now CHAT_SEND (JObject [("content", JString content)]) m in
  ({| handled := sent; error := if sent then None else Some "Failed to send" |}, effects).

Definition sendWhisper (now : Z) (targetName content : string) (m : t)
  : CommandResult * list Effect :=
if negb (is_connected m) then
  ({| handled := false; error := Some "Not connected" |}, [])
else if negb (LoungeClient.nonempty (trim targetName)) then
  ({| handled := false; error := Some "No target specified" |}, [])
else if negb (LoungeClient.nonempty (trim content)) then
  ({| handled := false; error := Some "No message content" |}, [])
else
  let (sent, effects) :=
    client_send now CHAT_WHISPER
      (JObject [("targetName", JString (trim targetName));
                ("content", JString (trim content))]) m in
  ({| handled := sent; error := if sent then None else Some "Failed to send whisper" |},
   effects).

Definition sendEmote (now : Z) (action : string) (m : t) : CommandResult * list Effect :=
if negb (is_connected m) then
  ({| handled := false; error := Some "Not connected" |}, [])
else if negb (LoungeClient.nonempty (trim action)) then
  ({| handled := false; error := Some "No action specified" |}, [])
else
  let (sent, effects) :=
    client_send now CHAT_EMOTE (JObject [("action", JString (trim action))]) m in
  ({| handled := sent; error := if sent then None else Some "Failed to send emote" |},
   effects).

(** The command word of an input: [input.slice (1).split (/\s+/)[0].toLowerCase ()]. *)
Definition command_of (input : string) : string :=
toLowerCase (hd EmptyString (split_whitespace (slice1 input))).

Definition args_of (input : string) : list string :=
tl (split_whitespace (slice1 input)).

Definition is_whisper_command (command : string) : bool :=
String.eqb command "w" || String.eqb command "whisper"
|| String.eqb command "msg" || String.eqb command "tell".

(** [handleCommand]. *)
Definition handleCommand (now : Z) (input : string) (m : t)
  : CommandResult * t * list Effect :=
let command := command_of input in
let args := args_of input in
if String.eqb command "me" then
  let action := join_space args in
  if negb (LoungeClient.nonempty action) then
    ({| handled := false; error := Some "Usage: /me <action>" |}, m, [])
  else
    let (res, effects) := sendEmote now action m in (res, m, effects)
else if is_whisper_command command then
  if (List.length args <? 2)%nat then
    ({| handled := false; error := Some "Usage: /w <player> <message>" |}, m, [])
  else
    let target := hd EmptyString args in
    let message := join_space (tl args) in
    let (res, effects) := sendWhisper now target message m in (res, m, effects)
else if String.eqb command "help" then
  let helpMessage :=
    {| cm_id := ("help_" ++ string_of_Z now)%string;
       cm_senderId := "local";
       cm_senderName := "Help";
       cm_content := "Commands: /me <action>, /w <player> <message>, /help";
       cm_timestamp := now;
       cm_type := system;
       cm_targetId := None; cm_targetName := None |} in
  let (m', effects) := handleChatMessage helpMessage m in
  ({| handled := true; error := None |}, m', effects)
else
  ({| handled := false; error := Some ("Unknown command: /" ++ command)%string |}, m, []).

(** [send]. *)
Definition send (now : Z) (input : string) (m : t) : CommandResult * t * list Effect :=
let trimmed := trim input in
if negb (LoungeClient.nonempty trimmed) then
  ({| handled := false; error := Some "Empty message" |}, m, [])
else if startsWith trimmed "/" then handleCommand now trimmed m
else let (res, effects) := sendChat now trimmed m in (res, m, effects).

End ChatManager.

(** ** Typed messages

    The message interfaces of [protocol.ts], [player/types.ts] and
    [chat/types.ts] form a union discriminated by [type]; the server casts
    a parsed envelope to the interface its [type] names.  A [Body] is one
    member of that union: its constructor stands for the [type] string and
    carries the payload.  [Unknown ty pl] is a message whose [type] is none
    of the listed ones. *)

Inductive Body : Type :=
| Ping (seq : Z)
| Pong (seq : Z) (serverTime : Z)
| Connect (clientId : string) (serverTime : Z)
| Disconnect (clientId : string) (reason : string)
| Error (code : string) (message : string)
| PlayerJoin (joined : PlayerState)
| PlayerLeave (leaver : string) (reason : string)
| PlayerStateMsg (players : list PlayerState)
| PlayerPosition (update : PlayerPositionUpdate)
| PlayerBatchPosition (updates : list PlayerPositionUpdate) (serverTime : Z)
| RequestFullState
| PlayerStatusChange (who : string) (newStatus : PlayerStatus)
| ChatSend (content : string)
| ChatWhisper (targetId : option string) (targetName : option string) (content : string)
| ChatEmote (action : string)
| ChatBroadcast (message : ChatMessage)
| ChatSystem (message : ChatMessage)
| ChatError (code : string) (message : string)
| Unknown (ty : string) (pl : jsval).

Definition type_of (b : Body) : string :=
match b with
| Ping _ => "system:ping"
| Pong _ _ => "system:pong"
| Connect _ _ => "system:connect"
| Disconnect _ _ => "system:disconnect"
| Error _ _ => "system:error"
| PlayerJoin _ => "player:join"
| PlayerLeave _ _ => "player:leave"
| PlayerStateMsg _ => "player:state"
| PlayerPosition _ => "player:position"
| PlayerBatchPosition _ _ => "player:batch_position"
| RequestFullState => "player:request_full_state"
| PlayerStatusChange _ _ => "player:status_change"
| ChatSend _ => CHAT_SEND
| ChatWhisper _ _ _ => CHAT_WHISPER
| ChatEmote _ => CHAT_EMOTE
| ChatBroadcast _ => CHAT_MESSAGE
| ChatSystem _ => CHAT_SYSTEM
| ChatError _ _ => CHAT_ERROR
| Unknown ty _ => ty
end.

Record Message : Type := mkMessage {
  body : Body;
  m_timestamp : Z;
  m_senderId : string
}.

(** [createMessage] on typed messages. *)
Definition createMessage (now : Z) (b : Body) (sender : string) : Message :=
{| body := b; m_timestamp := now; m_senderId := sender |}.

Definition isPlayerMessage (msg : Message) : bool :=
startsWith (type_of (body msg)) "player:".

Definition isChatMessage (msg : Message) : bool :=
startsWith (type_of (body msg)) "chat:".

(** [generateChatId], with the random suffix
    [Math.random ().toString (36).substring (2, 9)] supplied as [rnd]. *)
Definition generateChatId (now : Z) (rnd : string) : string :=
("chat_" ++ string_of_Z now ++ "_" ++ rnd)%string.

Definition createChatMessage (now : Z) (rnd : string)
  (sender senderName content : string) (ty : ChatType)
  (targetId targetName : option string) : ChatMessage :=
{| cm_id := generateChatId now rnd;
   cm_senderId := sender;
   cm_senderName := senderName;
   cm_content := content;
   cm_timestamp := now;
   cm_type := ty;
   cm_targetId := targetId;
   cm_targetName := targetName |}.

Definition dquote : string := String (ascii_of_nat 34) EmptyString.

Module SystemMessages.
Definition playerJoin (playerName : string) : string :=
(playerName ++ " joined the lounge")%string.
Definition playerLeave (playerName : string) : string :=
(playerName ++ " left the lounge")%string.
Definition playerNotFound (targetName : string) : string :=
("Player " ++ dquote ++ targetName ++ dquote ++ " not found")%string.
End SystemMessages.

(** ** Lounge server ([LoungeServer]) *)

(** The [id] of a player state, under a name the fields of
    [ClientConnection] do not hide. *)
Definition player_id (p : PlayerState) : string := id p.

Module LoungeServer.

Inductive ReadyState : Type := CONNECTING | OPEN | CLOSING | CLOSED.

Definition is_open (r : ReadyState) : bool :=
match r with OPEN => true | _ => false end.

(** [readyState] is [socket.readyState]; the socket of a connection is
    named by the connection's id. *)
Record ClientConnection : Type := mkClientConnection {
  id : string;
  readyState : ReadyState;
  isAlive : bool;
  connectedAt : Z;
  lastPingSeq : Z;
  username : string
}.

Definition with_isAlive (b : bool) (c : ClientConnection) : ClientConnection :=
{| id := id c; readyState := readyState c; isAlive := b;
   connectedAt := connectedAt c; lastPingSeq := lastPingSeq c;
   username := username c |}.

Definition with_readyState (r : ReadyState) (c : ClientConnection) : ClientConnection :=
{| id := id c; readyState := r; isAlive := isAlive c;
   connectedAt := connectedAt c; lastPingSeq := lastPingSeq c;
   username := username c |}.

Record t : Type := mkServer {
  clients : JsMap.t ClientConnection;
  playerRegistry : PlayerRegistry.t
}.

(** Calls on sockets. *)
Inductive Effect : Type :=
| Send (to : string) (msg : Message)
| SocketPing (to : string)
| SocketTerminate (to : string).

Definition with_clients (m : JsMap.t ClientConnection) (s : t) : t :=
{| clients := m; playerRegistry := playerRegistry s |}.

Definition with_registry (r : PlayerRegistry.t) (s : t) : t :=
{| clients := clients s; playerRegistry := r |}.

Definition sendTo (client : ClientConnection) (msg : Message) : list Effect :=
if is_open (readyState client) then [Send (id client) msg] else [].

Definition excluded (k : string) (excludeId : option string) : bool :=
match excludeId with
| Some e => String.eqb k e
| None => false
end.

(** [broadcast (msg, excludeId)], in the order of the [clients] map. *)
Definition broadcast (msg : Message) (excludeId : option string) (s : t) : list Effect :=
flat_map (fun kc : string * ClientConnection =>
            let (k, client) := kc in
            if negb (excluded k excludeId) && is_open (readyState client)
            then [Send (id client) msg] else [])
         (clients s).

Definition truthy (o : option string) : bool :=
match o with
| Some s => LoungeClient.nonempty s
| None => false
end.

(** The username loop of the whisper case: the first client, in map
    order, whose username matches case-insensitively. *)
Fixpoint find_by_name (targetName : string) (cs : list ClientConnection)
  : option ClientConnection :=
match cs with
| [] => None
| c :: rest =>
    if String.eqb (toLowerCase (username c)) (toLowerCase targetName)
    then Some c else find_by_name targetName rest
end.

(** The string held by an optional field that passed a truthiness test. *)
Definition value (o : option string) : string :=
match o with
| Some s => s
| None => EmptyString
end.

(** "Find target by ID or name": the name is tried only when no
    (non-empty) id was given. *)
Definition find_target (targetId targetName : option string) (s : t)
  : option ClientConnection :=
if truthy targetId then JsMap.get (value targetId) (clients s)
else if truthy targetName then find_by_name (value targetName) (JsMap.values (clients s))
else None.

(** [targetName || targetId || 'unknown']. *)
Definition shown_target (targetId targetName : option string) : string :=
if truthy targetName then value targetName
else if truthy targetId then value targetId
else "unknown".

Definition handleChatMessage (now : Z) (rnd : string)
  (client : ClientConnection) (msg : Message) (s : t) : list Effect :=
match body msg with
| ChatSend content =>
    let chatMsg := createChatMessage now rnd (id client) (username client)
                     content chat None None in
    broadcast (createMessage now (ChatBroadcast chatMsg) "server") None s
| ChatWhisper targetId targetName content =>
    match find_target targetId targetName s with
    | None =>
        sendTo client
          (createMessage now
             (ChatError "PLAYER_NOT_FOUND"
                (SystemMessages.playerNotFound (shown_target targetId targetName)))
             "server")
    | Some targetClient =>
        let chatMsg := createChatMessage now rnd (id client) (username client)
                         content whisper
                         (Some (id targetClient)) (Some (username targetClient)) in
        let senderChatMsg := createChatMessage now rnd (id client) (username client)
                               content whisper
                               (Some (id targetClient)) (Some (username targetClient)) in
        sendTo targetClient (createMessage now (ChatBroadcast chatMsg) "server")
        ++ sendTo client (createMessage now (ChatBroadcast senderChatMsg) "server")
    end
| ChatEmote action =>
    let chatMsg := createChatMessage now rnd (id client) (username client)
                     action emote None None in
    broadcast (createMessage now (ChatBroadcast chatMsg) "server") None s
| _ => []
end.

Definition handlePlayerMessage (now : Z) (client : ClientConnection) (msg : Message)
  (s : t) : t * list Effect :=
match body msg with
| PlayerPosition update =>
    (with_registry
       (fst (PlayerRegistry.updatePosition now (id client)
               (u_position update) (u_rotation update) (playerRegistry s))) s,
     [])
| RequestFullState =>
    (s, sendTo client
          (createMessage now
             (PlayerStateMsg (PlayerRegistry.getAllPlayers (playerRegistry s)))
             "server"))
| PlayerStatusChange _ newStatus =>
    let s' := with_registry
                (fst (PlayerRegistry.updateStatus now (id client) newStatus
                        (playerRegistry s))) s in
    (s', broadcast msg None s')
| _ => (s, [])
end.

(** [handleMessage]; [parsed] is the result of [parseMessage] on the
    received text, [None] for [null]. *)
Definition handleMessage (now : Z) (rnd : string) (client : ClientConnection)
  (parsed : option Message) (s : t) : t * list Effect :=
match parsed with
| None =>
    (s, sendTo client
          (createMessage now
             (Error "INVALID_MESSAGE" "Message could not be parsed") "server"))
| Some msg =>
    match body msg with
    | Ping seq => (s, sendTo client (createMessage now (Pong seq now) "server"))
    | Pong _ _ => (with_clients (JsMap.modify (id client) (with_isAlive true) (clients s)) s, [])
    | _ =>
        if isPlayerMessage msg then handlePlayerMessage now client msg s
        else if isChatMessage msg then (s, handleChatMessage now rnd client msg s)
        else (s, broadcast msg (Some (id client)) s)
    end
end.

Section WithColor.
Variable generatePlayerColor : string -> Z.

(** The [connection] handler of [setupServer]; [clientId] is the result of
    [randomUUID ()] and [socketState] the state of the accepted socket. *)
Definition handleConnection (now : Z) (rnd : string) (clientId : string)
  (socketState : ReadyState) (s : t) : t * list Effect :=
let client := {| id := clientId; readyState := socketState; isAlive := true;
                 connectedAt := now; lastPingSeq := 0;
                 username := ("Player_" ++ String.substring 0 6 clientId)%string |} in
let s1 := with_clients (JsMap.set clientId client (clients s)) s in
let sent1 := sendTo client (createMessage now (Connect clientId now) "server") in
let (registry, playerState) :=
  PlayerRegistry.addPlayer generatePlayerColor now clientId (username client)
    (playerRegistry s1) in
let s2 := with_registry registry s1 in
let allPlayers := PlayerRegistry.getAllPlayers (playerRegistry s2) in
let sent2 := sendTo client (createMessage now (PlayerStateMsg allPlayers) "server") in
let sent3 := broadcast (createMessage now (PlayerJoin playerState) "server")
               (Some clientId) s2 in
let joinChatMsg := createChatMessage now rnd "server" "System"
                     (SystemMessages.playerJoin (username client)) system None None in
let sent4 := broadcast (createMessage now (ChatSystem joinChatMsg) "server") None s2 in
(s2, sent1 ++ sent2 ++ sent3 ++ sent4).
End WithColor.

Definition remove_session (k : string) (s : t) : t :=
with_clients (JsMap.delete k (clients s))
  (with_registry (fst (PlayerRegistry.removePlayer k (playerRegistry s))) s).

Definition handleDisconnect (now : Z) (rnd : string) (client : ClientConnection)
  (code : Z) (reason : string) (s : t) : t * list Effect :=
let uname := username client in
let s1 := remove_session (id client) s in
let sent1 := broadcast (createMessage now (PlayerLeave (id client) reason) "server")
               None s1 in
let leaveChatMsg := createChatMessage now rnd "server" "System"
                      (SystemMessages.playerLeave uname) system None None in
let sent2 := broadcast (createMessage now (ChatSystem leaveChatMsg) "server") None s1 in
let sent3 := broadcast (createMessage now (Disconnect (id client) reason) "server")
               None s1 in
(s1, sent1 ++ sent2 ++ sent3).

(** The socket's [pong] handler. *)
Definition handlePong (client : ClientConnection) (s : t) : t :=
with_clients (JsMap.modify (id client) (with_isAlive true) (clients s)) s.

(** The heartbeat sweep over the entries of [clients]: [entries] are the
    entries still to visit.  Deleting the visited entry does not disturb
    the iteration of a [Map]. *)
Fixpoint heartbeat_loop (now : Z) (entries : list (string * ClientConnection)) (s : t)
  : t * list Effect :=
match entries with
| [] => (s, [])
| (k, client) :: rest =>
    if negb (isAlive client) then
      let s1 := remove_session k s in
      let sent1 := broadcast (createMessage now (PlayerLeave k "heartbeat timeout") "server")
                     None s1 in
      let sent2 := broadcast (createMessage now (Disconnect k "heartbeat timeout") "server")
                     None s1 in
      let (s2, later) := heartbeat_loop now rest s1 in
      (s2, SocketTerminate (id client) :: sent1 ++ sent2 ++ later)
    else
      let s1 := with_clients (JsMap.modify k (with_isAlive false) (clients s)) s in
      let (s2, later) := heartbeat_loop now rest s1 in
      (s2, SocketPing (id client) :: later)
end.

Definition heartbeat (now : Z) (s : t) : t * list Effect :=
heartbeat_loop now (clients s) s.

(** The callback [startPlayerBroadcast] installs in the registry. *)
Definition onBroadcast (now : Z) (updates : list PlayerPositionUpdate) (serverTime : Z)
  (s : t) : list Effect :=
if (0 <? List.length updates)%nat then
  broadcast (createMessage now (PlayerBatchPosition updates serverTime) "server") None s
else [].

(** One firing of the registry's tick timer. *)
Definition playerTick (now : Z) (s : t) : t * list Effect :=
let (registry, call) := PlayerRegistry.tick now (playerRegistry s) in
let s' := with_registry registry s in
match call with
| Some (updates, serverTime) => (s', onBroadcast now updates serverTime s')
| None => (s', [])
end.

(** The server after its constructor: no client, the registry started. *)
Definition initial : t :=
{| clients := JsMap.empty;
   playerRegistry := PlayerRegistry.start PlayerRegistry.initial |}.

(** The events of the server's event loop.  A handler closes over the
    [client] object of its connection; the event carries it. *)
Inductive Event : Type :=
| Connection (clientId : string) (socketState : ReadyState)
| TextMessage (client : ClientConnection) (parsed : option Message)
| SocketClosed (client : ClientConnection) (code : Z) (reason : string)
| PongFrame (client : ClientConnection)
| HeartbeatTimer
| TickTimer
| SocketStateChanged (k : string) (newState : ReadyState).

Section EventLoop.
Variable generatePlayerColor : string -> Z.

(** One synchronous handler run, at clock [now] and with random chat-id
    suffix [rnd]. *)
Definition step (now : Z) (rnd : string) (ev : Event) (s : t) : t * list Effect :=
match ev with
| Connection clientId socketState =>
    handleConnection generatePlayerColor now rnd clientId socketState s
| TextMessage client parsed => handleMessage now rnd client parsed s
| SocketClosed client code reason => handleDisconnect now rnd client code reason s
| PongFrame client => (handlePong client s, [])
| HeartbeatTimer => heartbeat now s
| TickTimer => playerTick now s
| SocketStateChanged k newState =>
    (with_clients (JsMap.modify k (with_readyState newState) (clients s)) s, [])
end.

(** The states the server can be in between two handler runs. *)
Inductive Reachable : t -> Prop :=
| reach_initial : Reachable initial
| reach_step (now : Z) (rnd : string) (ev : Event) (s : t) :
    Reachable s -> Reachable (fst (step now rnd ev s)).
End EventLoop.

Definition session_ids (s : t) : list string := JsMap.keys (clients s).

Definition player_ids (s : t) : list string :=
map (fun p => player_id (PlayerRegistry.pub p))
    (JsMap.values (PlayerRegistry.players (playerRegistry s))).

End LoungeServer.

(** ** Client-side player manager ([PlayerManager]) *)

Module PlayerManager.

Record t : Type := mkPlayerManager {
  remotePlayers : JsMap.t RemotePlayer.t;
  localPlayerId : option string
}.

Definition is_local (uid : string) (m : t) : bool :=
match localPlayerId m with
| Some me => String.eqb uid me
| None => false
end.

Definition addRemotePlayer (st : PlayerState) (m : t) : t :=
if JsMap.has (id st) (remotePlayers m) then m
else {| remotePlayers := JsMap.set (id st) (RemotePlayer.create st) (remotePlayers m);
        localPlayerId := localPlayerId m |}.

Definition removeRemotePlayer (pid : string) (m : t) : t :=
{| remotePlayers := JsMap.delete pid (remotePlayers m);
   localPlayerId := localPlayerId m |}.

Definition clearAllPlayers (m : t) : t :=
{| remotePlayers := JsMap.empty; localPlayerId := localPlayerId m |}.

Definition handlePlayerJoin (st : PlayerState) (m : t) : t :=
if is_local (id st) m then m else addRemotePlayer st m.

Definition handleFullState (players : list PlayerState) (m : t) : t :=
fold_left (fun acc st => if is_local (id st) acc then acc else addRemotePlayer st acc)
          players (clearAllPlayers m).

(** [handleBatchPositionUpdate]: the loop body for one update, then the
    loop. *)
Definition apply_update (m : t) (update : PlayerPositionUpdate) : t :=
if is_local (u_id update) m then m
else
  match JsMap.get (u_id update) (remotePlayers m) with
  | Some _ =>
      {| remotePlayers := JsMap.modify (u_id update)
                            (RemotePlayer.pushPositionUpdate update) (remotePlayers m);
         localPlayerId := localPlayerId m |}
  | None => m
  end.

Definition handleBatchPositionUpdate (updates : list PlayerPositionUpdate) (m : t) : t :=
fold_left apply_update updates m.

(** [update (deltaTime)] at wall-clock time [now]. *)
Definition update (now : Z) (m : t) : t :=
{| remotePlayers := map (fun kv => (fst kv, RemotePlayer.update now (snd kv)))
                        (remotePlayers m);
   localPlayerId := localPlayerId m |}.

End PlayerManager.

(** ** The JSON runtime, on a fragment

    [JSON.stringify] and [JSON.parse] belong to the engine.  This module
    gives them as executable functions on a fragment of the values and of
    the texts, after ECMA-262 ([JSON.stringify], [QuoteJSONString],
    [Number::toString], [JSON.parse] and the JSON grammar).  Outside the
    fragment [stringify] and [read] answer [None], and nothing is said
    about the engine.

    The values of the fragment ([writable]): [null], the booleans, the
    strings, [NaN] and the integers of magnitude at most [2^53 - 1],
    arrays of such values, and objects of such values whose keys are
    distinct and not made of digits only (the engine enumerates integer
    keys first).  The texts of the fragment: those in which every number
    literal denotes such an integer (and not [-0]), every [\u] escape
    denotes an ASCII character, and no key is made of digits only; a text
    that is not JSON is in the fragment as long as it goes wrong before
    anything of that kind. *)

Module Json.

Definition DQ : ascii := ascii_of_nat 34.
Definition BS : ascii := ascii_of_nat 92.





(** [Number.MAX_SAFE_INTEGER]. *)
Definition MAX_SAFE_INTEGER : Z := 2 ^ 53 - 1.

(** The numbers of the fragment other than [NaN]. *)
Definition safe_integer (q : Q) : bool :=
Pos.eqb (Qden q) 1 && (Z.abs (Qnum q) <=? MAX_SAFE_INTEGER).






Fixpoint distinct (keys : list string) : bool :=
match keys with
| [] => true
| k :: r => negb (existsb (String.eqb k) r) && distinct r
end.

Definition is_digit (c : ascii) : bool :=
((48 <=? nat_of_ascii c) && (nat_of_ascii c <=? 57))%nat.

Fixpoint all_digits (s : string) : bool :=
match s with
| EmptyString => true
| String c r => is_digit c && all_digits r
end.

(** A key made of digits only.  (The keys the engine enumerates first,
    whatever the order of insertion, are among them.) *)
Definition digit_key (k : string) : bool :=
match k with
| EmptyString => false
| String _ _ => all_digits k
end.

(** The values of the fragment that are read back as they were written:
    [null], booleans, strings, integers of magnitude at most [2^53 - 1],
    arrays of such values, and objects of such values under distinct keys
    none of which is made of digits only. *)
Fixpoint plain (v : jsval) : bool :=
match v with
| JUndefined => false
| JNull | JBool _ | JString _ => true
| JNumber NaN => false
| JNumber (Num q) => safe_integer q
| JArray items => forallb plain items
| JObject props =>
    distinct (map fst props)
    && negb (existsb digit_key (map fst props))
    && (fix members (l : list (string * jsval)) : bool :=
          match l with
          | [] => true
          | (_, w) :: r => plain w && members r
          end) props
end.





Definition is_json_space (c : ascii) : bool :=
let n := nat_of_ascii c in
((n =? 32) || (n =? 9) || (n =? 10) || (n =? 13))%nat.

Fixpoint skip_ws (s : string) : string :=
match s with
| String c r => if is_json_space c then skip_ws r else s
| EmptyString => EmptyString
end.

Definition digit_of (c : ascii) : option Z :=
let n := nat_of_ascii c in
if is_digit c then Some (Z.of_nat (n - 48)) else None.

Definition hex_of (c : ascii) : option nat :=
let n := nat_of_ascii c in
if ((48 <=? n) && (n <=? 57))%nat then Some (n - 48)%nat
else if ((97 <=? n) && (n <=? 102))%nat then Some (n - 87)%nat
else if ((65 <=? n) && (n <=? 70))%nat then Some (n - 55)%nat
else None.

(** What reading a piece of text comes to: a result and the rest of the
    text; text that is not JSON (the engine throws a [SyntaxError]); or
    text outside the fragment. *)
Inductive outcome (A : Type) : Type :=
| Read (a : A)
| Malformed
| Unmodelled.
Arguments Read {A} a.
Arguments Malformed {A}.
Arguments Unmodelled {A}.

(** The characters of a string literal after its opening quote. *)
Fixpoint parse_chars (s : string) : outcome (string * string) :=
match s with
| EmptyString => Malformed
| String c r =>
    if Ascii.eqb c DQ then Read (EmptyString, r)
    else if (nat_of_ascii c <? 32)%nat then Malformed
    else if Ascii.eqb c BS then
      match r with
      | String e r' =>
          let plain (x : ascii) :=
            match parse_chars r' with
            | Read (t, rest) => Read (String x t, rest)
            | Malformed => Malformed
            | Unmodelled => Unmodelled
            end in
          if Ascii.eqb e DQ then plain DQ
          else if Ascii.eqb e BS then plain BS
          else if Ascii.eqb e "/" then plain "/"%char
          else if Ascii.eqb e "b" then plain (ascii_of_nat 8)
          else if Ascii.eqb e "f" then plain (ascii_of_nat 12)
          else if Ascii.eqb e "n" then plain (ascii_of_nat 10)
          else if Ascii.eqb e "r" then plain (ascii_of_nat 13)
          else if Ascii.eqb e "t" then plain (ascii_of_nat 9)
          else if Ascii.eqb e "u" then
            match r' with
            | String h1 (String h2 (String h3 (String h4 r''))) =>
                match hex_of h1, hex_of h2, hex_of h3, hex_of h4 with
                | Some a, Some b, Some c', Some d =>
                    let code := (4096 * a + 256 * b + 16 * c' + d)%nat in
                    if (code <? 128)%nat then
                      match parse_chars r'' with
                      | Read (t, rest) => Read (String (ascii_of_nat code) t, rest)
                      | Malformed => Malformed
                      | Unmodelled => Unmodelled
                      end
                    else Unmodelled
                | _, _, _, _ => Malformed
                end
            | _ => Malformed
            end
          else Malformed
      | EmptyString => Malformed
      end
    else
      match parse_chars r with
      | Read (t, rest) => Read (String c t, rest)
      | Malformed => Malformed
      | Unmodelled => Unmodelled
      end
end.

(** A run of digits: its value continuing [acc], how many were read, and
    the rest. *)
Fixpoint parse_digits (s : string) (acc : Z) (count : nat) : Z * nat * string :=
match s with
| String c r =>
    match digit_of c with
    | Some d => parse_digits r (10 * acc + d) (S count)
    | None => (acc, count, s)
    end
| EmptyString => (acc, count, s)
end.

(** An optional minus sign. *)
Definition parse_sign (s : string) : bool * string :=
match s with
| String c r => if Ascii.eqb c "-" then (true, r) else (false, s)
| EmptyString => (false, s)
end.

(** The integer part of a number literal: the digit [0] alone, or a digit
    other than [0] and the digits after it. *)
Definition parse_int (s : string) : option (Z * nat * string) :=
match s with
| String c r =>
    match digit_of c with
    | Some d => if d =? 0 then Some (0, 1%nat, r) else Some (parse_digits r d 1%nat)
    | None => None
    end
| EmptyString => None
end.

(** An optional fraction after the integer part [whole]: the digits read
    as one integer with [whole], and how many of them follow the point (at
    least one). *)
Definition parse_fraction (whole : Z) (s : string) : option (Z * nat * string) :=
match s with
| String c r =>
    if Ascii.eqb c "." then
      let '(all, n2, rest) := parse_digits r whole 0%nat in
      if (n2 =? 0)%nat then None else Some (all, n2, rest)
    else Some (whole, 0%nat, s)
| EmptyString => Some (whole, 0%nat, s)
end.

(** An optional exponent: [e] or [E], an optional sign, at least one
    digit. *)
Definition parse_exponent (s : string) : option (Z * string) :=
match s with
| String c r =>
    if Ascii.eqb c "e" || Ascii.eqb c "E" then
      let (negative, r1) :=
        match r with
        | String c1 r' =>
            if Ascii.eqb c1 "+" then (false, r')
            else if Ascii.eqb c1 "-" then (true, r')
            else (false, r)
        | EmptyString => (false, r)
        end in
      let '(e, n, rest) := parse_digits r1 0 0%nat in
      if (n =? 0)%nat then None else Some (if negative then - e else e, rest)
    else Some (0, s)
| EmptyString => Some (0, s)
end.

(** The value of the literal with sign [negative], digits [mant] ([count]
    of them) and decimal exponent [scale], when it is an integer of
    magnitude at most [2^53 - 1] and not [-0]: such a value is a double,
    the engine's rounding of the literal changes nothing. *)
Definition literal_value (negative : bool) (mant : Z) (count : nat) (scale : Z)
  : option Z :=
let signed (v : Z) :=
  if v <=? MAX_SAFE_INTEGER then Some (if negative then - v else v) else None in
if mant =? 0 then (if negative then None else Some 0)
else if 0 <=? scale then
  (if scale <=? 15 then signed (mant * 10 ^ scale) else None)
else if Z.of_nat count <=? - scale then None
else if mant mod 10 ^ (- scale) =? 0 then signed (mant / 10 ^ (- scale))
else None.

Definition parse_number (s : string) : outcome (number * string) :=
let (negative, s1) := parse_sign s in
match parse_int s1 with
| None => Malformed
| Some (whole, n1, s2) =>
    match parse_fraction whole s2 with
    | None => Malformed
    | Some (mant, n2, s3) =>
        match parse_exponent s3 with
        | None => Malformed
        | Some (e, s4) =>
            match literal_value negative mant (n1 + n2) (e - Z.of_nat n2) with
            | Some v => Read (Num (v # 1), s4)
            | None => Unmodelled
            end
        end
    end
end.

(** [s] without its prefix [p], if it begins with [p]. *)
Fixpoint drop_prefix (p s : string) : option string :=
match p with
| EmptyString => Some s
| String a p' =>
    match s with
    | String b s' => if Ascii.eqb a b then drop_prefix p' s' else None
    | EmptyString => None
    end
end.

(** Adding a member read from the text: a repeated key keeps its place and
    takes the later value. *)
Definition add_member (k : string) (v : jsval) (props : list (string * jsval))
  : list (string * jsval) :=
JsMap.set k v props.

(** The elements of an array after its opening bracket, read with [pv];
    [n] bounds their number. *)
Fixpoint parse_items (pv : string -> outcome (jsval * string)) (n : nat)
  (acc : list jsval) (s : string) : outcome (jsval * string) :=
match n with
| O => Unmodelled
| S n' =>
    match pv (skip_ws s) with
    | Read (v, rest) =>
        match skip_ws rest with
        | String c rest' =>
            if Ascii.eqb c "," then parse_items pv n' (acc ++ [v]) rest'
            else if Ascii.eqb c "]" then Read (JArray (acc ++ [v]), rest')
            else Malformed
        | EmptyString => Malformed
        end
    | Malformed => Malformed
    | Unmodelled => Unmodelled
    end
end.

(** The members of an object after its opening brace. *)
Fixpoint parse_members (pv : string -> outcome (jsval * string)) (n : nat)
  (acc : list (string * jsval)) (s : string) : outcome (jsval * string) :=
match n with
| O => Unmodelled
| S n' =>
    match skip_ws s with
    | String c r =>
        if Ascii.eqb c DQ then
          match parse_chars r with
          | Read (k, rest) =>
              match skip_ws rest with
              | String c1 rest1 =>
                  if Ascii.eqb c1 ":" then
                    match pv (skip_ws rest1) with
                    | Read (v, rest2) =>
                        match skip_ws rest2 with
                        | String c2 rest3 =>
                            if digit_key k then Unmodelled
                            else if Ascii.eqb c2 ","
                            then parse_members pv n' (add_member k v acc) rest3
                            else if Ascii.eqb c2 "}"
                            then Read (JObject (add_member k v acc), rest3)
                            else Malformed
                        | EmptyString => Malformed
                        end
                    | Malformed => Malformed
                    | Unmodelled => Unmodelled
                    end
                  else Malformed
              | EmptyString => Malformed
              end
          | Malformed => Malformed
          | Unmodelled => Unmodelled
          end
        else Malformed
    | EmptyString => Malformed
    end
end.

Definition parse_literal (s : string) : outcome (jsval * string) :=
match drop_prefix "null" s, drop_prefix "true" s, drop_prefix "false" s with
| Some rest, _, _ => Read (JNull, rest)
| _, Some rest, _ => Read (JBool true, rest)
| _, _, Some rest => Read (JBool false, rest)
| None, None, None =>
    match parse_number s with
    | Read (n, rest) => Read (JNumber n, rest)
    | Malformed => Malformed
    | Unmodelled => Unmodelled
    end
end.

(** Does [s] begin with the character [c]. *)
Definition begins (c : ascii) (s : string) : bool :=
match s with
| String c' _ => Ascii.eqb c' c
| EmptyString => false
end.

(** A value at the head of [s]; [fuel] bounds the nesting depth and the
    number of elements of an array or object (the length of the text is
    enough; should it run out, the text counts as outside the
    fragment). *)
Fixpoint parse_value (fuel : nat) (s : string) : outcome (jsval * string) :=
match fuel with
| O => Unmodelled
| S fuel' =>
    match s with
    | EmptyString => Malformed
    | String c r =>
        if Ascii.eqb c DQ then
          match parse_chars r with
          | Read (t, rest) => Read (JString t, rest)
          | Malformed => Malformed
          | Unmodelled => Unmodelled
          end
        else if Ascii.eqb c "[" then
          if begins "]" (skip_ws r) then Read (JArray [], slice1 (skip_ws r))
          else parse_items (parse_value fuel') fuel' [] r
        else if Ascii.eqb c "{" then
          if begins "}" (skip_ws r) then Read (JObject [], slice1 (skip_ws r))
          else parse_members (parse_value fuel') fuel' [] r
        else parse_literal s
    end
end.

(** [JSON.parse] on the fragment: the completion of the engine's call, a
    value or a [SyntaxError]. *)
Definition read (s : string) : option (completion jsval) :=
match parse_value (S (String.length s)) (skip_ws s) with
| Read (v, rest) =>
    match skip_ws rest with
    | EmptyString => Some (Normal v)
    | _ => Some (Throw SyntaxError)
    end
| Malformed => Some (Throw SyntaxError)
| Unmodelled => None
end.

(** Total functions that agree with [stringify] and [read] on the
    fragment, to run the protocol functions on concrete text of the
    fragment.  What they answer outside the fragment is of no
    significance. *)
Definition parse (s : string) : completion jsval :=
match read s with
| Some r => r
| None => Throw SyntaxError
end.


End Json.

(** ** Username validation of the connect screen ([ConnectScreen.tsx]) *)

Module ConnectScreen.

Definition USERNAME_MIN_LENGTH : nat := 3.
Definition USERNAME_MAX_LENGTH : nat := 16.

Definition is_alphanumeric (c : ascii) : bool :=
let n := nat_of_ascii c in
(((97 <=? n) && (n <=? 122)) || ((65 <=? n) && (n <=? 90))
 || ((48 <=? n) && (n <=? 57)))%nat.

Fixpoint all_alphanumeric (s : string) : bool :=
match s with
| EmptyString => true
| String c r => is_alphanumeric c && all_alphanumeric r
end.

(** [USERNAME_PATTERN.test (s)] for [/^[a-zA-Z0-9]+$/]. *)
Definition USERNAME_PATTERN_test (s : string) : bool :=
LoungeClient.nonempty s && all_alphanumeric s.

(** [validateUsername]: [None] is [null], no error to show. *)
Definition validateUsername (uname : string) : option string :=
if (String.length uname =? 0)%nat then None
else if (String.length uname <? USERNAME_MIN_LENGTH)%nat then
  Some ("Username must be at least "
        ++ string_of_Z (Z.of_nat USERNAME_MIN_LENGTH) ++ " characters")%string
else if (USERNAME_MAX_LENGTH <? String.length uname)%nat then
  Some ("Username must be at most "
        ++ string_of_Z (Z.of_nat USERNAME_MAX_LENGTH) ++ " characters")%string
else if negb (USERNAME_PATTERN_test uname) then
  Some "Username must be alphanumeric only"
else None.

(** [isUsernameValid] of the component. *)
Definition isUsernameValid (uname : string) : bool :=
(0 <? String.length uname)%nat
&& match validateUsername uname with None => true | Some _ => false end.

End ConnectScreen.

(** ** Presence: status of the local player ([PresenceManager]) *)

Module PresenceManager.

Definition IDLE_TIMEOUT : Z := 60 * 1000.
Definition AWAY_TIMEOUT : Z := 5 * 60 * 1000.

Record t : Type := mkPresence {
  client : LoungeClient.t;
  players : JsMap.t PlayerState;
  localPlayerId : option string;
  localStatus : PlayerStatus;
  lastInputTime : Z
}.

Inductive Effect : Type :=
| ClientSend (msg : Protocol.BaseMessage)
| EmitPlayersUpdate (all : list PlayerState).

Definition status_eqb (a b : PlayerStatus) : bool :=
match a, b with
| active, active | idle, idle | away, away => true
| _, _ => false
end.

Definition status_name (s : PlayerStatus) : string :=
match s with
| active => "active"
| idle => "idle"
| away => "away"
end.

Definition PLAYER_STATUS_CHANGE : string := "player:status_change".

Definition with_status (s : PlayerStatus) (p : PlayerState) : PlayerState :=
{| id := id p; username := username p; position := position p;
   rotation := rotation p; avatar := avatar p; status := s; color := color p |}.

Definition getPlayers (m : t) : list PlayerState := JsMap.values (players m).

(** [updateLocalStatus]. *)
Definition updateLocalStatus (now : Z) (s : PlayerStatus) (m : t) : t * list Effect :=
let sent :=
  match localPlayerId m with
  | Some me =>
      if LoungeClient.state_eqb (LoungeClient.state (client m)) LoungeClient.connected
         && LoungeClient.nonempty me
      then
        flat_map (fun e => match e with
                           | LoungeClient.SocketSend msg => [ClientSend msg]
                           | _ => []
                           end)
          (snd (LoungeClient.send now PLAYER_STATUS_CHANGE
                  (JObject [("id", JString me); ("status", JString (status_name s))])
                  (client m)))
      else []
  | None => []
  end in
let players' :=
  match localPlayerId m with
  | Some me =>
      match JsMap.get me (players m) with
      | Some _ => JsMap.modify me (with_status s) (players m)
      | None => players m
      end
  | None => players m
  end in
let m' := {| client := client m; players := players';
             localPlayerId := localPlayerId m; localStatus := s;
             lastInputTime := lastInputTime m |} in
let emitted :=
  match localPlayerId m with
  | Some me =>
      match JsMap.get me (players m) with
      | Some _ => [EmitPlayersUpdate (getPlayers m')]
      | None => []
      end
  | None => []
  end in
(m', sent ++ emitted).

(** The status [checkIdleStatus] derives from the time since the last
    input. *)
Definition status_for (elapsed : Z) : PlayerStatus :=
if AWAY_TIMEOUT <=? elapsed then away
else if IDLE_TIMEOUT <=? elapsed then idle
else active.

Definition checkIdleStatus (now : Z) (m : t) : t * list Effect :=
let elapsed := now - lastInputTime m in
let newStatus := status_for elapsed in
if negb (status_eqb newStatus (localStatus m)) then updateLocalStatus now newStatus m
else (m, []).

Definition recordActivity (now : Z) (m : t) : t * list Effect :=
let m1 := {| client := client m; players := players m;
             localPlayerId := localPlayerId m; localStatus := localStatus m;
             lastInputTime := now |} in
if negb (status_eqb (localStatus m1) active) then updateLocalStatus now active m1
else (m1, []).

End PresenceManager.

(** ** Notions used by the statements *)

(** Snapshots [prev] and [next] bracket a render time. *)
Definition brackets (renderTime : Z) (prev next : RemotePlayer.PositionSnapshot) : Prop :=
RemotePlayer.s_timestamp prev <= renderTime /\ renderTime <= RemotePlayer.s_timestamp next.

(** No two adjacent snapshots of the buffer bracket the render time. *)
Definition no_bracket (renderTime : Z) (buf : list RemotePlayer.PositionSnapshot) : Prop :=
forall (i : nat) (prev next : RemotePlayer.PositionSnapshot),
  nth_error buf i = Some prev ->
  nth_error buf (S i) = Some next ->
  ~ brackets renderTime prev next.

(** Every value of a map is stored under the key [key_of] gives it. *)
Definition keyed {V : Type} (key_of : V -> string) (m : JsMap.t V) : Prop :=
Forall (fun kv => key_of (snd kv) = fst kv) m.

(** Sessions and player states correspond: the two maps have the same
    keys in the same order, no key twice, and every player state is stored
    under its own id. *)
Definition sessions_consistent (s : LoungeServer.t) : Prop :=
LoungeServer.session_ids s
  = JsMap.keys (PlayerRegistry.players (LoungeServer.playerRegistry s))
/\ NoDup (LoungeServer.session_ids s)
/\ keyed (fun p => player_id (PlayerRegistry.pub p))
         (PlayerRegistry.players (LoungeServer.playerRegistry s)).

(** [n] connection failures in a row. *)
Fixpoint failures (n : nat) (c : LoungeClient.t) : LoungeClient.t :=
match n with
| O => c
| S n' => fst (LoungeClient.handleConnectionFailure (failures n' c))
end.

(** The commands [handleCommand] knows. *)
Definition recognized_command (command : string) : bool :=
String.eqb command "me" || ChatManager.is_whisper_command command
|| String.eqb command "help".

Definition vec (a b c : Z) : Vector3 := mkVector3 (num_of_Z a) (num_of_Z b) (num_of_Z c).

(** A coordinate that is the finite number [q]. *)
Definition is_num (n : number) (q : Q) : Prop :=
exists p, n = Num p /\ p == q.

Definition NaN3 : Vector3 := mkVector3 NaN NaN NaN.

(** What a heartbeat sweep leaves of the connections [cs]: those that
    were alive, each marked as not alive until its next pong. *)
Definition swept (cs : JsMap.t LoungeServer.ClientConnection)
  : JsMap.t LoungeServer.ClientConnection :=
map (fun kc => (fst kc, LoungeServer.with_isAlive false (snd kc)))
    (filter (fun kc => LoungeServer.isAlive (snd kc)) cs).

(** A connection of the server [s] whose socket is open. *)
Definition open_client (s : LoungeServer.t) (c : LoungeServer.ClientConnection) : Prop :=
JsMap.get (LoungeServer.id c) (LoungeServer.clients s) = Some c
/\ LoungeServer.readyState c = LoungeServer.OPEN.

(** The remote player after the frame updates made at the wall-clock
    times [times], in this order. *)
Definition frames (times : list Z) (p : RemotePlayer.t) : RemotePlayer.t :=
fold_left (fun q now => RemotePlayer.update now q) times p.

(** *** Sample data *)

Definition sample_color (_ : string) : Z := 16711680.

Definition sample_player (i : string) (d : bool) : PlayerRegistry.ServerPlayerState :=
{| PlayerRegistry.pub := createDefaultPlayerState sample_color i ("Player_" ++ i)%string None;
   PlayerRegistry.lastUpdate := 1000;
   PlayerRegistry.dirty := d |}.

Definition sample_registry : PlayerRegistry.t :=
{| PlayerRegistry.players := [("a", sample_player "a" true); ("b", sample_player "b" false)];
   PlayerRegistry.tickInterval := true;
   PlayerRegistry.onBroadcast := true |}.

Definition sample_snapshot (p : Vector3) (ts : Z) : RemotePlayer.PositionSnapshot :=
{| RemotePlayer.s_position := p; RemotePlayer.s_rotation := zero3;
   RemotePlayer.s_timestamp := ts |}.

Definition sample_remote (buf : list RemotePlayer.PositionSnapshot) : RemotePlayer.t :=
{| RemotePlayer.rp_id := "r";
   RemotePlayer.state := createDefaultPlayerState sample_color "r" "Remote" None;
   RemotePlayer.positionBuffer := buf;
   RemotePlayer.targetPosition := vec 7 7 7;
   RemotePlayer.targetRotation := vec 1 1 1;
   RemotePlayer.meshPosition := vec 7 7 7;
   RemotePlayer.meshRotation := vec 1 1 1 |}.



Definition sample_client : LoungeClient.t :=
{| LoungeClient.config := LoungeClient.DEFAULT_CONFIG "ws://localhost:3000";
   LoungeClient.socket := true;
   LoungeClient.clientId := Some "abc123";
   LoungeClient.state := LoungeClient.connected;
   LoungeClient.reconnectAttempts := 0;
   LoungeClient.reconnectTimer := None;
   LoungeClient.heartbeatTimer := Some 25000;
   LoungeClient.heartbeatTimeoutTimer := None;
   LoungeClient.pingSeq := 0;
   LoungeClient.lastPongTime := 0 |}.

Definition sample_chat : ChatManager.t :=
{| ChatManager.client := sample_client; ChatManager.messages := [] |}.

Definition sample_connection (i u : string) (r : LoungeServer.ReadyState)
  : LoungeServer.ClientConnection :=
{| LoungeServer.id := i; LoungeServer.readyState := r; LoungeServer.isAlive := true;
   LoungeServer.connectedAt := 0; LoungeServer.lastPingSeq := 0;
   LoungeServer.username := u |}.

Definition sample_server : LoungeServer.t :=
fst (LoungeServer.step sample_color 20 "r2" (LoungeServer.Connection "bbbbbbbb" LoungeServer.OPEN)
  (fst (LoungeServer.step sample_color 10 "r1"
          (LoungeServer.Connection "aaaaaaaa" LoungeServer.OPEN) LoungeServer.initial))).

(** * Properties *)

(** ** Insertion-ordered maps *)

Section JsMapFacts.
Context {V : Type}.
Implicit Types (m : JsMap.t V) (k : string).

Lemma get_None_not_In k m : JsMap.get k m = None <-> ~ In k (JsMap.keys m).
Proof.
  induction m as [|[k' v] r IH]; simpl.
  - tauto.
  - destruct (String.eqb_spec k k') as [->|Hne].
    + split; [discriminate | intros H; exfalso; apply H; now left].
    + rewrite IH. split; intros H; [intros [E|I]; [congruence | tauto] | tauto].
Qed.

Lemma get_In k m v : JsMap.get k m = Some v -> In k (JsMap.keys m).
Proof.
  intros H. destruct (in_dec string_dec k (JsMap.keys m)) as [I|N]; [exact I|].
  apply get_None_not_In in N. congruence.
Qed.

Lemma keys_modify k (f : V -> V) m : JsMap.keys (JsMap.modify k f m) = JsMap.keys m.
Proof.
  unfold JsMap.keys, JsMap.modify. rewrite map_map. apply map_ext.
  intros [k' v]; simpl. now destruct (String.eqb k k').
Qed.

Lemma keys_set_In k v m :
  In k (JsMap.keys m) -> JsMap.keys (JsMap.set k v m) = JsMap.keys m.
Proof.
  induction m as [|[k' v'] r IH]; simpl; [tauto|].
  destruct (String.eqb_spec k k') as [->|Hne]; simpl; [reflexivity|].
  intros [E|I]; [congruence|]. now rewrite IH.
Qed.

Lemma keys_set_fresh k v m :
  ~ In k (JsMap.keys m) -> JsMap.keys (JsMap.set k v m) = JsMap.keys m ++ [k].
Proof.
  induction m as [|[k' v'] r IH]; simpl; [reflexivity|].
  destruct (String.eqb_spec k k') as [->|Hne]; simpl; [tauto|].
  intros N. rewrite IH; [reflexivity | tauto].
Qed.

Lemma keys_delete k m :
  JsMap.keys (JsMap.delete k m) = filter (fun k' => negb (String.eqb k k')) (JsMap.keys m).
Proof.
  induction m as [|[k' v'] r IH]; simpl; [reflexivity|].
  destruct (String.eqb k k'); simpl; now rewrite IH.
Qed.

Lemma delete_absent k m : JsMap.get k m = None -> JsMap.delete k m = m.
Proof.
  induction m as [|[k' v'] r IH]; simpl; [reflexivity|].
  destruct (String.eqb k k'); [discriminate|]. intros H. now rewrite IH.
Qed.

Lemma get_modify k k' (f : V -> V) m :
  JsMap.get k' (JsMap.modify k f m)
  = if String.eqb k k' then option_map f (JsMap.get k' m) else JsMap.get k' m.
Proof.
  induction m as [|[k0 v0] r IH]; simpl.
  - now destruct (String.eqb k k').
  - destruct (String.eqb_spec k k0) as [->|Hne]; simpl.
    + destruct (String.eqb_spec k' k0) as [->|Hne'].
      * now rewrite String.eqb_refl.
      * rewrite IH. reflexivity.
    + destruct (String.eqb_spec k' k0) as [->|Hne'].
      * destruct (String.eqb_spec k k0); [congruence | reflexivity].
      * apply IH.
Qed.

End JsMapFacts.

(** ** The registry tick *)

Lemma tick_loop_spec (entries : JsMap.t PlayerRegistry.ServerPlayerState)
  (acc : list PlayerPositionUpdate) :
  PlayerRegistry.tick_loop entries acc
  = (map (fun kv => (fst kv, PlayerRegistry.with_dirty false (snd kv))) entries,
     acc ++ map PlayerRegistry.update_of
              (filter PlayerRegistry.dirty (JsMap.values entries))).
Proof.
  revert acc. induction entries as [|[k player] rest IH]; intros acc; simpl.
  - now rewrite app_nil_r.
  - destruct (PlayerRegistry.dirty player) eqn:Hd; rewrite IH; simpl.
    + now rewrite <- app_assoc.
    + f_equal. f_equal. f_equal. destruct player; simpl in *. now subst.
Qed.

Lemma get_map_values {A B : Type} (f : A -> B) (k : string) (m : JsMap.t A) :
  JsMap.get k (map (fun kv => (fst kv, f (snd kv))) m) = option_map f (JsMap.get k m).
Proof.
  induction m as [|[k' v] r IH]; simpl; [reflexivity|].
  now destruct (String.eqb k k').
Qed.

(** C1.  A tick of a started registry (the timer that runs [tick] exists
    only while a callback is installed) with at least one player: the
    callback is called exactly when some player is dirty, and then with one
    update [{id, position, rotation, timestamp}] for each dirty player, in
    map order, holding that player's id, position and rotation and its
    [lastUpdate] as timestamp, and with the clock of the tick; clean
    players contribute nothing.  Afterwards every player is clean and is
    otherwise as before. *)
Theorem tick_broadcasts_dirty_players :
  forall (now : Z) (r : PlayerRegistry.t),
    PlayerRegistry.onBroadcast r = true ->
    JsMap.size (PlayerRegistry.players r) <> 0%nat ->
    let dirty_players :=
      filter PlayerRegistry.dirty (JsMap.values (PlayerRegistry.players r)) in
    let dirty_updates :=
      map (fun player =>
             {| u_id := id (PlayerRegistry.pub player);
                u_position := position (PlayerRegistry.pub player);
                u_rotation := rotation (PlayerRegistry.pub player);
                u_timestamp := PlayerRegistry.lastUpdate player |})
          dirty_players in
    let after := fst (PlayerRegistry.tick now r) in
    snd (PlayerRegistry.tick now r)
      = match dirty_players with
        | [] => None
        | _ :: _ => Some (dirty_updates, now)
        end
    /\ List.length dirty_updates = List.length dirty_players
    /\ PlayerRegistry.players after
       = map (fun kv => (fst kv, PlayerRegistry.with_dirty false (snd kv)))
             (PlayerRegistry.players r)
    /\ (forall k p, JsMap.get k (PlayerRegistry.players after) = Some p ->
                    PlayerRegistry.dirty p = false)
    /\ (forall k p, JsMap.get k (PlayerRegistry.players r) = Some p ->
                    JsMap.get k (PlayerRegistry.players after)
                    = Some (PlayerRegistry.with_dirty false p)).
Proof.
  intros now r Hcb Hsize dirty_players dirty_updates after.
  assert (Htick : PlayerRegistry.tick now r
    = (PlayerRegistry.with_players
         (map (fun kv => (fst kv, PlayerRegistry.with_dirty false (snd kv)))
              (PlayerRegistry.players r)) r,
       match dirty_players with [] => None | _ :: _ => Some (dirty_updates, now) end)).
  { unfold PlayerRegistry.tick. rewrite Hcb. simpl negb. simpl orb.
    destruct (Nat.eqb_spec (JsMap.size (PlayerRegistry.players r)) 0) as [E|_];
      [contradiction|].
    rewrite tick_loop_spec. simpl app. fold dirty_players.
    change (map PlayerRegistry.update_of dirty_players) with dirty_updates.
    subst dirty_updates. destruct dirty_players; reflexivity. }
  subst after. rewrite Htick. simpl fst. simpl snd.
  split; [reflexivity|]. split; [apply length_map|]. split; [reflexivity|].
  simpl PlayerRegistry.players. split.
  - intros k p H. rewrite get_map_values in H.
    destruct (JsMap.get k (PlayerRegistry.players r)); simpl in H; [|discriminate].
    injection H as <-. reflexivity.
  - intros k p H. rewrite get_map_values, H. reflexivity.
Qed.

Lemma tick_broadcasts_dirty_players_witness :
  snd (PlayerRegistry.tick 1234 sample_registry)
  = Some ([ {| u_id := "a"; u_position := zero3; u_rotation := zero3;
               u_timestamp := 1000 |} ], 1234).
Proof.
  exact (proj1 (tick_broadcasts_dirty_players 1234 sample_registry
                  eq_refl (fun H => O_S _ (eq_sym H)))).
Defined.

(** ** Interpolation of a remote player *)

(** C2.  With snapshots at timestamp 0, position (0,0,0), and at
    timestamp 100, position (10,0,0), in the buffer (whatever the
    rotations, the previous targets and the rendered transform), the frame
    update at wall-clock time 100 (render time 0) sets the target position
    to (0,0,0), and the one at wall-clock time 150 (render time 50) sets it
    to (5,0,0); the latter also when it follows the former. *)
Theorem update_interpolates_midpoint :
  forall (i : string) (st : PlayerState) (r0 r1 : Vector3)
         (tp tr mp mr : Vector3),
    let buffer :=
      [ RemotePlayer.mkSnapshot (vec 0 0 0) r0 0;
        RemotePlayer.mkSnapshot (vec 10 0 0) r1 100 ] in
    let p := RemotePlayer.mkRemotePlayer i st buffer tp tr mp mr in
    RemotePlayer.INTERPOLATION_DELAY = 100
    /\ RemotePlayer.targetPosition (RemotePlayer.update 100 p) = vec 0 0 0
    /\ RemotePlayer.targetPosition (RemotePlayer.update 150 p) = vec 5 0 0
    /\ RemotePlayer.targetPosition (RemotePlayer.update 150 (RemotePlayer.update 100 p))
       = vec 5 0 0.
Proof.
  intros. repeat split; reflexivity.
Qed.

Lemma find_bracket_None (renderTime : Z) (buf : list RemotePlayer.PositionSnapshot) :
  no_bracket renderTime buf -> RemotePlayer.find_bracket renderTime buf = None.
Proof.
  induction buf as [|prev rest IH]; intros H; [reflexivity|].
  destruct rest as [|next rest']; [reflexivity|].
  cbn [RemotePlayer.find_bracket].
  destruct (RemotePlayer.s_timestamp prev <=? renderTime) eqn:E1;
    destruct (renderTime <=? RemotePlayer.s_timestamp next) eqn:E2; simpl;
    try (apply IH; intros j a b Ha Hb; exact (H (S j) a b Ha Hb)).
  exfalso. apply (H 0%nat prev next eq_refl eq_refl). split; lia.
Qed.

Lemma find_bracket_Some (renderTime : Z) (buf : list RemotePlayer.PositionSnapshot)
      (prev next : RemotePlayer.PositionSnapshot) :
  RemotePlayer.find_bracket renderTime buf = Some (prev, next) ->
  exists i, nth_error buf i = Some prev /\ nth_error buf (S i) = Some next
            /\ brackets renderTime prev next.
Proof.
  induction buf as [|a rest IH]; [discriminate|].
  destruct rest as [|b rest']; [discriminate|].
  cbn [RemotePlayer.find_bracket].
  destruct (RemotePlayer.s_timestamp a <=? renderTime) eqn:E1;
    destruct (renderTime <=? RemotePlayer.s_timestamp b) eqn:E2; simpl;
    try (intros H; destruct (IH H) as (j & Ha & Hb & Hbr); exists (S j);
         split; [exact Ha | split; [exact Hb | exact Hbr]]).
  intros H. injection H as <- <-. exists 0%nat.
  split; [reflexivity | split; [reflexivity | split; lia]].
Qed.

(** C3, as amended.  When the buffer holds at least two snapshots and no
    adjacent pair brackets the render time, and when the buffer is empty,
    the frame update leaves both targets as they were; when the buffer
    holds exactly one snapshot, the update sets both targets to that
    snapshot, whatever the render time. *)
Theorem update_keeps_target_without_bracket :
  forall (now : Z) (p : RemotePlayer.t),
    (((2 <= List.length (RemotePlayer.positionBuffer p))%nat
      /\ no_bracket (now - RemotePlayer.INTERPOLATION_DELAY) (RemotePlayer.positionBuffer p))
     \/ RemotePlayer.positionBuffer p = [] ->
     RemotePlayer.targetPosition (RemotePlayer.update now p) = RemotePlayer.targetPosition p
     /\ RemotePlayer.targetRotation (RemotePlayer.update now p)
        = RemotePlayer.targetRotation p)
    /\ (forall snapshot : RemotePlayer.PositionSnapshot,
          RemotePlayer.positionBuffer p = [snapshot] ->
          RemotePlayer.targetPosition (RemotePlayer.update now p)
          = RemotePlayer.s_position snapshot
          /\ RemotePlayer.targetRotation (RemotePlayer.update now p)
             = RemotePlayer.s_rotation snapshot).
Proof.
  intros now p. split.
  - intros H. unfold RemotePlayer.update, RemotePlayer.retarget.
    destruct H as [[Hlen Hno] | Hempty].
    + destruct (Nat.leb_spec 2 (List.length (RemotePlayer.positionBuffer p))); [|lia].
      rewrite (find_bracket_None _ _ Hno). split; reflexivity.
    + rewrite Hempty. split; reflexivity.
  - intros snapshot Hone. unfold RemotePlayer.update, RemotePlayer.retarget.
    rewrite Hone. split; reflexivity.
Qed.

Lemma update_keeps_target_without_bracket_witness :
  RemotePlayer.targetPosition
    (RemotePlayer.update 300
       (sample_remote [sample_snapshot (vec 0 0 0) 0; sample_snapshot (vec 3 0 0) 50]))
  = vec 7 7 7
  /\ RemotePlayer.targetPosition
       (RemotePlayer.update 300 (sample_remote [sample_snapshot (vec 3 0 0) 50]))
     = vec 3 0 0.
Proof.
  split.
  - refine (proj1 (proj1 (update_keeps_target_without_bracket 300
             (sample_remote [sample_snapshot (vec 0 0 0) 0; sample_snapshot (vec 3 0 0) 50]))
             (or_introl (conj (le_n 2) _)))).
    intros i prev next Hp Hn [H1 H2].
    destruct i as [|[|i]]; simpl in Hp, Hn.
    + injection Hn as <-. simpl in H2. vm_compute in H2. apply H2. reflexivity.
    + discriminate.
    + destruct i; discriminate.
  - exact (proj1 (proj2 (update_keeps_target_without_bracket 300
                           (sample_remote [sample_snapshot (vec 3 0 0) 50]))
                    (sample_snapshot (vec 3 0 0) 50) eq_refl)).
Defined.

(** C3 as stated fails on a buffer of one snapshot: no adjacent pair
    brackets the render time (there is no pair), and the update moves the
    target to the snapshot. *)
Lemma single_snapshot_moves_target :
  no_bracket (300 - RemotePlayer.INTERPOLATION_DELAY) [sample_snapshot (vec 3 0 0) 50]
  /\ RemotePlayer.targetPosition
       (RemotePlayer.update 300 (sample_remote [sample_snapshot (vec 3 0 0) 50]))
     = vec 3 0 0
  /\ RemotePlayer.targetPosition
       (RemotePlayer.update 300 (sample_remote [sample_snapshot (vec 3 0 0) 50]))
     <> RemotePlayer.targetPosition (sample_remote [sample_snapshot (vec 3 0 0) 50]).
Proof.
  split; [|split].
  - intros i prev next Hp Hn. destruct i as [|i]; simpl in Hn; [discriminate|].
    destruct i; discriminate.
  - reflexivity.
  - vm_compute. discriminate.
Qed.

(** ** The JSON fragment: what is written is read back *)


















Lemma substring_all (s : string) : String.substring 0 (String.length s) s = s.
Proof. induction s as [|c s IH]; simpl; [reflexivity | now rewrite IH]. Qed.



























(** ** Wire protocol *)


(** The guards of the check keep every property read defined: the check
    itself never throws. *)
Lemma envelope_check_normal (v : jsval) :
  exists b, Protocol.envelope_check v = Normal b.
Proof.
  unfold Protocol.envelope_check.
  destruct v; simpl; try (eexists; reflexivity).
  unfold and_then, bind.
  repeat match goal with
         | |- context [if ?c then _ else _] => destruct c
         end; eexists; reflexivity.
Qed.

Lemma typeof_string (v : jsval) :
  String.eqb (typeof v) "string" = true -> exists s, v = JString s.
Proof. destruct v; simpl; try discriminate. eauto. Qed.

Lemma typeof_number (v : jsval) :
  String.eqb (typeof v) "number" = true -> exists n, v = JNumber n.
Proof. destruct v; simpl; try discriminate. eauto. Qed.

Lemma envelope_check_true (v : jsval) :
  Protocol.envelope_check v = Normal true -> Protocol.has_required_fields v.
Proof.
  unfold Protocol.envelope_check.
  destruct v as [| | | | |items|props]; simpl; try discriminate.
  unfold and_then, bind.
  destruct (own "type" props) as [ty|] eqn:Hty; simpl; [|discriminate].
  destruct (String.eqb (typeof ty) "string") eqn:Ety; [|discriminate].
  destruct (own "payload" props) as [pl|] eqn:Hpl; [|discriminate].
  destruct (own "timestamp" props) as [ts|] eqn:Hts; simpl; [|discriminate].
  destruct (String.eqb (typeof ts) "number") eqn:Ets; [|discriminate].
  destruct (own "senderId" props) as [sid|] eqn:Hsid; simpl; [|discriminate].
  destruct (String.eqb (typeof sid) "string") eqn:Esid; [|discriminate].
  intros _.
  destruct (typeof_string _ Ety) as [a ->].
  destruct (typeof_number _ Ets) as [n ->].
  destruct (typeof_string _ Esid) as [b ->].
  exists props, a, pl, n, b. repeat split; assumption.
Qed.

Lemma envelope_check_complete (v : jsval) :
  Protocol.has_required_fields v -> Protocol.envelope_check v = Normal true.
Proof.
  intros (props & ty & pl & ts & sid & -> & Hty & Hpl & Hts & Hsid).
  unfold Protocol.envelope_check. simpl. unfold and_then, bind.
  rewrite Hty, Hpl, Hts, Hsid. reflexivity.
Qed.

(** [parseMessage] completes normally on every input, whatever the JSON
    runtime does. *)
Lemma parseMessage_never_throws (JSON_parse : string -> completion jsval) (data : string) :
  exists r, Protocol.parseMessage JSON_parse data = Normal r.
Proof.
  unfold Protocol.parseMessage.
  destruct (JSON_parse data) as [v|e]; cbv beta iota delta [bind try_catch];
    [|eexists; reflexivity].
  destruct (envelope_check_normal v) as [b ->].
  destruct b; eexists; reflexivity.
Qed.









(** C5.  On text that is not JSON ([JSON.parse] throws), and on text
    whose parsed value lacks one of the four required fields,
    [parseMessage] returns [null]; it completes normally, no exception
    leaves it. *)
Theorem parseMessage_rejects_invalid :
  forall (JSON_parse : string -> completion jsval) (data : string),
    (exists e, JSON_parse data = Throw e)
    \/ (exists v, JSON_parse data = Normal v /\ ~ Protocol.has_required_fields v) ->
    Protocol.parseMessage JSON_parse data = Normal None.
Proof.
  intros parse data [[e He] | (v & Hv & Hmiss)]; unfold Protocol.parseMessage.
  - rewrite He. reflexivity.
  - rewrite Hv. cbv beta iota delta [bind try_catch].
    destruct (envelope_check_normal v) as [b Hb]. rewrite Hb.
    destruct b; [|reflexivity].
    exfalso. apply Hmiss. now apply envelope_check_true.
Qed.

Lemma parseMessage_rejects_invalid_witness :
  Protocol.parseMessage Json.parse "{oops" = Normal None
  /\ Protocol.parseMessage Json.parse
       (String.concat dquote
          ["{"; "type"; ":"; "chat:send"; ","; "payload"; ":{},"; "senderId"; ":"; "abc123"; "}"])
     = Normal None.
Proof.
  split.
  - apply (parseMessage_rejects_invalid Json.parse). left. exists SyntaxError.
    vm_compute. reflexivity.
  - apply (parseMessage_rejects_invalid Json.parse). right.
    eexists. split; [vm_compute; reflexivity|].
    intros (props & ty & pl & ts & sid & Hv & _ & _ & Hts & _).
    injection Hv as <-. vm_compute in Hts. discriminate.
Defined.

(** ** Reconnection back-off *)

Lemma setState_fields (st : LoungeClient.ConnectionState) (c : LoungeClient.t) :
  LoungeClient.config (fst (LoungeClient.setState st c)) = LoungeClient.config c
  /\ LoungeClient.reconnectAttempts (fst (LoungeClient.setState st c))
     = LoungeClient.reconnectAttempts c
  /\ LoungeClient.reconnectTimer (fst (LoungeClient.setState st c))
     = LoungeClient.reconnectTimer c.
Proof.
  unfold LoungeClient.setState.
  destruct (LoungeClient.state_eqb (LoungeClient.state c) st); simpl; auto.
Qed.

(** One failure below the limit: the counter goes up by one and the timer
    is armed with [reconnectInterval * min (counter, 5)]. *)
Lemma handleConnectionFailure_below_max (c : LoungeClient.t) :
  LoungeClient.reconnectAttempts c < LoungeClient.maxReconnectAttempts (LoungeClient.config c) ->
  let delay := LoungeClient.reconnectInterval (LoungeClient.config c)
               * Z.min (LoungeClient.reconnectAttempts c + 1) 5 in
  let after := fst (LoungeClient.handleConnectionFailure c) in
  LoungeClient.config after = LoungeClient.config c
  /\ LoungeClient.reconnectAttempts after = LoungeClient.reconnectAttempts c + 1
  /\ LoungeClient.reconnectTimer after = Some delay
  /\ In (LoungeClient.SetReconnectTimeout delay)
        (snd (LoungeClient.handleConnectionFailure c)).
Proof.
  intros Hlt delay after. subst after delay.
  unfold LoungeClient.handleConnectionFailure. cbn [LoungeClient.with_clientId
    LoungeClient.with_socket LoungeClient.config LoungeClient.reconnectAttempts].
  destruct (Z.leb_spec (LoungeClient.maxReconnectAttempts (LoungeClient.config c))
                       (LoungeClient.reconnectAttempts c)) as [Hge|_]; [lia|].
  match goal with
  | |- context [LoungeClient.setState ?st ?x] =>
      pose proof (setState_fields st x) as (Hc & _ & _);
      destruct (LoungeClient.setState st x) as [c2 notified] eqn:E
  end.
  simpl in *. repeat split; try assumption; try reflexivity.
  apply in_or_app. right. now left.
Qed.

(** After [handleConnectionFailure] reached the limit nothing is
    scheduled and the counter stays. *)
Lemma handleConnectionFailure_at_max (c : LoungeClient.t) :
  LoungeClient.maxReconnectAttempts (LoungeClient.config c) <= LoungeClient.reconnectAttempts c ->
  LoungeClient.reconnectAttempts (fst (LoungeClient.handleConnectionFailure c))
  = LoungeClient.reconnectAttempts c
  /\ LoungeClient.state (fst (LoungeClient.handleConnectionFailure c))
     = LoungeClient.disconnected.
Proof.
  intros Hge. unfold LoungeClient.handleConnectionFailure.
  cbn [LoungeClient.with_clientId LoungeClient.with_socket LoungeClient.config
         LoungeClient.reconnectAttempts].
  destruct (Z.leb_spec (LoungeClient.maxReconnectAttempts (LoungeClient.config c))
                       (LoungeClient.reconnectAttempts c)) as [_|Hlt]; [|lia].
  unfold LoungeClient.setState. cbn [LoungeClient.state LoungeClient.with_clientId
    LoungeClient.with_socket].
  destruct (LoungeClient.state c) eqn:E; simpl; rewrite ?E; auto.
Qed.

Lemma failures_counter (n : nat) (c : LoungeClient.t) :
  LoungeClient.reconnectAttempts c = 0 ->
  Z.of_nat n <= LoungeClient.maxReconnectAttempts (LoungeClient.config c) ->
  LoungeClient.config (failures n c) = LoungeClient.config c
  /\ LoungeClient.reconnectAttempts (failures n c) = Z.of_nat n.
Proof.
  intros H0. induction n as [|n IH]; intros Hle.
  - simpl. auto.
  - destruct IH as [Hc Ha]; [lia|].
    cbn [failures].
    destruct (handleConnectionFailure_below_max (failures n c)) as (Hc' & Ha' & _).
    + rewrite Hc, Ha. lia.
    + rewrite Hc', Ha', Hc, Ha. split; [reflexivity | lia].
Qed.

(** C6.  Counting the connection failures since the last successful socket
    open ([onopen] resets the counter to 0, every failure below the limit
    increments it), the [a]-th failure, for [1 <= a <= maxReconnectAttempts],
    schedules the reconnect after [reconnectInterval * min (a, 5)]: that is
    [reconnectInterval * a] up to [a = 5] and [reconnectInterval * 5]
    beyond. *)
Theorem reconnect_delay_backoff :
  forall (c : LoungeClient.t) (n : nat),
    let a := Z.of_nat (S n) in
    let base := LoungeClient.reconnectInterval (LoungeClient.config c) in
    1 <= a <= LoungeClient.maxReconnectAttempts (LoungeClient.config c) ->
    let before := failures n (LoungeClient.onopen c) in
    let after := fst (LoungeClient.handleConnectionFailure before) in
    LoungeClient.reconnectAttempts (LoungeClient.onopen c) = 0
    /\ LoungeClient.reconnectAttempts before = a - 1
    /\ LoungeClient.reconnectAttempts after = a
    /\ LoungeClient.reconnectTimer after = Some (base * Z.min a 5)
    /\ In (LoungeClient.SetReconnectTimeout (base * Z.min a 5))
          (snd (LoungeClient.handleConnectionFailure before))
    /\ (a <= 5 -> base * Z.min a 5 = base * a)
    /\ (5 < a -> base * Z.min a 5 = base * 5)
    /\ LoungeClient.reconnectAttempts (LoungeClient.onopen after) = 0.
Proof.
  intros c n a base Ha before after.
  destruct (failures_counter n (LoungeClient.onopen c)) as [Hc Hn];
    [reflexivity | simpl LoungeClient.config; lia |].
  fold before in Hc, Hn. simpl LoungeClient.config in Hc.
  destruct (handleConnectionFailure_below_max before) as (Hc' & Ha' & Ht & Hin).
  { rewrite Hc, Hn. lia. }
  fold after in Hc', Ha', Ht.
  rewrite Hc, Hn in *. replace (Z.of_nat n + 1) with a in * by lia.
  repeat split; try assumption; try lia.
  intros H. now rewrite Z.min_l by lia.
Qed.

Lemma reconnect_delay_backoff_witness :
  LoungeClient.reconnectTimer
    (fst (LoungeClient.handleConnectionFailure (failures 6 (LoungeClient.onopen sample_client))))
  = Some 10000.
Proof.
  refine (proj1 (proj2 (proj2 (proj2
           (reconnect_delay_backoff sample_client 6 (conj _ _)))))).
  - vm_compute. discriminate.
  - vm_compute. discriminate.
Defined.

(** ** Whisper routing *)

Lemma find_by_name_None (targetName : string) (cs : list LoungeServer.ClientConnection) :
  (forall c, In c cs ->
     toLowerCase (LoungeServer.username c) <> toLowerCase targetName) ->
  LoungeServer.find_by_name targetName cs = None.
Proof.
  induction cs as [|c rest IH]; intros H; simpl; [reflexivity|].
  destruct (String.eqb_spec (toLowerCase (LoungeServer.username c)) (toLowerCase targetName))
    as [E|_].
  - exfalso. apply (H c); [now left | exact E].
  - apply IH. intros c' Hin. apply H. now right.
Qed.

(** A whisper whose id names no session and whose name matches no username
    resolves to no client. *)
Lemma find_target_no_match (targetId targetName : option string) (s : LoungeServer.t) :
  (forall tid, targetId = Some tid -> JsMap.get tid (LoungeServer.clients s) = None) ->
  (forall tn c, targetName = Some tn ->
     In c (JsMap.values (LoungeServer.clients s)) ->
     toLowerCase (LoungeServer.username c) <> toLowerCase tn) ->
  LoungeServer.find_target targetId targetName s = None.
Proof.
  intros Hid Hname. unfold LoungeServer.find_target.
  destruct targetId as [tid|]; simpl.
  - destruct (LoungeClient.nonempty tid); [now apply Hid|].
    destruct targetName as [tn|]; simpl; [|reflexivity].
    destruct (LoungeClient.nonempty tn); [|reflexivity].
    apply find_by_name_None. intros c Hin. now apply Hname.
  - destruct targetName as [tn|]; simpl; [|reflexivity].
    destruct (LoungeClient.nonempty tn); [|reflexivity].
    apply find_by_name_None. intros c Hin. now apply Hname.
Qed.

(** C7.  A whisper, received from a client whose socket is open, whose
    target resolves to no connected client: the server's only send is one
    [chat:error] envelope with code [PLAYER_NOT_FOUND] to the sender;
    nothing goes to any other client and the server state is unchanged. *)
Theorem whisper_to_unknown_target :
  forall (now : Z) (rnd : string) (client : LoungeServer.ClientConnection)
         (msg : Message) (targetId targetName : option string) (content : string)
         (s : LoungeServer.t),
    body msg = ChatWhisper targetId targetName content ->
    LoungeServer.find_target targetId targetName s = None ->
    LoungeServer.readyState client = LoungeServer.OPEN ->
    let reply :=
      createMessage now
        (ChatError "PLAYER_NOT_FOUND"
           (SystemMessages.playerNotFound (LoungeServer.shown_target targetId targetName)))
        "server" in
    LoungeServer.handleChatMessage now rnd client msg s
      = [LoungeServer.Send (LoungeServer.id client) reply]
    /\ LoungeServer.handleMessage now rnd client (Some msg) s
       = (s, [LoungeServer.Send (LoungeServer.id client) reply])
    /\ type_of (body reply) = CHAT_ERROR.
Proof.
  intros now rnd client msg targetId targetName content s Hbody Hnone Hopen reply.
  assert (Hchat : LoungeServer.handleChatMessage now rnd client msg s
                  = [LoungeServer.Send (LoungeServer.id client) reply]).
  { unfold LoungeServer.handleChatMessage. rewrite Hbody, Hnone.
    unfold LoungeServer.sendTo. rewrite Hopen. reflexivity. }
  split; [exact Hchat|]. split; [|reflexivity].
  unfold LoungeServer.handleMessage. rewrite Hbody.
  unfold isPlayerMessage, isChatMessage. rewrite Hbody. simpl.
  now rewrite Hchat.
Qed.

Lemma whisper_to_unknown_target_witness :
  LoungeServer.handleChatMessage 30 "r3"
    (sample_connection "aaaaaaaa" "Player_aaaaaa" LoungeServer.OPEN)
    (createMessage 29 (ChatWhisper None (Some "nobody") "psst") "aaaaaaaa")
    sample_server
  = [LoungeServer.Send "aaaaaaaa"
       (createMessage 30
          (ChatError "PLAYER_NOT_FOUND"
             (String.concat dquote ["Player "; "nobody"; " not found"]))
          "server")].
Proof.
  exact (proj1 (whisper_to_unknown_target 30 "r3"
                  (sample_connection "aaaaaaaa" "Player_aaaaaa" LoungeServer.OPEN)
                  (createMessage 29 (ChatWhisper None (Some "nobody") "psst") "aaaaaaaa")
                  None (Some "nobody") "psst" sample_server
                  eq_refl eq_refl eq_refl)).
Defined.

(** ** Chat commands *)

Lemma client_send_connected (now : Z) (ty : string) (pl : jsval) (m : ChatManager.t)
      (cid : string) :
  LoungeClient.state (ChatManager.client m) = LoungeClient.connected ->
  LoungeClient.socket (ChatManager.client m) = true ->
  LoungeClient.clientId (ChatManager.client m) = Some cid ->
  LoungeClient.nonempty cid = true ->
  ChatManager.client_send now ty pl m
  = (true, [ChatManager.ClientSend (Protocol.createMessage now ty pl cid)]).
Proof.
  intros Hst Hsock Hid Hne. unfold ChatManager.client_send, LoungeClient.send.
  rewrite Hid, Hst, Hsock, Hne. reflexivity.
Qed.

(** C8.  [handleCommand] splits the text after the slash on white space.
    On [/w bob hello there] the command is [w], and it sends a whisper with
    target [bob] and content [hello there]; when the client is connected
    that is one [chat:whisper] message with exactly these fields, and the
    result is handled.  On [/w bob] the result is unhandled with the usage
    text and nothing is sent.  On every input of ASCII characters whose
    command word is not recognised the result is unhandled with the text
    "Unknown command" followed by the command, and nothing is sent. *)
Theorem chat_command_parsing :
  forall (now : Z) (m : ChatManager.t),
    ChatManager.command_of "/w bob hello there" = "w"
    /\ ChatManager.args_of "/w bob hello there" = ["bob"; "hello"; "there"]
    /\ ChatManager.handleCommand now "/w bob hello there" m
       = (let (res, effects) := ChatManager.sendWhisper now "bob" "hello there" m in
          (res, m, effects))
    /\ (forall cid,
          LoungeClient.state (ChatManager.client m) = LoungeClient.connected ->
          LoungeClient.socket (ChatManager.client m) = true ->
          LoungeClient.clientId (ChatManager.client m) = Some cid ->
          LoungeClient.nonempty cid = true ->
          ChatManager.handleCommand now "/w bob hello there" m
          = ({| ChatManager.handled := true; ChatManager.error := None |}, m,
             [ChatManager.ClientSend
                (Protocol.createMessage now CHAT_WHISPER
                   (JObject [("targetName", JString "bob");
                             ("content", JString "hello there")]) cid)]))
    /\ ChatManager.handleCommand now "/w bob" m
       = ({| ChatManager.handled := false;
             ChatManager.error := Some "Usage: /w <player> <message>" |}, m, [])
    /\ (forall input,
          all_ascii input = true ->
          recognized_command (ChatManager.command_of input) = false ->
          ChatManager.handleCommand now input m
          = ({| ChatManager.handled := false;
                ChatManager.error :=
                  Some ("Unknown command: /" ++ ChatManager.command_of input)%string |},
             m, [])).
Proof.
  intros now m.
  split; [reflexivity|]. split; [reflexivity|]. split; [reflexivity|].
  split; [|split; [reflexivity|]].
  - intros cid Hst Hsock Hid Hne.
    change (ChatManager.handleCommand now "/w bob hello there" m)
      with (let (res, effects) := ChatManager.sendWhisper now "bob" "hello there" m in
            (res, m, effects)).
    unfold ChatManager.sendWhisper, ChatManager.is_connected.
    rewrite Hst. simpl LoungeClient.state_eqb. cbn [negb].
    change (trim "bob") with "bob". change (trim "hello there") with "hello there".
    cbn [LoungeClient.nonempty negb].
    rewrite (client_send_connected now _ _ m cid Hst Hsock Hid Hne). reflexivity.
  - intros input _ Hunk. unfold recognized_command in Hunk.
    apply orb_false_elim in Hunk as [Hunk Hhelp].
    apply orb_false_elim in Hunk as [Hme Hw].
    unfold ChatManager.handleCommand. rewrite Hme, Hw, Hhelp. reflexivity.
Qed.

Lemma chat_command_parsing_witness :
  ChatManager.handleCommand 5 "/w bob hello there" sample_chat
  = ({| ChatManager.handled := true; ChatManager.error := None |}, sample_chat,
     [ChatManager.ClientSend
        (Protocol.createMessage 5 CHAT_WHISPER
           (JObject [("targetName", JString "bob"); ("content", JString "hello there")])
           "abc123")])
  /\ ChatManager.handleCommand 5 "/dance now" sample_chat
     = ({| ChatManager.handled := false;
           ChatManager.error := Some "Unknown command: /dance" |}, sample_chat, []).
Proof.
  split.
  - exact (proj1 (proj2 (proj2 (proj2 (chat_command_parsing 5 sample_chat))))
             "abc123" eq_refl eq_refl eq_refl eq_refl).
  - exact (proj2 (proj2 (proj2 (proj2 (proj2 (chat_command_parsing 5 sample_chat)))))
             "/dance now" eq_refl eq_refl).
Defined.

(** ** Sessions and player states *)

Section KeyedFacts.
Context {V : Type}.
Variable key_of : V -> string.
Implicit Types (m : JsMap.t V) (k : string).

Lemma keyed_set k v m :
  key_of v = k -> keyed key_of m -> keyed key_of (JsMap.set k v m).
Proof.
  intros Hk. induction m as [|[k' v'] r IH]; intros H; simpl.
  - constructor; [exact Hk | constructor].
  - inversion_clear H as [|? ? Hhd Htl].
    destruct (String.eqb_spec k k') as [E|Hne].
    + constructor; [simpl; congruence | exact Htl].
    + constructor; [exact Hhd | exact (IH Htl)].
Qed.

Lemma keyed_delete k m : keyed key_of m -> keyed key_of (JsMap.delete k m).
Proof.
  induction m as [|[k' v'] r IH]; intros H; simpl; [constructor|].
  inversion_clear H as [|? ? Hhd Htl].
  destruct (String.eqb k k'); [exact (IH Htl) | constructor; [exact Hhd | exact (IH Htl)]].
Qed.

Lemma keyed_modify k (f : V -> V) m :
  (forall v, key_of (f v) = key_of v) ->
  keyed key_of m -> keyed key_of (JsMap.modify k f m).
Proof.
  intros Hf H. unfold JsMap.modify. induction H as [|[k' v'] r Hhd Htl IH]; simpl.
  - constructor.
  - constructor; [|exact IH]. simpl in *. destruct (String.eqb k k'); simpl; [|exact Hhd].
    now rewrite Hf.
Qed.

Lemma keyed_map (f : V -> V) m :
  (forall v, key_of (f v) = key_of v) ->
  keyed key_of m -> keyed key_of (map (fun kv => (fst kv, f (snd kv))) m).
Proof.
  intros Hf H. induction H as [|[k' v'] r Hhd Htl IH]; simpl; constructor; auto.
  simpl in *. now rewrite Hf.
Qed.

Lemma keyed_values_keys m :
  keyed key_of m -> map key_of (JsMap.values m) = JsMap.keys m.
Proof.
  intros H. unfold JsMap.values, JsMap.keys.
  induction H as [|[k' v'] r Hhd Htl IH]; simpl; [reflexivity|].
  simpl in Hhd. now rewrite Hhd, IH.
Qed.
End KeyedFacts.

Lemma keys_map_values {A B : Type} (f : A -> B) (m : JsMap.t A) :
  JsMap.keys (map (fun kv => (fst kv, f (snd kv))) m) = JsMap.keys m.
Proof. unfold JsMap.keys. rewrite map_map. reflexivity. Qed.

Lemma removePlayer_players (k : string) (r : PlayerRegistry.t) :
  PlayerRegistry.players (fst (PlayerRegistry.removePlayer k r))
  = JsMap.delete k (PlayerRegistry.players r).
Proof.
  unfold PlayerRegistry.removePlayer.
  destruct (JsMap.get k (PlayerRegistry.players r)) eqn:E; simpl; [reflexivity|].
  symmetry. now apply delete_absent.
Qed.

Lemma updatePosition_players (now : Z) (k : string) (pos rot : Vector3)
      (r : PlayerRegistry.t) :
  PlayerRegistry.players (fst (PlayerRegistry.updatePosition now k pos rot r))
  = PlayerRegistry.players r
  \/ PlayerRegistry.players (fst (PlayerRegistry.updatePosition now k pos rot r))
     = JsMap.modify k (PlayerRegistry.set_position pos rot now) (PlayerRegistry.players r).
Proof.
  unfold PlayerRegistry.updatePosition.
  destruct (JsMap.get k (PlayerRegistry.players r)); simpl; auto.
Qed.

Lemma updateStatus_players (now : Z) (k : string) (st : PlayerStatus)
      (r : PlayerRegistry.t) :
  PlayerRegistry.players (fst (PlayerRegistry.updateStatus now k st r))
  = PlayerRegistry.players r
  \/ PlayerRegistry.players (fst (PlayerRegistry.updateStatus now k st r))
     = JsMap.modify k (PlayerRegistry.set_status st now) (PlayerRegistry.players r).
Proof.
  unfold PlayerRegistry.updateStatus.
  destruct (JsMap.get k (PlayerRegistry.players r)); simpl; auto.
Qed.

Lemma tick_players (now : Z) (r : PlayerRegistry.t) :
  PlayerRegistry.players (fst (PlayerRegistry.tick now r)) = PlayerRegistry.players r
  \/ PlayerRegistry.players (fst (PlayerRegistry.tick now r))
     = map (fun kv => (fst kv, PlayerRegistry.with_dirty false (snd kv)))
           (PlayerRegistry.players r).
Proof.
  unfold PlayerRegistry.tick.
  destruct (negb (PlayerRegistry.onBroadcast r)
            || (JsMap.size (PlayerRegistry.players r) =? 0)%nat); simpl; [now left|].
  rewrite tick_loop_spec.
  destruct (0 <? _)%nat; simpl; now right.
Qed.

Lemma consistent_players (s : LoungeServer.t) (players' : JsMap.t PlayerRegistry.ServerPlayerState) :
  sessions_consistent s ->
  JsMap.keys players' = JsMap.keys (PlayerRegistry.players (LoungeServer.playerRegistry s)) ->
  keyed (fun p => player_id (PlayerRegistry.pub p)) players' ->
  forall r', PlayerRegistry.players r' = players' ->
  sessions_consistent (LoungeServer.with_registry r' s).
Proof.
  intros (Hk & Hnd & Hid) Hkeys Hkeyed r' Hr'.
  unfold sessions_consistent, LoungeServer.session_ids. simpl.
  rewrite Hr', Hkeys. repeat split; assumption.
Qed.

Lemma consistent_modify_clients (k : string)
      (f : LoungeServer.ClientConnection -> LoungeServer.ClientConnection)
      (s : LoungeServer.t) :
  sessions_consistent s ->
  sessions_consistent
    (LoungeServer.with_clients (JsMap.modify k f (LoungeServer.clients s)) s).
Proof.
  intros (Hk & Hnd & Hid).
  unfold sessions_consistent, LoungeServer.session_ids in *. simpl.
  rewrite keys_modify. repeat split; assumption.
Qed.

Lemma consistent_updatePosition (now : Z) (k : string) (pos rot : Vector3)
      (s : LoungeServer.t) :
  sessions_consistent s ->
  sessions_consistent
    (LoungeServer.with_registry
       (fst (PlayerRegistry.updatePosition now k pos rot (LoungeServer.playerRegistry s))) s).
Proof.
  intros H. pose proof H as (Hk & Hnd & Hid).
  destruct (updatePosition_players now k pos rot (LoungeServer.playerRegistry s)) as [E|E];
    eapply (consistent_players s _ H); try exact E.
  - reflexivity.
  - exact Hid.
  - apply keys_modify.
  - apply keyed_modify; [reflexivity | exact Hid].
Qed.

Lemma consistent_updateStatus (now : Z) (k : string) (st : PlayerStatus)
      (s : LoungeServer.t) :
  sessions_consistent s ->
  sessions_consistent
    (LoungeServer.with_registry
       (fst (PlayerRegistry.updateStatus now k st (LoungeServer.playerRegistry s))) s).
Proof.
  intros H. pose proof H as (Hk & Hnd & Hid).
  destruct (updateStatus_players now k st (LoungeServer.playerRegistry s)) as [E|E];
    eapply (consistent_players s _ H); try exact E.
  - reflexivity.
  - exact Hid.
  - apply keys_modify.
  - apply keyed_modify; [reflexivity | exact Hid].
Qed.

Lemma consistent_tick (now : Z) (s : LoungeServer.t) :
  sessions_consistent s ->
  sessions_consistent
    (LoungeServer.with_registry
       (fst (PlayerRegistry.tick now (LoungeServer.playerRegistry s))) s).
Proof.
  intros H. pose proof H as (Hk & Hnd & Hid).
  destruct (tick_players now (LoungeServer.playerRegistry s)) as [E|E];
    eapply (consistent_players s _ H); try exact E.
  - reflexivity.
  - exact Hid.
  - apply keys_map_values.
  - apply keyed_map; [reflexivity | exact Hid].
Qed.

(** Removing a session removes the client and its player state together. *)
Lemma consistent_remove_session (k : string) (s : LoungeServer.t) :
  sessions_consistent s -> sessions_consistent (LoungeServer.remove_session k s).
Proof.
  intros (Hk & Hnd & Hid).
  unfold sessions_consistent, LoungeServer.session_ids, LoungeServer.remove_session in *.
  simpl. rewrite removePlayer_players, !keys_delete, Hk. repeat split.
  - rewrite <- Hk. now apply NoDup_filter.
  - now apply keyed_delete.
Qed.

Lemma consistent_add_session (gpc : string -> Z) (now : Z) (k uname : string)
      (client : LoungeServer.ClientConnection) (s : LoungeServer.t) :
  sessions_consistent s ->
  sessions_consistent
    (LoungeServer.with_registry
       (fst (PlayerRegistry.addPlayer gpc now k uname
               (LoungeServer.playerRegistry
                  (LoungeServer.with_clients (JsMap.set k client (LoungeServer.clients s)) s))))
       (LoungeServer.with_clients (JsMap.set k client (LoungeServer.clients s)) s)).
Proof.
  intros (Hk & Hnd & Hid).
  unfold sessions_consistent, LoungeServer.session_ids in *. simpl.
  destruct (in_dec string_dec k (JsMap.keys (LoungeServer.clients s))) as [Hin|Hout].
  - rewrite !keys_set_In; [| now rewrite <- Hk | exact Hin].
    repeat split; [exact Hk | exact Hnd |]. now apply keyed_set.
  - rewrite !keys_set_fresh; [| now rewrite <- Hk | exact Hout].
    repeat split; [now rewrite Hk | | now apply keyed_set].
    apply NoDup_app; [exact Hnd | constructor; [tauto | constructor] |].
    intros a Ha [<-|[]]. contradiction.
Qed.

Lemma consistent_initial : sessions_consistent LoungeServer.initial.
Proof.
  unfold sessions_consistent, LoungeServer.session_ids. simpl.
  repeat split; constructor.
Qed.

Lemma consistent_heartbeat_loop (now : Z)
      (entries : list (string * LoungeServer.ClientConnection)) :
  forall s, sessions_consistent s ->
            sessions_consistent (fst (LoungeServer.heartbeat_loop now entries s)).
Proof.
  induction entries as [|[k client] rest IH]; intros s H; simpl; [exact H|].
  destruct (negb (LoungeServer.isAlive client)).
  - specialize (IH _ (consistent_remove_session k s H)).
    destruct (LoungeServer.heartbeat_loop now rest (LoungeServer.remove_session k s)).
    exact IH.
  - specialize (IH _ (consistent_modify_clients k (LoungeServer.with_isAlive false) s H)).
    destruct (LoungeServer.heartbeat_loop now rest _). exact IH.
Qed.

Lemma consistent_handlePlayerMessage (now : Z) (client : LoungeServer.ClientConnection)
      (msg : Message) (s : LoungeServer.t) :
  sessions_consistent s ->
  sessions_consistent (fst (LoungeServer.handlePlayerMessage now client msg s)).
Proof.
  intros H. unfold LoungeServer.handlePlayerMessage.
  destruct (body msg); simpl; try exact H.
  - now apply consistent_updatePosition.
  - now apply consistent_updateStatus.
Qed.

Lemma consistent_handleMessage (now : Z) (rnd : string)
      (client : LoungeServer.ClientConnection) (parsed : option Message)
      (s : LoungeServer.t) :
  sessions_consistent s ->
  sessions_consistent (fst (LoungeServer.handleMessage now rnd client parsed s)).
Proof.
  intros H. unfold LoungeServer.handleMessage.
  destruct parsed as [msg|]; [|exact H].
  assert (Hrest : sessions_consistent
            (fst (if isPlayerMessage msg
                  then LoungeServer.handlePlayerMessage now client msg s
                  else if isChatMessage msg
                       then (s, LoungeServer.handleChatMessage now rnd client msg s)
                       else (s, LoungeServer.broadcast msg
                                  (Some (LoungeServer.id client)) s)))).
  { destruct (isPlayerMessage msg); [now apply consistent_handlePlayerMessage|].
    destruct (isChatMessage msg); exact H. }
  destruct (body msg); try exact Hrest; simpl.
  - exact H.
  - now apply consistent_modify_clients.
Qed.

(** Every handler preserves the correspondence. *)
Lemma consistent_step (gpc : string -> Z) (now : Z) (rnd : string)
      (ev : LoungeServer.Event) (s : LoungeServer.t) :
  sessions_consistent s ->
  sessions_consistent (fst (LoungeServer.step gpc now rnd ev s)).
Proof.
  intros H. destruct ev; cbn [LoungeServer.step].
  - unfold LoungeServer.handleConnection. cbv zeta.
    cbn [LoungeServer.username].
    pose proof (consistent_add_session gpc now clientId
                  ("Player_" ++ String.substring 0 6 clientId)%string
                  {| LoungeServer.id := clientId;
                     LoungeServer.readyState := socketState;
                     LoungeServer.isAlive := true;
                     LoungeServer.connectedAt := now;
                     LoungeServer.lastPingSeq := 0;
                     LoungeServer.username :=
                       ("Player_" ++ String.substring 0 6 clientId)%string |} s H) as Hadd.
    destruct (PlayerRegistry.addPlayer gpc now clientId _ _) as [registry playerState].
    exact Hadd.
  - now apply consistent_handleMessage.
  - now apply consistent_remove_session.
  - now apply consistent_modify_clients.
  - now apply consistent_heartbeat_loop.
  - unfold LoungeServer.playerTick. cbn [fst].
    pose proof (consistent_tick now s H) as Ht.
    destruct (PlayerRegistry.tick now (LoungeServer.playerRegistry s)) as [registry call].
    destruct call as [[updates serverTime]|]; exact Ht.
  - now apply consistent_modify_clients.
Qed.

Lemma reachable_consistent (gpc : string -> Z) (s : LoungeServer.t) :
  LoungeServer.Reachable gpc s -> sessions_consistent s.
Proof.
  induction 1 as [|now rnd ev s Hreach IH].
  - exact consistent_initial.
  - now apply consistent_step.
Qed.

Lemma consistent_ids (s : LoungeServer.t) :
  sessions_consistent s -> LoungeServer.session_ids s = LoungeServer.player_ids s.
Proof.
  intros (Hk & _ & Hid). unfold LoungeServer.player_ids.
  rewrite (keyed_values_keys (fun p => player_id (PlayerRegistry.pub p)) _ Hid).
  exact Hk.
Qed.

(** C9.  In every state the server reaches between two handler runs (after
    the constructor, and after each connection, message, close, pong,
    heartbeat sweep, tick or socket state change), the session ids of the
    clients map are exactly the player ids of the registry, each once; and a
    handler removes a session id exactly when it removes that player. *)
Theorem sessions_match_players :
  forall (generatePlayerColor : string -> Z) (s : LoungeServer.t),
    LoungeServer.Reachable generatePlayerColor s ->
    LoungeServer.session_ids s = LoungeServer.player_ids s
    /\ NoDup (LoungeServer.session_ids s)
    /\ (forall k, In k (LoungeServer.session_ids s) <-> In k (LoungeServer.player_ids s))
    /\ (forall now rnd ev k,
          let s' := fst (LoungeServer.step generatePlayerColor now rnd ev s) in
          (In k (LoungeServer.session_ids s) /\ ~ In k (LoungeServer.session_ids s'))
          <-> (In k (LoungeServer.player_ids s) /\ ~ In k (LoungeServer.player_ids s'))).
Proof.
  intros gpc s Hreach.
  pose proof (reachable_consistent gpc s Hreach) as H.
  pose proof (consistent_ids s H) as Hids.
  split; [exact Hids|]. split; [apply H|]. split; [now rewrite Hids|].
  intros now rnd ev k s'.
  pose proof (consistent_ids s' (consistent_step gpc now rnd ev s H)) as Hids'.
  now rewrite Hids, Hids'.
Qed.

Lemma sessions_match_players_witness :
  LoungeServer.session_ids sample_server = LoungeServer.player_ids sample_server.
Proof.
  exact (proj1 (sessions_match_players sample_color sample_server
    (LoungeServer.reach_step sample_color 20 "r2"
       (LoungeServer.Connection "bbbbbbbb" LoungeServer.OPEN) _
       (LoungeServer.reach_step sample_color 10 "r1"
          (LoungeServer.Connection "aaaaaaaa" LoungeServer.OPEN) _
          (LoungeServer.reach_initial sample_color))))).
Defined.

(** ** Position batches *)

Lemma tick_call (now : Z) (r : PlayerRegistry.t)
      (updates : list PlayerPositionUpdate) (serverTime : Z) :
  snd (PlayerRegistry.tick now r) = Some (updates, serverTime) ->
  (0 <? List.length updates)%nat = true /\ serverTime = now.
Proof.
  unfold PlayerRegistry.tick.
  destruct (negb (PlayerRegistry.onBroadcast r)
            || (JsMap.size (PlayerRegistry.players r) =? 0)%nat); simpl; [discriminate|].
  destruct (PlayerRegistry.tick_loop (PlayerRegistry.players r) []) as [players' ups].
  destruct (0 <? List.length ups)%nat eqn:E; simpl; [|discriminate].
  intros H. injection H as <- <-. auto.
Qed.

Lemma broadcast_all (msg : Message) (s : LoungeServer.t) :
  LoungeServer.broadcast msg None s
  = map (fun c => LoungeServer.Send (LoungeServer.id c) msg)
        (filter (fun c => LoungeServer.is_open (LoungeServer.readyState c))
                (JsMap.values (LoungeServer.clients s))).
Proof.
  unfold LoungeServer.broadcast, JsMap.values.
  induction (LoungeServer.clients s) as [|[k c] rest IH]; [reflexivity|].
  cbn [flat_map map filter snd]. rewrite IH. cbn [LoungeServer.excluded negb andb].
  now destruct (LoungeServer.is_open (LoungeServer.readyState c)).
Qed.

Lemma apply_update_local (m : PlayerManager.t) (update : PlayerPositionUpdate) :
  PlayerManager.localPlayerId (PlayerManager.apply_update m update)
  = PlayerManager.localPlayerId m.
Proof.
  unfold PlayerManager.apply_update.
  destruct (PlayerManager.is_local (u_id update) m); [reflexivity|].
  destruct (JsMap.get (u_id update) (PlayerManager.remotePlayers m)); reflexivity.
Qed.

Lemma handleBatch_skips_local (me : string) (updates : list PlayerPositionUpdate) :
  forall m, PlayerManager.localPlayerId m = Some me ->
    PlayerManager.handleBatchPositionUpdate updates m
    = PlayerManager.handleBatchPositionUpdate
        (filter (fun u => negb (String.eqb (u_id u) me)) updates) m.
Proof.
  unfold PlayerManager.handleBatchPositionUpdate.
  induction updates as [|u rest IH]; intros m Hme; simpl; [reflexivity|].
  destruct (String.eqb (u_id u) me) eqn:E; simpl.
  - replace (PlayerManager.apply_update m u) with m; [now apply IH|].
    unfold PlayerManager.apply_update, PlayerManager.is_local. now rewrite Hme, E.
  - apply IH. now rewrite apply_update_local.
Qed.

(** C10.  When a tick calls the broadcast callback, the server sends the
    [player:batch_position] envelope with the tick's updates to every
    client of the map whose socket is open, in map order, and to nobody
    else: [broadcast] runs without an excluded id, so a client also
    receives the batch that holds its own update.  On the client,
    [handleBatchPositionUpdate] passes over the updates that carry the local
    player's id: handling a batch equals handling it without them. *)
Theorem batch_position_reaches_all_open_clients :
  forall (now : Z) (s : LoungeServer.t)
         (updates : list PlayerPositionUpdate) (serverTime : Z),
    snd (PlayerRegistry.tick now (LoungeServer.playerRegistry s))
      = Some (updates, serverTime) ->
    let msg := createMessage now (PlayerBatchPosition updates serverTime) "server" in
    let sent := snd (LoungeServer.playerTick now s) in
    sent = LoungeServer.broadcast msg None (fst (LoungeServer.playerTick now s))
    /\ sent = map (fun c => LoungeServer.Send (LoungeServer.id c) msg)
                  (filter (fun c => LoungeServer.is_open (LoungeServer.readyState c))
                          (JsMap.values (LoungeServer.clients s)))
    /\ (forall c, In c (JsMap.values (LoungeServer.clients s)) ->
                  LoungeServer.readyState c = LoungeServer.OPEN ->
                  In (LoungeServer.Send (LoungeServer.id c) msg) sent)
    /\ (forall (m : PlayerManager.t) (me : string),
          PlayerManager.localPlayerId m = Some me ->
          PlayerManager.handleBatchPositionUpdate updates m
          = PlayerManager.handleBatchPositionUpdate
              (filter (fun u => negb (String.eqb (u_id u) me)) updates) m).
Proof.
  intros now s updates serverTime Hcall msg sent.
  destruct (tick_call _ _ _ _ Hcall) as [Hlen ->].
  assert (Hsent : sent = LoungeServer.broadcast msg None
                           (fst (LoungeServer.playerTick now s))).
  { subst sent msg. unfold LoungeServer.playerTick.
    destruct (PlayerRegistry.tick now (LoungeServer.playerRegistry s)) as [registry call].
    simpl in Hcall. subst call. simpl. unfold LoungeServer.onBroadcast.
    now rewrite Hlen. }
  assert (Hall : sent = map (fun c => LoungeServer.Send (LoungeServer.id c) msg)
                  (filter (fun c => LoungeServer.is_open (LoungeServer.readyState c))
                          (JsMap.values (LoungeServer.clients s)))).
  { rewrite Hsent, broadcast_all. unfold LoungeServer.playerTick.
    destruct (PlayerRegistry.tick now (LoungeServer.playerRegistry s)) as [registry call].
    destruct call as [[u t]|]; reflexivity. }
  split; [exact Hsent|]. split; [exact Hall|]. split.
  - intros c Hin Hopen. rewrite Hall.
    apply (in_map (fun c => LoungeServer.Send (LoungeServer.id c) msg)).
    apply filter_In. split; [exact Hin | now rewrite Hopen].
  - intros m me Hme. now apply handleBatch_skips_local.
Qed.

Lemma batch_position_reaches_all_open_clients_witness :
  snd (LoungeServer.playerTick 40 sample_server)
  = [ LoungeServer.Send "aaaaaaaa"
        (createMessage 40
           (PlayerBatchPosition
              [mkUpdate "aaaaaaaa" zero3 zero3 10; mkUpdate "bbbbbbbb" zero3 zero3 20] 40)
           "server");
      LoungeServer.Send "bbbbbbbb"
        (createMessage 40
           (PlayerBatchPosition
              [mkUpdate "aaaaaaaa" zero3 zero3 10; mkUpdate "bbbbbbbb" zero3 zero3 20] 40)
           "server") ].
Proof.
  exact (proj1 (proj2 (batch_position_reaches_all_open_clients 40 sample_server
                  [mkUpdate "aaaaaaaa" zero3 zero3 10; mkUpdate "bbbbbbbb" zero3 zero3 20]
                  40 eq_refl))).
Defined.

(** ** The registry of a running server is started *)

Lemma heartbeat_loop_registry_flag (now : Z)
      (entries : list (string * LoungeServer.ClientConnection)) :
  forall s,
    PlayerRegistry.onBroadcast
      (LoungeServer.playerRegistry (fst (LoungeServer.heartbeat_loop now entries s)))
    = PlayerRegistry.onBroadcast (LoungeServer.playerRegistry s).
Proof.
  induction entries as [|[k client] rest IH]; intros s; simpl; [reflexivity|].
  destruct (negb (LoungeServer.isAlive client)).
  - specialize (IH (LoungeServer.remove_session k s)).
    destruct (LoungeServer.heartbeat_loop now rest (LoungeServer.remove_session k s)).
    simpl in *. rewrite IH. unfold PlayerRegistry.removePlayer.
    now destruct (JsMap.get k (PlayerRegistry.players (LoungeServer.playerRegistry s))).
  - match goal with
    | |- context [LoungeServer.heartbeat_loop now rest ?s1] =>
        specialize (IH s1); destruct (LoungeServer.heartbeat_loop now rest s1)
    end.
    simpl in *. exact IH.
Qed.

Lemma step_registry_flag (gpc : string -> Z) (now : Z) (rnd : string)
      (ev : LoungeServer.Event) (s : LoungeServer.t) :
  PlayerRegistry.onBroadcast
    (LoungeServer.playerRegistry (fst (LoungeServer.step gpc now rnd ev s)))
  = PlayerRegistry.onBroadcast (LoungeServer.playerRegistry s).
Proof.
  destruct ev; cbn [LoungeServer.step].
  - reflexivity.
  - unfold LoungeServer.handleMessage. destruct parsed as [msg|]; [|reflexivity].
    unfold LoungeServer.handlePlayerMessage, PlayerRegistry.updatePosition,
      PlayerRegistry.updateStatus.
    destruct (body msg); try reflexivity;
      destruct (isPlayerMessage msg); try reflexivity;
      try (destruct (isChatMessage msg); reflexivity);
      cbn [fst LoungeServer.playerRegistry LoungeServer.with_registry];
      match goal with
      | |- context [JsMap.get ?k ?m] => destruct (JsMap.get k m); reflexivity
      end.
  - unfold LoungeServer.handleDisconnect, LoungeServer.remove_session,
      PlayerRegistry.removePlayer. simpl.
    now destruct (JsMap.get (LoungeServer.id client)
                    (PlayerRegistry.players (LoungeServer.playerRegistry s))).
  - reflexivity.
  - apply heartbeat_loop_registry_flag.
  - unfold LoungeServer.playerTick, PlayerRegistry.tick.
    destruct (negb (PlayerRegistry.onBroadcast (LoungeServer.playerRegistry s))
              || (JsMap.size (PlayerRegistry.players (LoungeServer.playerRegistry s)) =? 0)%nat);
      [reflexivity|].
    destruct (PlayerRegistry.tick_loop _ _) as [players' updates].
    destruct (0 <? List.length updates)%nat; reflexivity.
  - reflexivity.
Qed.

(** The constructor starts the registry and no handler stops it: whenever
    the tick timer of a running server fires, the callback is installed. *)
Lemma reachable_registry_started (gpc : string -> Z) (s : LoungeServer.t) :
  LoungeServer.Reachable gpc s ->
  PlayerRegistry.onBroadcast (LoungeServer.playerRegistry s) = true.
Proof.
  induction 1 as [|now rnd ev s Hreach IH]; [reflexivity|].
  now rewrite step_registry_flag.
Qed.

(** ** Failures as the client meets them *)

(** An abnormal close of a client that reconnects automatically and has
    not been disconnected is a connection failure. *)
Lemma onclose_abnormal (code : Z) (c : LoungeClient.t) :
  LoungeClient.autoReconnect (LoungeClient.config c) = true ->
  code <> Protocol.close_code Protocol.NORMAL ->
  LoungeClient.state c <> LoungeClient.disconnected ->
  LoungeClient.onclose code c
  = LoungeClient.handleConnectionFailure (LoungeClient.stopHeartbeat c).
Proof.
  intros Hauto Hcode Hstate. unfold LoungeClient.onclose.
  cbn [LoungeClient.stopHeartbeat LoungeClient.with_heartbeat LoungeClient.config
         LoungeClient.state].
  rewrite Hauto. destruct (Z.eqb_spec code (Protocol.close_code Protocol.NORMAL));
    [contradiction|].
  destruct (LoungeClient.state c); simpl; congruence.
Qed.

(** A reconnection attempt whose socket is constructed leaves the failure
    counter alone. *)
Lemma connect_keeps_counter (c : LoungeClient.t) :
  LoungeClient.reconnectAttempts (fst (LoungeClient.connect true c))
  = LoungeClient.reconnectAttempts c.
Proof.
  unfold LoungeClient.connect.
  destruct (LoungeClient.state c) eqn:E; try reflexivity;
    match goal with
    | |- context [LoungeClient.setState ?st c] =>
        pose proof (setState_fields st c) as (_ & Ha & _);
        destruct (LoungeClient.setState st c) as [c1 notified]
    end; simpl in *; exact Ha.
Qed.

(** * Further properties of the modelled code *)

(** ** Player registry *)

Lemma get_set_same {V : Type} (k : string) (v : V) (m : JsMap.t V) :
  JsMap.get k (JsMap.set k v m) = Some v.
Proof.
  induction m as [|[k' v'] r IH]; simpl.
  - now rewrite String.eqb_refl.
  - destruct (String.eqb k k') eqn:E; simpl; rewrite E; [reflexivity | exact IH].
Qed.

Lemma get_set_other {V : Type} (k k' : string) (v : V) (m : JsMap.t V) :
  k' <> k -> JsMap.get k' (JsMap.set k v m) = JsMap.get k' m.
Proof.
  intros Hne. induction m as [|[k0 v0] r IH]; simpl.
  - destruct (String.eqb_spec k' k); [contradiction | reflexivity].
  - destruct (String.eqb_spec k k0) as [->|Hk]; simpl.
    + destruct (String.eqb_spec k' k0); [contradiction | reflexivity].
    + now rewrite IH.
Qed.

Lemma get_delete_same {V : Type} (k : string) (m : JsMap.t V) :
  JsMap.get k (JsMap.delete k m) = None.
Proof.
  induction m as [|[k' v'] r IH]; simpl; [reflexivity|].
  destruct (String.eqb k k') eqn:E; simpl; [exact IH | now rewrite E].
Qed.

Lemma get_delete_other {V : Type} (k k' : string) (m : JsMap.t V) :
  k' <> k -> JsMap.get k' (JsMap.delete k m) = JsMap.get k' m.
Proof.
  intros Hne. induction m as [|[k0 v0] r IH]; simpl; [reflexivity|].
  destruct (String.eqb_spec k k0) as [->|Hk]; simpl.
  - rewrite IH. destruct (String.eqb_spec k' k0); [contradiction | reflexivity].
  - now rewrite IH.
Qed.

Lemma get_In_entry {V : Type} (k : string) (v : V) (m : JsMap.t V) :
  JsMap.get k m = Some v -> In (k, v) m.
Proof.
  induction m as [|[k' v'] r IH]; simpl; [discriminate|].
  destruct (String.eqb_spec k k') as [->|Hne].
  - intros H. injection H as ->. now left.
  - intros H. right. now apply IH.
Qed.

Lemma modify_modify {V : Type} (k : string) (f g : V -> V) (m : JsMap.t V) :
  (forall v, g (f v) = g v) ->
  JsMap.modify k g (JsMap.modify k f m) = JsMap.modify k g m.
Proof.
  intros H. unfold JsMap.modify. rewrite map_map. apply map_ext.
  intros [k' v]; simpl. destruct (String.eqb k k') eqn:E; simpl; rewrite E; [|reflexivity].
  now rewrite H.
Qed.

(** What a tick of a started registry passes to the callback. *)
Lemma tick_started_call (now : Z) (r : PlayerRegistry.t) :
  PlayerRegistry.onBroadcast r = true ->
  snd (PlayerRegistry.tick now r)
  = match map PlayerRegistry.update_of
            (filter PlayerRegistry.dirty (JsMap.values (PlayerRegistry.players r))) with
    | [] => None
    | u :: us => Some (u :: us, now)
    end.
Proof.
  intros Hcb. unfold PlayerRegistry.tick. rewrite Hcb. cbn [negb orb].
  destruct (PlayerRegistry.players r) as [|e rest] eqn:E; [reflexivity|].
  cbn [JsMap.size List.length Nat.eqb]. rewrite tick_loop_spec. cbn [app].
  destruct (map PlayerRegistry.update_of _); reflexivity.
Qed.

(** X1.  A player just added is returned by [getPlayer] in its default
    state, and the next tick of a started registry broadcasts it: the batch
    holds its update, at the origin, stamped with the time of the add. *)
Theorem addPlayer_joins_next_tick :
  forall (generatePlayerColor : string -> Z) (now later : Z) (clientId uname : string)
         (r : PlayerRegistry.t),
    PlayerRegistry.onBroadcast r = true ->
    let r1 := fst (PlayerRegistry.addPlayer generatePlayerColor now clientId uname r) in
    PlayerRegistry.getPlayer clientId r1
      = Some (createDefaultPlayerState generatePlayerColor clientId uname None)
    /\ exists updates,
         snd (PlayerRegistry.tick later r1) = Some (updates, later)
         /\ In (mkUpdate clientId zero3 zero3 now) updates.
Proof.
  intros gpc now later cid uname r Hcb r1. subst r1.
  unfold PlayerRegistry.addPlayer, PlayerRegistry.getPlayer. cbn [fst PlayerRegistry.players
    PlayerRegistry.with_players].
  rewrite get_set_same. split; [reflexivity|].
  rewrite tick_started_call by exact Hcb. cbn [PlayerRegistry.players PlayerRegistry.with_players].
  match goal with
  | |- context [JsMap.set cid ?sp _] =>
      assert (Hin : In (PlayerRegistry.update_of sp)
                (map PlayerRegistry.update_of
                   (filter PlayerRegistry.dirty
                      (JsMap.values (JsMap.set cid sp (PlayerRegistry.players r))))))
  end.
  { apply in_map, filter_In. split; [|reflexivity].
    apply (in_map snd _ (cid, _)). apply get_In_entry, get_set_same. }
  destruct (map PlayerRegistry.update_of _) as [|u us]; [contradiction|].
  exists (u :: us). split; [reflexivity | exact Hin].
Qed.

Lemma addPlayer_joins_next_tick_witness :
  PlayerRegistry.getPlayer "c"
    (fst (PlayerRegistry.addPlayer sample_color 5 "c" "Player_c" sample_registry))
  = Some (createDefaultPlayerState sample_color "c" "Player_c" None).
Proof.
  exact (proj1 (addPlayer_joins_next_tick sample_color 5 6 "c" "Player_c"
                  sample_registry eq_refl)).
Defined.

(** X2.  A position update for a registered player is accepted, and the
    next tick of a started registry broadcasts the new position and
    rotation, stamped with the time the update was received; the other
    players are untouched.  For an unknown id the update is refused and the
    registry is unchanged. *)
Theorem updatePosition_reaches_next_tick :
  forall (now later : Z) (clientId : string) (pos rot : Vector3) (r : PlayerRegistry.t),
    let r1 := fst (PlayerRegistry.updatePosition now clientId pos rot r) in
    (JsMap.get clientId (PlayerRegistry.players r) = None ->
       PlayerRegistry.updatePosition now clientId pos rot r = (r, false))
    /\ (forall p, JsMap.get clientId (PlayerRegistry.players r) = Some p ->
          snd (PlayerRegistry.updatePosition now clientId pos rot r) = true
          /\ JsMap.get clientId (PlayerRegistry.players r1)
             = Some (PlayerRegistry.set_position pos rot now p)
          /\ (forall k, k <> clientId ->
                JsMap.get k (PlayerRegistry.players r1)
                = JsMap.get k (PlayerRegistry.players r))
          /\ (PlayerRegistry.onBroadcast r = true ->
              exists updates,
                snd (PlayerRegistry.tick later r1) = Some (updates, later)
                /\ In (mkUpdate (id (PlayerRegistry.pub p)) pos rot now) updates)).
Proof.
  intros now later cid pos rot r r1. subst r1. unfold PlayerRegistry.updatePosition. split.
  - intros ->. reflexivity.
  - intros p Hp. rewrite Hp. cbn [fst snd PlayerRegistry.players PlayerRegistry.with_players].
    assert (Hget : JsMap.get cid (JsMap.modify cid (PlayerRegistry.set_position pos rot now)
                                    (PlayerRegistry.players r))
                   = Some (PlayerRegistry.set_position pos rot now p)).
    { rewrite get_modify, String.eqb_refl, Hp. reflexivity. }
    split; [reflexivity|]. split; [exact Hget|]. split.
    + intros k Hk. rewrite get_modify.
      destruct (String.eqb_spec cid k); [congruence | reflexivity].
    + intros Hcb. rewrite tick_started_call by exact Hcb.
      cbn [PlayerRegistry.players PlayerRegistry.with_players].
      assert (Hin : In (PlayerRegistry.update_of (PlayerRegistry.set_position pos rot now p))
                (map PlayerRegistry.update_of
                   (filter PlayerRegistry.dirty
                      (JsMap.values (JsMap.modify cid (PlayerRegistry.set_position pos rot now)
                                       (PlayerRegistry.players r)))))).
      { apply in_map, filter_In. split; [|reflexivity].
        apply (in_map snd _ (cid, _)). now apply get_In_entry. }
      destruct (map PlayerRegistry.update_of _) as [|u us]; [contradiction|].
      exists (u :: us). split; [reflexivity | exact Hin].
Qed.

Lemma updatePosition_reaches_next_tick_witness :
  JsMap.get "b"
    (PlayerRegistry.players
       (fst (PlayerRegistry.updatePosition 7 "b" (vec 1 2 3) (vec 0 1 0) sample_registry)))
  = Some (PlayerRegistry.set_position (vec 1 2 3) (vec 0 1 0) 7 (sample_player "b" false)).
Proof.
  exact (proj1 (proj2 (proj2 (updatePosition_reaches_next_tick 7 8 "b" (vec 1 2 3) (vec 0 1 0)
                         sample_registry) (sample_player "b" false) eq_refl))).
Defined.

(** X3.  Position updates of one player coalesce: a later update erases
    every trace of an earlier one, so a tick sends only the latest
    position. *)
Theorem updatePosition_last_write_wins :
  forall (now1 now2 : Z) (clientId : string) (pos1 rot1 pos2 rot2 : Vector3)
         (r : PlayerRegistry.t),
    PlayerRegistry.updatePosition now2 clientId pos2 rot2
      (fst (PlayerRegistry.updatePosition now1 clientId pos1 rot1 r))
    = PlayerRegistry.updatePosition now2 clientId pos2 rot2 r.
Proof.
  intros now1 now2 cid pos1 rot1 pos2 rot2 r. unfold PlayerRegistry.updatePosition.
  destruct (JsMap.get cid (PlayerRegistry.players r)) as [p|] eqn:Hp; cbn [fst]; [|now rewrite Hp].
  cbn [PlayerRegistry.players PlayerRegistry.with_players].
  rewrite get_modify, String.eqb_refl, Hp. cbn [option_map].
  unfold PlayerRegistry.with_players. cbn [PlayerRegistry.tickInterval PlayerRegistry.onBroadcast].
  rewrite modify_modify; reflexivity.
Qed.

Lemma filter_dirty_cleaned (l : JsMap.t PlayerRegistry.ServerPlayerState) :
  filter PlayerRegistry.dirty
    (JsMap.values (map (fun kv => (fst kv, PlayerRegistry.with_dirty false (snd kv))) l))
  = [].
Proof. induction l as [|a l IH]; [reflexivity | exact IH]. Qed.

Lemma tick_all_clean (now : Z) (r : PlayerRegistry.t) :
  PlayerRegistry.onBroadcast r = true ->
  PlayerRegistry.onBroadcast (fst (PlayerRegistry.tick now r)) = true
  /\ filter PlayerRegistry.dirty
       (JsMap.values (PlayerRegistry.players (fst (PlayerRegistry.tick now r)))) = [].
Proof.
  intros Hcb. unfold PlayerRegistry.tick. rewrite Hcb. cbn [negb orb].
  destruct (PlayerRegistry.players r) as [|e rest] eqn:Hp.
  - cbn [JsMap.size List.length Nat.eqb fst]. rewrite Hp. auto.
  - cbn [JsMap.size List.length Nat.eqb]. rewrite tick_loop_spec.
    destruct (0 <? _)%nat; cbn [fst PlayerRegistry.players PlayerRegistry.with_players
      PlayerRegistry.onBroadcast]; split; try exact Hcb; apply filter_dirty_cleaned.
Qed.

(** X4.  A tick leaves nothing to send: the tick that follows at once,
    before any update, never calls the callback. *)
Theorem tick_then_quiet :
  forall (now1 now2 : Z) (r : PlayerRegistry.t),
    snd (PlayerRegistry.tick now2 (fst (PlayerRegistry.tick now1 r))) = None.
Proof.
  intros now1 now2 r.
  destruct (PlayerRegistry.onBroadcast r) eqn:Hcb.
  - destruct (tick_all_clean now1 r Hcb) as [Hcb' Hclean].
    rewrite tick_started_call by exact Hcb'. now rewrite Hclean.
  - unfold PlayerRegistry.tick at 2. rewrite Hcb. cbn [negb orb fst].
    unfold PlayerRegistry.tick. rewrite Hcb. reflexivity.
Qed.

Lemma filter_dirty_modify (k : string)
      (f : PlayerRegistry.ServerPlayerState -> PlayerRegistry.ServerPlayerState)
      (m : JsMap.t PlayerRegistry.ServerPlayerState) :
  (forall p, PlayerRegistry.dirty (f p) = PlayerRegistry.dirty p) ->
  filter PlayerRegistry.dirty (JsMap.values m) = [] ->
  filter PlayerRegistry.dirty (JsMap.values (JsMap.modify k f m)) = [].
Proof.
  intros Hf. unfold JsMap.values, JsMap.modify.
  induction m as [|[k' p] rest IH]; [reflexivity|]. cbn [map filter snd fst].
  destruct (PlayerRegistry.dirty p) eqn:Hd; [discriminate|]. intros Hrest.
  destruct (String.eqb k k'); cbn [snd]; rewrite ?Hf, Hd; now apply IH.
Qed.

(** X5.  A status change is recorded but is no position change: it keeps
    every dirty flag, so when no player is dirty the next tick still calls
    nobody.  For an unknown id it is refused and the registry is
    unchanged. *)
Theorem updateStatus_is_not_broadcast :
  forall (now later : Z) (clientId : string) (st : PlayerStatus) (r : PlayerRegistry.t),
    let r1 := fst (PlayerRegistry.updateStatus now clientId st r) in
    (JsMap.get clientId (PlayerRegistry.players r) = None ->
       PlayerRegistry.updateStatus now clientId st r = (r, false))
    /\ (forall p, JsMap.get clientId (PlayerRegistry.players r) = Some p ->
          snd (PlayerRegistry.updateStatus now clientId st r) = true
          /\ option_map status (PlayerRegistry.getPlayer clientId r1) = Some st
          /\ option_map position (PlayerRegistry.getPlayer clientId r1)
             = Some (position (PlayerRegistry.pub p)))
    /\ (forall k, option_map PlayerRegistry.dirty (JsMap.get k (PlayerRegistry.players r1))
                  = option_map PlayerRegistry.dirty (JsMap.get k (PlayerRegistry.players r)))
    /\ (PlayerRegistry.onBroadcast r = true ->
        filter PlayerRegistry.dirty (JsMap.values (PlayerRegistry.players r)) = [] ->
        snd (PlayerRegistry.tick later r1) = None).
Proof.
  intros now later cid st r r1. subst r1. unfold PlayerRegistry.updateStatus, PlayerRegistry.getPlayer.
  destruct (JsMap.get cid (PlayerRegistry.players r)) as [p|] eqn:Hp;
    cbn [fst snd PlayerRegistry.players PlayerRegistry.with_players].
  - split; [discriminate|]. split; [|split].
    + intros p' Hp'. injection Hp' as <-.
      rewrite get_modify, String.eqb_refl, Hp. repeat split.
    + intros k. rewrite get_modify. destruct (String.eqb cid k); [|reflexivity].
      now destruct (JsMap.get k (PlayerRegistry.players r)).
    + intros Hcb Hclean. rewrite tick_started_call by exact Hcb.
      cbn [PlayerRegistry.players PlayerRegistry.with_players].
      rewrite filter_dirty_modify; [reflexivity | reflexivity | exact Hclean].
  - split; [reflexivity|]. split; [discriminate|]. split; [reflexivity|].
    intros Hcb Hclean. rewrite tick_started_call by exact Hcb. now rewrite Hclean.
Qed.

Lemma updateStatus_is_not_broadcast_witness :
  PlayerRegistry.updateStatus 7 "zz" idle sample_registry = (sample_registry, false).
Proof.
  exact (proj1 (updateStatus_is_not_broadcast 7 8 "zz" idle sample_registry) eq_refl).
Defined.

(** X6.  Removing a player: it is gone from the registry at once, the
    state it had is returned, and no other player is affected; removing an
    unknown id returns nothing and changes nothing. *)
Theorem removePlayer_removes_only_that_player :
  forall (clientId : string) (r : PlayerRegistry.t),
    let r1 := fst (PlayerRegistry.removePlayer clientId r) in
    PlayerRegistry.getPlayer clientId r1 = None
    /\ (forall k, k <> clientId ->
          PlayerRegistry.getPlayer k r1 = PlayerRegistry.getPlayer k r)
    /\ snd (PlayerRegistry.removePlayer clientId r)
       = option_map PlayerRegistry.pub (JsMap.get clientId (PlayerRegistry.players r))
    /\ (JsMap.get clientId (PlayerRegistry.players r) = None -> r1 = r).
Proof.
  intros cid r r1. subst r1. unfold PlayerRegistry.getPlayer.
  rewrite removePlayer_players, get_delete_same. split; [reflexivity|]. split.
  - intros k Hk. now rewrite get_delete_other.
  - unfold PlayerRegistry.removePlayer.
    destruct (JsMap.get cid (PlayerRegistry.players r)); split; try reflexivity; discriminate.
Qed.

Lemma removePlayer_removes_only_that_player_witness :
  PlayerRegistry.getPlayer "b" (fst (PlayerRegistry.removePlayer "a" sample_registry))
  = PlayerRegistry.getPlayer "b" sample_registry.
Proof.
  refine (proj1 (proj2 (removePlayer_removes_only_that_player "a" sample_registry)) "b" _).
  discriminate.
Defined.

(** ** Remote players *)

Lemma shift_over_skipn (cap : nat) (fuel : nat) :
  forall buf : list RemotePlayer.PositionSnapshot,
    (List.length buf - cap <= fuel)%nat ->
    RemotePlayer.shift_over cap fuel buf = skipn (List.length buf - cap) buf.
Proof.
  induction fuel as [|fuel IH]; intros buf Hf.
  - cbn [RemotePlayer.shift_over]. replace (List.length buf - cap)%nat with 0%nat by lia.
    reflexivity.
  - cbn [RemotePlayer.shift_over].
    destruct (Nat.ltb_spec cap (List.length buf)) as [Hlt|Hge].
    + destruct buf as [|s rest]; [simpl in Hlt; lia|]. cbn [tl].
      cbn [List.length] in *. rewrite IH by lia.
      replace (S (List.length rest) - cap)%nat with (S (List.length rest - cap))%nat by lia.
      reflexivity.
    + replace (List.length buf - cap)%nat with 0%nat by lia. reflexivity.
Qed.

(** X7.  The snapshot buffer is a bounded queue: after a push it holds
    the last [MAX_BUFFER_SIZE] (ten) of the old snapshots followed by the
    new one, so it never holds more than ten, the new snapshot is the
    newest, and the oldest are the ones dropped; the targets and the
    rendered transform are not touched. *)
Theorem pushPositionUpdate_bounded_fifo :
  forall (update : PlayerPositionUpdate) (p : RemotePlayer.t),
    let snapshot := RemotePlayer.mkSnapshot (u_position update) (u_rotation update)
                      (u_timestamp update) in
    let p' := RemotePlayer.pushPositionUpdate update p in
    RemotePlayer.positionBuffer p'
      = ChatManager.last_n RemotePlayer.MAX_BUFFER_SIZE
          (RemotePlayer.positionBuffer p ++ [snapshot])
    /\ (List.length (RemotePlayer.positionBuffer p') <= RemotePlayer.MAX_BUFFER_SIZE)%nat
    /\ last (RemotePlayer.positionBuffer p') snapshot = snapshot
    /\ RemotePlayer.targetPosition p' = RemotePlayer.targetPosition p
    /\ RemotePlayer.targetRotation p' = RemotePlayer.targetRotation p
    /\ RemotePlayer.meshPosition p' = RemotePlayer.meshPosition p.
Proof.
  intros update p snapshot p'. subst p'. unfold RemotePlayer.pushPositionUpdate.
  cbn [RemotePlayer.positionBuffer RemotePlayer.targetPosition RemotePlayer.targetRotation
         RemotePlayer.meshPosition].
  fold snapshot. rewrite shift_over_skipn by lia. unfold ChatManager.last_n.
  split; [reflexivity|]. split; [|split; [|auto]].
  - rewrite length_skipn. unfold RemotePlayer.MAX_BUFFER_SIZE. lia.
  - rewrite skipn_app.
    replace (List.length (RemotePlayer.positionBuffer p ++ [snapshot])
             - RemotePlayer.MAX_BUFFER_SIZE - List.length (RemotePlayer.positionBuffer p))%nat
      with 0%nat by (rewrite length_app; simpl; unfold RemotePlayer.MAX_BUFFER_SIZE; lia).
    cbn [skipn]. apply last_last.
Qed.

Lemma find_bracket_first (renderTime : Z) (pre post : list RemotePlayer.PositionSnapshot)
      (prev next : RemotePlayer.PositionSnapshot) :
  no_bracket renderTime (pre ++ [prev]) ->
  brackets renderTime prev next ->
  RemotePlayer.find_bracket renderTime (pre ++ prev :: next :: post) = Some (prev, next).
Proof.
  intros Hno [H1 H2]. induction pre as [|a pre IH].
  - cbn [app RemotePlayer.find_bracket].
    destruct (Z.leb_spec (RemotePlayer.s_timestamp prev) renderTime); [|lia].
    destruct (Z.leb_spec renderTime (RemotePlayer.s_timestamp next)); [|lia]. reflexivity.
  - assert (Hrest : no_bracket renderTime (pre ++ [prev])).
    { intros i x y Hx Hy. exact (Hno (S i) x y Hx Hy). }
    specialize (IH Hrest).
    destruct pre as [|b pre'].
    + cbn [app] in *. cbn [RemotePlayer.find_bracket].
      destruct (Z.leb_spec (RemotePlayer.s_timestamp a) renderTime) as [Ha|Ha];
        destruct (Z.leb_spec renderTime (RemotePlayer.s_timestamp prev)) as [Hb|Hb];
        cbn [andb]; try exact IH.
      exfalso. apply (Hno 0%nat a prev eq_refl eq_refl). split; assumption.
    + cbn [app] in *. change (RemotePlayer.find_bracket renderTime (a :: b :: ?l))
        with (if (RemotePlayer.s_timestamp a <=? renderTime)
                 && (renderTime <=? RemotePlayer.s_timestamp b)
              then Some (a, b) else RemotePlayer.find_bracket renderTime (b :: l)).
      destruct (Z.leb_spec (RemotePlayer.s_timestamp a) renderTime) as [Ha|Ha];
        destruct (Z.leb_spec renderTime (RemotePlayer.s_timestamp b)) as [Hb|Hb];
        cbn [andb]; try exact IH.
      exfalso. apply (Hno 0%nat a b eq_refl eq_refl). split; assumption.
Qed.

Lemma lerp_finite (a b t : Q) :
  is_num (lerp (Num a) (Num b) (Num t)) (a + (b - a) * t).
Proof.
  unfold lerp, nadd, nmul, nsub, nbin, num_of_Z. eexists. split; [reflexivity|].
  rewrite !Qred_correct. unfold inject_Z. ring.
Qed.

Lemma is_num_equiv (n : number) (q1 q2 : Q) : q1 == q2 -> is_num n q1 -> is_num n q2.
Proof. intros E (p & Hp & Hq). exists p. split; [exact Hp | now rewrite Hq]. Qed.

Lemma lerp_NaN (a b : number) : lerp a b NaN = NaN.
Proof. unfold lerp, nadd, nmul, nsub, nbin, num_of_Z. now destruct a. Qed.

(** The interpolation fraction between bracketing snapshots that are apart
    in time: the clamp to [0, 1] does nothing. *)
Lemma fraction_finite (e d : Z) :
  0 <= e <= d -> 0 < d ->
  exists t, Math_min (num_of_Z 1) (Math_max (num_of_Z 0) (ndiv (num_of_Z e) (num_of_Z d)))
            = Num t
            /\ t == inject_Z e / inject_Z d.
Proof.
  intros He Hd. unfold ndiv, num_of_Z.
  assert (Hd0 : ~ inject_Z d == 0).
  { unfold Qeq, inject_Z. simpl. lia. }
  destruct (Qeq_bool (inject_Z d) 0) eqn:E; [apply Qeq_bool_iff in E; contradiction|].
  assert (Hdpos : (0 < inject_Z d)%Q)
    by (change (inject_Z 0 < inject_Z d)%Q; rewrite <- Zlt_Qlt; exact Hd).
  assert (H0 : (0 <= inject_Z e / inject_Z d)%Q).
  { apply Qle_shift_div_l; [exact Hdpos|]. rewrite Qmult_0_l.
    change (inject_Z 0 <= inject_Z e)%Q. rewrite <- Zle_Qle. lia. }
  assert (H1 : (inject_Z e / inject_Z d <= 1)%Q).
  { apply Qle_shift_div_r; [exact Hdpos|]. rewrite Qmult_1_l.
    rewrite <- Zle_Qle. lia. }
  unfold Math_max.
  destruct (Qle_bool (inject_Z 0) (Qred (inject_Z e / inject_Z d))) eqn:Emax.
  - unfold Math_min.
    destruct (Qle_bool (inject_Z 1) (Qred (inject_Z e / inject_Z d))) eqn:Emin.
    + exists (inject_Z 1). split; [reflexivity|].
      apply Qle_bool_iff in Emin. rewrite Qred_correct in Emin.
      apply Qle_antisym; [exact Emin | exact H1].
    + eexists. split; [reflexivity | apply Qred_correct].
  - exfalso. assert (Qle_bool (inject_Z 0) (Qred (inject_Z e / inject_Z d)) = true) as T.
    { apply Qle_bool_iff. rewrite Qred_correct. exact H0. }
    congruence.
Qed.

(** X8.  The ends of an interpolation interval are reached exactly.  Let
    the first pair of adjacent snapshots that brackets the render time
    have different timestamps and finite positions.  When the render time
    is the timestamp of the earlier snapshot, the frame update sets the
    target position to the position of that snapshot; when it is the
    timestamp of the later one, to the position of the later one.  Later
    pairs of the buffer play no part.  (The factor is exactly 0 or 1
    there, so no rounding is involved in the code either.) *)
Theorem update_reaches_bracketing_snapshots :
  forall (now : Z) (p : RemotePlayer.t)
         (pre post : list RemotePlayer.PositionSnapshot)
         (prev next : RemotePlayer.PositionSnapshot) (px py pz nx ny nz : Q),
    let renderTime := now - RemotePlayer.INTERPOLATION_DELAY in
    RemotePlayer.positionBuffer p = pre ++ prev :: next :: post ->
    no_bracket renderTime (pre ++ [prev]) ->
    RemotePlayer.s_timestamp prev < RemotePlayer.s_timestamp next ->
    RemotePlayer.s_position prev = mkVector3 (Num px) (Num py) (Num pz) ->
    RemotePlayer.s_position next = mkVector3 (Num nx) (Num ny) (Num nz) ->
    let target := RemotePlayer.targetPosition (RemotePlayer.update now p) in
    (renderTime = RemotePlayer.s_timestamp prev ->
     is_num (x target) px /\ is_num (y target) py /\ is_num (z target) pz)
    /\ (renderTime = RemotePlayer.s_timestamp next ->
        is_num (x target) nx /\ is_num (y target) ny /\ is_num (z target) nz).
Proof.
  intros now p pre post prev next px py pz nx ny nz renderTime Hbuf Hno Hlt Hp Hn target.
  assert (Hlen : (2 <=? List.length (pre ++ prev :: next :: post))%nat = true).
  { apply Nat.leb_le. rewrite length_app. simpl. lia. }
  assert (Hd0 : ~ inject_Z (RemotePlayer.s_timestamp next - RemotePlayer.s_timestamp prev) == 0).
  { unfold Qeq, inject_Z. simpl. lia. }
  assert (Hgo : forall e,
             e = renderTime - RemotePlayer.s_timestamp prev ->
             0 <= e <= RemotePlayer.s_timestamp next - RemotePlayer.s_timestamp prev ->
             exists t,
               t == inject_Z e
                    / inject_Z (RemotePlayer.s_timestamp next - RemotePlayer.s_timestamp prev)
               /\ is_num (x target) (px + (nx - px) * t)
               /\ is_num (y target) (py + (ny - py) * t)
               /\ is_num (z target) (pz + (nz - pz) * t)).
  { intros e He Hrange.
    assert (Hbr : brackets renderTime prev next) by (unfold brackets; lia).
    subst target. unfold RemotePlayer.update, RemotePlayer.retarget. fold renderTime.
    rewrite Hbuf, Hlen, (find_bracket_first renderTime pre post prev next Hno Hbr).
    rewrite <- He.
    destruct (fraction_finite e
                (RemotePlayer.s_timestamp next - RemotePlayer.s_timestamp prev))
      as (t & Ht & Hteq); [exact Hrange | lia |].
    rewrite Ht, Hp, Hn. cbn [RemotePlayer.targetPosition RemotePlayer.lerp3 x y z].
    exists t. split; [exact Hteq|]. repeat split; apply lerp_finite. }
  split; intros Hat.
  - destruct (Hgo 0) as (t & Hteq & Hx & Hy & Hz); [lia | lia |].
    assert (Ht0 : t == 0) by (rewrite Hteq; unfold Qdiv; ring).
    repeat split; (eapply is_num_equiv; [|eassumption]); rewrite Ht0; ring.
  - destruct (Hgo (RemotePlayer.s_timestamp next - RemotePlayer.s_timestamp prev))
      as (t & Hteq & Hx & Hy & Hz); [lia | lia |].
    assert (Ht1 : t == 1) by (rewrite Hteq; field; exact Hd0).
    repeat split; (eapply is_num_equiv; [|eassumption]); rewrite Ht1; ring.
Qed.

Lemma update_reaches_bracketing_snapshots_witness :
  is_num (x (RemotePlayer.targetPosition
               (RemotePlayer.update 200
                  (sample_remote [sample_snapshot (vec 0 0 0) 0;
                                  sample_snapshot (vec 10 0 0) 100;
                                  sample_snapshot (vec 20 0 0) 200]))))
         10.
Proof.
  refine (proj1 (proj2 (update_reaches_bracketing_snapshots 200
            (sample_remote [sample_snapshot (vec 0 0 0) 0; sample_snapshot (vec 10 0 0) 100;
                            sample_snapshot (vec 20 0 0) 200])
            [] [sample_snapshot (vec 20 0 0) 200]
            (sample_snapshot (vec 0 0 0) 0) (sample_snapshot (vec 10 0 0) 100)
            0 0 0 10 0 0 eq_refl _ _ eq_refl eq_refl) eq_refl)).
  - intros i a b Ha Hb. destruct i as [|[|i]]; simpl in Hb; discriminate.
  - reflexivity.
Defined.

Lemma mesh_NaN_sticky (later : Z) (q : RemotePlayer.t) :
  RemotePlayer.meshPosition q = NaN3 ->
  RemotePlayer.meshPosition (RemotePlayer.update later q) = NaN3.
Proof.
  intros Hq. unfold RemotePlayer.update.
  destruct (RemotePlayer.retarget (later - RemotePlayer.INTERPOLATION_DELAY) q) as [tp tr].
  cbn [RemotePlayer.meshPosition]. rewrite Hq.
  destruct tp as [[a|] [b|] [c|]]; reflexivity.
Qed.

(** X9.  When the first bracketing pair consists of two snapshots with
    the same timestamp (then equal to the render time), the interpolation
    fraction is 0/0: both targets and the rendered position become [NaN] in
    every coordinate, whatever the snapshots hold; and a rendered position
    that is [NaN] stays [NaN] in every later frame. *)
Theorem update_equal_timestamps_gives_NaN :
  forall (now : Z) (p : RemotePlayer.t)
         (pre post : list RemotePlayer.PositionSnapshot)
         (prev next : RemotePlayer.PositionSnapshot),
    let renderTime := now - RemotePlayer.INTERPOLATION_DELAY in
    RemotePlayer.positionBuffer p = pre ++ prev :: next :: post ->
    no_bracket renderTime (pre ++ [prev]) ->
    RemotePlayer.s_timestamp prev = renderTime ->
    RemotePlayer.s_timestamp next = renderTime ->
    RemotePlayer.targetPosition (RemotePlayer.update now p) = NaN3
    /\ RemotePlayer.targetRotation (RemotePlayer.update now p) = NaN3
    /\ RemotePlayer.meshPosition (RemotePlayer.update now p) = NaN3
    /\ (forall (later : Z) (q : RemotePlayer.t),
          RemotePlayer.meshPosition q = NaN3 ->
          RemotePlayer.meshPosition (RemotePlayer.update later q) = NaN3).
Proof.
  intros now p pre post prev next renderTime Hbuf Hno Hp Hn.
  assert (Hbr : brackets renderTime prev next) by (unfold brackets; lia).
  assert (Hlen : (2 <=? List.length (pre ++ prev :: next :: post))%nat = true).
  { apply Nat.leb_le. rewrite length_app. simpl. lia. }
  assert (Hnan : forall cur, RemotePlayer.approach cur NaN3 RemotePlayer.LERP_SPEED = NaN3).
  { intros [[a|] [b|] [c|]]; reflexivity. }
  unfold RemotePlayer.update, RemotePlayer.retarget. fold renderTime.
  rewrite Hbuf, Hlen, (find_bracket_first renderTime pre post prev next Hno Hbr).
  rewrite Hp, Hn, Z.sub_diag.
  change (Math_min (num_of_Z 1) (Math_max (num_of_Z 0) (ndiv (num_of_Z 0) (num_of_Z 0))))
    with NaN.
  unfold RemotePlayer.lerp3. rewrite !lerp_NaN. fold NaN3.
  cbn [RemotePlayer.targetPosition RemotePlayer.targetRotation RemotePlayer.meshPosition].
  rewrite Hnan. repeat split. exact mesh_NaN_sticky.
Qed.

Lemma update_equal_timestamps_gives_NaN_witness :
  RemotePlayer.targetPosition
    (RemotePlayer.update 150
       (sample_remote [sample_snapshot (vec 1 0 0) 50; sample_snapshot (vec 2 0 0) 50]))
  = NaN3.
Proof.
  refine (proj1 (update_equal_timestamps_gives_NaN 150
            (sample_remote [sample_snapshot (vec 1 0 0) 50; sample_snapshot (vec 2 0 0) 50])
            [] [] (sample_snapshot (vec 1 0 0) 50) (sample_snapshot (vec 2 0 0) 50)
            eq_refl _ eq_refl eq_refl)).
  intros i a b Ha Hb. destruct i as [|[|i]]; simpl in Hb; discriminate.
Defined.

Lemma approach_finite (m t : Q) :
  is_num (nadd (Num m) (nmul (nsub (Num t) (Num m)) RemotePlayer.LERP_SPEED))
         (t + (m - t) * (85 # 100)).
Proof.
  unfold nadd, nmul, nsub, nbin, RemotePlayer.LERP_SPEED. eexists. split; [reflexivity|].
  rewrite !Qred_correct. field.
Qed.

Lemma update_idle (now : Z) (p : RemotePlayer.t) :
  RemotePlayer.positionBuffer p = [] ->
  RemotePlayer.positionBuffer (RemotePlayer.update now p) = []
  /\ RemotePlayer.targetPosition (RemotePlayer.update now p) = RemotePlayer.targetPosition p
  /\ RemotePlayer.meshPosition (RemotePlayer.update now p)
     = RemotePlayer.approach (RemotePlayer.meshPosition p) (RemotePlayer.targetPosition p)
         RemotePlayer.LERP_SPEED.
Proof.
  intros Hbuf. unfold RemotePlayer.update, RemotePlayer.retarget. rewrite Hbuf.
  repeat split.
Qed.

(** X10.  A remote player at rest stays at rest.  While the buffer is
    empty the target stays where it is, and a rendered position that
    equals the target (in finite coordinates) still equals it after any
    number of frame updates, at whatever times: the smoothing step adds
    [(target - position) * LERP_SPEED], which is zero.  (That is so in the
    code's floating-point arithmetic as well.) *)
Theorem mesh_at_target_stays_at_rest :
  forall (times : list Z) (p : RemotePlayer.t) (tx ty tz mx my mz : Q),
    RemotePlayer.positionBuffer p = [] ->
    RemotePlayer.targetPosition p = mkVector3 (Num tx) (Num ty) (Num tz) ->
    RemotePlayer.meshPosition p = mkVector3 (Num mx) (Num my) (Num mz) ->
    mx == tx -> my == ty -> mz == tz ->
    let p' := frames times p in
    RemotePlayer.positionBuffer p' = []
    /\ RemotePlayer.targetPosition p' = RemotePlayer.targetPosition p
    /\ is_num (x (RemotePlayer.meshPosition p')) tx
    /\ is_num (y (RemotePlayer.meshPosition p')) ty
    /\ is_num (z (RemotePlayer.meshPosition p')) tz.
Proof.
  induction times as [|now rest IH]; intros p tx ty tz mx my mz Hbuf Ht Hm Hx Hy Hz.
  - cbn [frames fold_left]. rewrite Hm. cbn [x y z].
    split; [exact Hbuf|]. split; [reflexivity|].
    repeat split; eexists; (split; [reflexivity|]); assumption.
  - destruct (update_idle now p Hbuf) as (Hb1 & Ht1 & Hm1).
    rewrite Hm, Ht in Hm1. unfold RemotePlayer.approach in Hm1. cbn [x y z] in Hm1.
    destruct (approach_finite mx tx) as (vx & Ex & Hvx).
    destruct (approach_finite my ty) as (vy & Ey & Hvy).
    destruct (approach_finite mz tz) as (vz & Ez & Hvz).
    rewrite Ex, Ey, Ez in Hm1.
    assert (Hx' : vx == tx) by (rewrite Hvx, Hx; ring).
    assert (Hy' : vy == ty) by (rewrite Hvy, Hy; ring).
    assert (Hz' : vz == tz) by (rewrite Hvz, Hz; ring).
    specialize (IH (RemotePlayer.update now p) tx ty tz vx vy vz Hb1
                   (eq_trans Ht1 Ht) Hm1 Hx' Hy' Hz').
    cbv zeta in IH. destruct IH as (IHb & IHt & IHx & IHy & IHz).
    change (frames (now :: rest) p) with (frames rest (RemotePlayer.update now p)).
    split; [exact IHb|]. split; [now rewrite IHt, Ht1|].
    repeat split; assumption.
Qed.

Lemma mesh_at_target_stays_at_rest_witness :
  is_num (x (RemotePlayer.meshPosition (frames [10; 500] (sample_remote [])))) 7.
Proof.
  refine (proj1 (proj2 (proj2 (mesh_at_target_stays_at_rest [10; 500] (sample_remote [])
                                 7 7 7 7 7 7 eq_refl eq_refl eq_refl _ _ _)))); reflexivity.
Defined.

Lemma drop_old_split (limit : Z) (buf : list RemotePlayer.PositionSnapshot) :
  exists dropped,
    buf = dropped ++ RemotePlayer.drop_old limit buf
    /\ Forall (fun s => RemotePlayer.s_timestamp s < limit) dropped
    /\ match RemotePlayer.drop_old limit buf with
       | s :: _ => limit <= RemotePlayer.s_timestamp s
       | [] => True
       end.
Proof.
  induction buf as [|s rest IH].
  - exists []. repeat split. constructor.
  - cbn [RemotePlayer.drop_old].
    destruct (Z.ltb_spec (RemotePlayer.s_timestamp s) limit) as [Hlt|Hge].
    + destruct IH as (dropped & Hsplit & Hall & Hhead).
      exists (s :: dropped). cbn [app]. rewrite <- Hsplit.
      repeat split; [constructor; assumption | exact Hhead].
    + exists []. repeat split; [constructor | exact Hge].
Qed.

(** X11.  The frame update evicts snapshots from the head of the buffer
    only: what it drops is a prefix of snapshots all older than one second
    before the render time, and the oldest snapshot it keeps is not that
    old.  (A stale snapshot behind a fresher one is kept.) *)
Theorem update_evicts_stale_head :
  forall (now : Z) (p : RemotePlayer.t),
    let limit := now - RemotePlayer.INTERPOLATION_DELAY - 1000 in
    exists dropped,
      RemotePlayer.positionBuffer p
        = dropped ++ RemotePlayer.positionBuffer (RemotePlayer.update now p)
      /\ Forall (fun s => RemotePlayer.s_timestamp s < limit) dropped
      /\ match RemotePlayer.positionBuffer (RemotePlayer.update now p) with
         | s :: _ => limit <= RemotePlayer.s_timestamp s
         | [] => True
         end.
Proof.
  intros now p limit. unfold RemotePlayer.update.
  destruct (RemotePlayer.retarget (now - RemotePlayer.INTERPOLATION_DELAY) p) as [tp tr].
  cbn [RemotePlayer.positionBuffer].
  apply drop_old_split.
Qed.

(** ** Wire protocol and client *)

(** X12.  [parseMessage] accepts exactly the texts whose parsed value has
    the four required fields, and what it returns is the parsed value
    itself, with whatever other fields it carries. *)
Theorem parseMessage_accepts_exactly :
  forall (JSON_parse : string -> completion jsval) (data : string) (v : jsval),
    Protocol.parseMessage JSON_parse data = Normal (Some v)
    <-> JSON_parse data = Normal v /\ Protocol.has_required_fields v.
Proof.
  intros parse data v. unfold Protocol.parseMessage. split.
  - destruct (parse data) as [w|e]; cbv beta iota delta [bind try_catch]; [|discriminate].
    destruct (envelope_check_normal w) as [b Hb]. rewrite Hb.
    destruct b; [|discriminate]. intros H. injection H as <-.
    split; [reflexivity | now apply envelope_check_true].
  - intros [Hp Hf]. rewrite Hp. cbv beta iota delta [bind try_catch].
    now rewrite (envelope_check_complete v Hf).
Qed.

(** X13.  [send] lets a message out exactly when the client is connected,
    has a socket and has been assigned a non-empty id; the message then
    carries that id as sender and the current time, and otherwise nothing
    is sent. *)
Theorem send_only_when_connected :
  forall (now : Z) (ty : string) (pl : jsval) (c : LoungeClient.t),
    (fst (LoungeClient.send now ty pl c) = true
     <-> LoungeClient.state c = LoungeClient.connected
         /\ LoungeClient.socket c = true
         /\ exists cid, LoungeClient.clientId c = Some cid /\ cid <> EmptyString)
    /\ (fst (LoungeClient.send now ty pl c) = false -> snd (LoungeClient.send now ty pl c) = [])
    /\ (forall msg, In (LoungeClient.SocketSend msg) (snd (LoungeClient.send now ty pl c)) ->
          LoungeClient.clientId c = Some (Protocol.senderId msg)
          /\ Protocol.timestamp msg = num_of_Z now
          /\ Protocol.type msg = ty /\ Protocol.payload msg = pl
          /\ snd (LoungeClient.send now ty pl c) = [LoungeClient.SocketSend msg]).
Proof.
  intros now ty pl c. unfold LoungeClient.send.
  destruct (LoungeClient.clientId c) as [cid|].
  - destruct (LoungeClient.state c) eqn:Hs; cbn [LoungeClient.state_eqb andb fst snd];
      try (split; [split; [discriminate | intros (H & _); discriminate]
                  | split; [reflexivity | intros msg []]]).
    destruct (LoungeClient.socket c) eqn:Hk; cbn [andb fst snd];
      [|split; [split; [discriminate | intros (_ & H & _); discriminate]
               | split; [reflexivity | intros msg []]]].
    destruct cid as [|ch rest]; cbn [LoungeClient.nonempty fst snd].
    + split; [split; [discriminate | intros (_ & _ & cid & H & Hne); congruence]
             | split; [reflexivity | intros msg []]].
    + split; [split; [intros _; repeat split; eexists; split; [reflexivity | discriminate]
                     | reflexivity]
             | split; [discriminate|]].
      intros msg [H|[]]. injection H as <-. repeat split.
  - cbn [fst snd]. split; [split; [discriminate | intros (_ & _ & cid & H & _); discriminate]
                          | split; [reflexivity | intros msg []]].
Qed.

(** X14.  [disconnect] from any state: the client is disconnected, has no
    socket and no id, the failure counter is back at 0 and no reconnect
    timer is left; a socket that existed is closed with the normal close
    code, and no reconnect is scheduled. *)
Theorem disconnect_resets_client :
  forall c : LoungeClient.t,
    let c' := fst (LoungeClient.disconnect c) in
    let effects := snd (LoungeClient.disconnect c) in
    LoungeClient.state c' = LoungeClient.disconnected
    /\ LoungeClient.socket c' = false
    /\ LoungeClient.clientId c' = None
    /\ LoungeClient.reconnectAttempts c' = 0
    /\ LoungeClient.reconnectTimer c' = None
    /\ LoungeClient.heartbeatTimer c' = None
    /\ (In (LoungeClient.SocketClose 1000 "Client disconnected") effects
        <-> LoungeClient.socket c = true)
    /\ (forall delay, ~ In (LoungeClient.SetReconnectTimeout delay) effects)
    /\ (forall u, ~ In (LoungeClient.NewWebSocket u) effects).
Proof.
  intros c c' effects. subst c' effects. unfold LoungeClient.disconnect,
    LoungeClient.stopReconnect, LoungeClient.stopHeartbeat, LoungeClient.setState.
  cbn [LoungeClient.with_heartbeat LoungeClient.with_reconnect LoungeClient.with_socket
         LoungeClient.with_clientId LoungeClient.socket LoungeClient.state
         LoungeClient.reconnectTimer].
  change (Protocol.close_code Protocol.NORMAL) with 1000.
  destruct (LoungeClient.state c) eqn:Hs; destruct (LoungeClient.socket c) eqn:Hk;
    destruct (LoungeClient.reconnectTimer c) eqn:Ht;
    cbn [LoungeClient.state_eqb fst snd app LoungeClient.state LoungeClient.socket
           LoungeClient.clientId LoungeClient.reconnectAttempts LoungeClient.reconnectTimer
           LoungeClient.heartbeatTimer LoungeClient.with_state];
    (split; [assumption || reflexivity|]);
    (split; [reflexivity|]); (split; [reflexivity|]); (split; [reflexivity|]);
    (split; [reflexivity|]); (split; [reflexivity|]);
    (split; [split; [intros H; try reflexivity;
                     repeat (destruct H as [H|H]; [discriminate H|]); destruct H
                    | intros H; try discriminate H; cbn; auto]|]);
    (split; [intros d H | intros u H]);
    repeat (destruct H as [H|H]; [discriminate H|]); destruct H.
Qed.

(** X15.  Giving up: once the failure counter has reached
    [maxReconnectAttempts], a connection failure disconnects the client
    without scheduling a reconnection and leaves the counter where it is;
    a later explicit [connect] whose socket cannot be created gives up at
    once again. *)
Theorem reconnect_gives_up_at_limit :
  forall c : LoungeClient.t,
    LoungeClient.maxReconnectAttempts (LoungeClient.config c)
      <= LoungeClient.reconnectAttempts c ->
    let c1 := fst (LoungeClient.handleConnectionFailure c) in
    LoungeClient.state c1 = LoungeClient.disconnected
    /\ LoungeClient.socket c1 = false
    /\ LoungeClient.clientId c1 = None
    /\ LoungeClient.reconnectAttempts c1 = LoungeClient.reconnectAttempts c
    /\ (forall delay, ~ In (LoungeClient.SetReconnectTimeout delay)
                           (snd (LoungeClient.handleConnectionFailure c)))
    /\ LoungeClient.state (fst (LoungeClient.connect false c1)) = LoungeClient.disconnected
    /\ (forall delay, ~ In (LoungeClient.SetReconnectTimeout delay)
                           (snd (LoungeClient.connect false c1))).
Proof.
  intros c Hmax c1.
  assert (Hgive : forall d : LoungeClient.t,
            LoungeClient.maxReconnectAttempts (LoungeClient.config d)
              <= LoungeClient.reconnectAttempts d ->
            LoungeClient.handleConnectionFailure d
            = LoungeClient.setState LoungeClient.disconnected
                (LoungeClient.with_clientId None (LoungeClient.with_socket false d))).
  { intros d Hd. unfold LoungeClient.handleConnectionFailure.
    cbn [LoungeClient.with_clientId LoungeClient.with_socket LoungeClient.config
           LoungeClient.reconnectAttempts].
    destruct (Z.leb_spec (LoungeClient.maxReconnectAttempts (LoungeClient.config d))
                         (LoungeClient.reconnectAttempts d)); [reflexivity | lia]. }
  assert (Hc1 : LoungeClient.state c1 = LoungeClient.disconnected
                /\ LoungeClient.socket c1 = false /\ LoungeClient.clientId c1 = None
                /\ LoungeClient.reconnectAttempts c1 = LoungeClient.reconnectAttempts c
                /\ LoungeClient.config c1 = LoungeClient.config c
                /\ forall delay, ~ In (LoungeClient.SetReconnectTimeout delay)
                                      (snd (LoungeClient.handleConnectionFailure c))).
  { subst c1. rewrite (Hgive c Hmax). unfold LoungeClient.setState.
    cbn [LoungeClient.state LoungeClient.with_clientId LoungeClient.with_socket].
    destruct (LoungeClient.state c) eqn:Hs; cbn; rewrite ?Hs; repeat split;
      intros delay H; repeat destruct H as [H|H]; try discriminate H; contradiction. }
  destruct Hc1 as (Hs1 & Hk1 & Hi1 & Ha1 & Hcfg1 & Hno1).
  repeat split; try assumption.
  - unfold LoungeClient.connect. rewrite Hs1. cbn [LoungeClient.state_eqb].
    unfold LoungeClient.setState at 1. rewrite Hs1. cbn [LoungeClient.state_eqb].
    rewrite Hgive by (cbn; rewrite Hcfg1, Ha1; exact Hmax).
    unfold LoungeClient.setState. cbn. reflexivity.
  - unfold LoungeClient.connect. rewrite Hs1. cbn [LoungeClient.state_eqb].
    unfold LoungeClient.setState at 1. rewrite Hs1. cbn [LoungeClient.state_eqb].
    rewrite Hgive by (cbn; rewrite Hcfg1, Ha1; exact Hmax).
    unfold LoungeClient.setState. cbn.
    intros delay H; repeat destruct H as [H|H]; try discriminate H; contradiction.
Qed.

Lemma reconnect_gives_up_at_limit_witness :
  LoungeClient.state
    (fst (LoungeClient.handleConnectionFailure (failures 10 (LoungeClient.onopen sample_client))))
  = LoungeClient.disconnected.
Proof.
  refine (proj1 (reconnect_gives_up_at_limit
                   (failures 10 (LoungeClient.onopen sample_client)) _)).
  vm_compute. discriminate.
Defined.

(** X16.  A socket close that is normal (code 1000), or that happens with
    automatic reconnection switched off, or after the client was
    disconnected, ends in state [disconnected] without an id; no
    reconnection is scheduled and the failure counter is not touched. *)
Theorem onclose_without_reconnect :
  forall (code : Z) (c : LoungeClient.t),
    code = 1000 \/ LoungeClient.autoReconnect (LoungeClient.config c) = false
    \/ LoungeClient.state c = LoungeClient.disconnected ->
    let c' := fst (LoungeClient.onclose code c) in
    LoungeClient.state c' = LoungeClient.disconnected
    /\ LoungeClient.clientId c' = None
    /\ LoungeClient.heartbeatTimer c' = None
    /\ LoungeClient.reconnectAttempts c' = LoungeClient.reconnectAttempts c
    /\ (forall delay, ~ In (LoungeClient.SetReconnectTimeout delay)
                           (snd (LoungeClient.onclose code c))).
Proof.
  intros code c H c'. subst c'.
  assert (E : LoungeClient.onclose code c
              = LoungeClient.setState LoungeClient.disconnected
                  (LoungeClient.with_clientId None (LoungeClient.stopHeartbeat c))).
  { unfold LoungeClient.onclose.
    cbn [LoungeClient.stopHeartbeat LoungeClient.with_heartbeat LoungeClient.config
           LoungeClient.state].
    destruct H as [->|[->| ->]]; cbn; try reflexivity.
    - now rewrite andb_false_r.
    - now rewrite !andb_false_r. }
  rewrite E. unfold LoungeClient.setState.
  cbn [LoungeClient.state LoungeClient.with_clientId LoungeClient.stopHeartbeat
         LoungeClient.with_heartbeat].
  destruct (LoungeClient.state c) eqn:Hs; cbn; rewrite ?Hs; repeat split;
    intros delay H'; repeat destruct H' as [H'|H']; try discriminate H'; contradiction.
Qed.

Lemma onclose_without_reconnect_witness :
  LoungeClient.state (fst (LoungeClient.onclose 1000 sample_client))
  = LoungeClient.disconnected.
Proof.
  exact (proj1 (onclose_without_reconnect 1000 sample_client (or_introl eq_refl))).
Defined.

(** ** Chat manager *)

Lemma client_send_effects (now : Z) (ty : string) (pl : jsval) (m : ChatManager.t) :
  (ChatManager.client_send now ty pl m = (false, []))
  \/ (exists cid,
        LoungeClient.state (ChatManager.client m) = LoungeClient.connected
        /\ LoungeClient.clientId (ChatManager.client m) = Some cid
        /\ ChatManager.client_send now ty pl m
           = (true, [ChatManager.ClientSend (Protocol.createMessage now ty pl cid)])).
Proof.
  unfold ChatManager.client_send, LoungeClient.send.
  destruct (LoungeClient.clientId (ChatManager.client m)) as [cid|]; [|now left].
  destruct (LoungeClient.state (ChatManager.client m));
    cbn [LoungeClient.state_eqb andb]; try now left.
  destruct (LoungeClient.socket (ChatManager.client m)); cbn [andb]; [|now left].
  destruct (LoungeClient.nonempty cid); [|now left].
  right. exists cid. repeat split.
Qed.

Lemma skipn_length_le {A : Type} (n : nat) (l : list A) :
  List.length (skipn n l) = (List.length l - n)%nat.
Proof. apply List.length_skipn. Qed.

(** X17.  The chat history is bounded: after [addMessage] it holds the
    last [min (n + 1) 100] messages of the old history followed by the new
    message, which is always its last entry; older entries are dropped
    from the front, and nothing is reordered. *)
Theorem addMessage_keeps_last_hundred :
  forall (message : ChatMessage) (m : ChatManager.t),
    let pushed := ChatManager.messages m ++ [message] in
    let kept := ChatManager.messages (ChatManager.addMessage message m) in
    List.length kept = Nat.min (List.length pushed) 100
    /\ kept = skipn (List.length pushed - List.length kept) pushed
    /\ last kept message = message
    /\ ChatManager.client (ChatManager.addMessage message m) = ChatManager.client m.
Proof.
  intros message m pushed kept. subst kept. unfold ChatManager.addMessage.
  cbn [ChatManager.messages ChatManager.client]. fold pushed.
  unfold ChatManager.MAX_MESSAGE_HISTORY, ChatManager.last_n.
  assert (Hlen : List.length pushed = S (List.length (ChatManager.messages m))).
  { subst pushed. rewrite List.length_app. cbn [List.length]. lia. }
  destruct (Nat.ltb_spec 100 (List.length pushed)) as [Hgt|Hle].
  - rewrite List.length_skipn.
    replace (List.length pushed - (List.length pushed - 100))%nat with 100%nat by lia.
    repeat split; [lia|].
    subst pushed. rewrite List.skipn_app.
    replace (List.length (ChatManager.messages m ++ [message]) - 100
             - List.length (ChatManager.messages m))%nat with 0%nat
      by (rewrite List.length_app; cbn [List.length]; lia).
    cbn [skipn]. apply List.last_last.
  - rewrite Nat.sub_diag. cbn [skipn]. repeat split; [lia|].
    subst pushed. apply List.last_last.
Qed.

Lemma all_space_trimStart (s : string) :
  all_space s = true -> trimStart s = EmptyString.
Proof.
  induction s as [|c r IH]; [reflexivity|]. cbn [all_space trimStart].
  destruct (is_space c); [exact IH | discriminate].
Qed.

Lemma trim_blank (s : string) : all_space s = true -> trim s = EmptyString.
Proof. intros H. unfold trim. now rewrite (all_space_trimStart s H). Qed.

Lemma trimEnd_empty (s : string) : trimEnd s = EmptyString -> all_space s = true.
Proof.
  destruct s as [|c r]; [reflexivity|]. cbn [trimEnd].
  destruct (all_space (String c r)); [reflexivity | discriminate].
Qed.

Lemma trimStart_all_space (s : string) :
  all_space (trimStart s) = all_space s.
Proof.
  induction s as [|c r IH]; [reflexivity|]. cbn [trimStart].
  destruct (is_space c) eqn:Hc.
  - rewrite IH. cbn [all_space]. now rewrite Hc.
  - reflexivity.
Qed.

(** X18.  [send] rejects an input of ASCII characters exactly when it
    consists of white space only (the empty input included): the result
    is unhandled with the text "Empty message", nothing is sent or shown
    and the history is unchanged; no other ASCII input is answered with
    that text. *)
Theorem send_blank_input :
  forall (now : Z) (input : string) (m : ChatManager.t),
    all_ascii input = true ->
    (all_space input = true ->
     ChatManager.send now input m
     = ({| ChatManager.handled := false; ChatManager.error := Some "Empty message" |}, m, []))
    /\ (ChatManager.error (fst (fst (ChatManager.send now input m))) = Some "Empty message"
        -> all_space input = true).
Proof.
  intros now input m _. split.
  - intros H. unfold ChatManager.send. now rewrite (trim_blank input H).
  - unfold ChatManager.send.
    destruct (LoungeClient.nonempty (trim input)) eqn:Hne; cbn [negb].
    + intros H. exfalso. revert H.
      destruct (startsWith (trim input) "/").
      * unfold ChatManager.handleCommand.
        destruct (String.eqb (ChatManager.command_of (trim input)) "me").
        { destruct (LoungeClient.nonempty (join_space (ChatManager.args_of (trim input))));
            cbn [negb]; [|cbn; discriminate].
          unfold ChatManager.sendEmote.
          destruct (ChatManager.is_connected m); cbn [negb]; [|cbn; discriminate].
          destruct (LoungeClient.nonempty (trim (join_space (ChatManager.args_of (trim input)))));
            cbn [negb]; [|cbn; discriminate].
          destruct (ChatManager.client_send now CHAT_EMOTE _ m) as [[|] ?]; cbn; discriminate. }
        destruct (ChatManager.is_whisper_command (ChatManager.command_of (trim input))).
        { destruct (List.length (ChatManager.args_of (trim input)) <? 2)%nat;
            [cbn; discriminate|].
          unfold ChatManager.sendWhisper.
          destruct (ChatManager.is_connected m); cbn [negb]; [|cbn; discriminate].
          destruct (LoungeClient.nonempty (trim (hd EmptyString (ChatManager.args_of (trim input)))));
            cbn [negb]; [|cbn; discriminate].
          destruct (LoungeClient.nonempty
                      (trim (join_space (tl (ChatManager.args_of (trim input))))));
            cbn [negb]; [|cbn; discriminate].
          destruct (ChatManager.client_send now CHAT_WHISPER _ m) as [[|] ?]; cbn; discriminate. }
        destruct (String.eqb (ChatManager.command_of (trim input)) "help");
          cbn; discriminate.
      * unfold ChatManager.sendChat.
        destruct (ChatManager.is_connected m); cbn [negb]; [|cbn; discriminate].
        destruct (ChatManager.client_send now CHAT_SEND _ m) as [[|] ?]; cbn; discriminate.
    + intros _. unfold trim in Hne.
      destruct (trimEnd (trimStart input)) eqn:Ht; [|discriminate].
      apply trimEnd_empty in Ht. now rewrite trimStart_all_space in Ht.
Qed.

Lemma send_blank_input_witness :
  ChatManager.send 0 "  " sample_chat
  = ({| ChatManager.handled := false; ChatManager.error := Some "Empty message" |},
     sample_chat, []).
Proof.
  exact (proj1 (send_blank_input 0 "  " sample_chat eq_refl) eq_refl).
Defined.

Lemma sendEmote_effects (now : Z) (action : string) (m : ChatManager.t)
      (msg : Protocol.BaseMessage) :
  In (ChatManager.ClientSend msg) (snd (ChatManager.sendEmote now action m)) ->
  LoungeClient.state (ChatManager.client m) = LoungeClient.connected
  /\ LoungeClient.clientId (ChatManager.client m) = Some (Protocol.senderId msg)
  /\ Protocol.type msg = CHAT_EMOTE
  /\ ChatManager.sendEmote now action m
     = ({| ChatManager.handled := true; ChatManager.error := None |},
        [ChatManager.ClientSend msg]).
Proof.
  unfold ChatManager.sendEmote.
  destruct (ChatManager.is_connected m); cbn [negb]; [|intros []].
  destruct (LoungeClient.nonempty (trim action)); cbn [negb]; [|intros []].
  destruct (client_send_effects now CHAT_EMOTE (JObject [("action", JString (trim action))]) m)
    as [E|(cid & Hs & Hi & E)]; rewrite E; cbn [snd].
  - intros [].
  - intros [H|[]]. injection H as <-. repeat split; assumption.
Qed.

Lemma sendWhisper_effects (now : Z) (target content : string) (m : ChatManager.t)
      (msg : Protocol.BaseMessage) :
  In (ChatManager.ClientSend msg) (snd (ChatManager.sendWhisper now target content m)) ->
  LoungeClient.state (ChatManager.client m) = LoungeClient.connected
  /\ LoungeClient.clientId (ChatManager.client m) = Some (Protocol.senderId msg)
  /\ Protocol.type msg = CHAT_WHISPER
  /\ ChatManager.sendWhisper now target content m
     = ({| ChatManager.handled := true; ChatManager.error := None |},
        [ChatManager.ClientSend msg]).
Proof.
  unfold ChatManager.sendWhisper.
  destruct (ChatManager.is_connected m); cbn [negb]; [|intros []].
  destruct (LoungeClient.nonempty (trim target)); cbn [negb]; [|intros []].
  destruct (LoungeClient.nonempty (trim content)); cbn [negb]; [|intros []].
  destruct (client_send_effects now CHAT_WHISPER
              (JObject [("targetName", JString (trim target));
                        ("content", JString (trim content))]) m)
    as [E|(cid & Hs & Hi & E)]; rewrite E; cbn [snd].
  - intros [].
  - intros [H|[]]. injection H as <-. repeat split; assumption.
Qed.

Lemma sendChat_effects (now : Z) (content : string) (m : ChatManager.t)
      (msg : Protocol.BaseMessage) :
  In (ChatManager.ClientSend msg) (snd (ChatManager.sendChat now content m)) ->
  LoungeClient.state (ChatManager.client m) = LoungeClient.connected
  /\ LoungeClient.clientId (ChatManager.client m) = Some (Protocol.senderId msg)
  /\ Protocol.type msg = CHAT_SEND
  /\ ChatManager.sendChat now content m
     = ({| ChatManager.handled := true; ChatManager.error := None |},
        [ChatManager.ClientSend msg]).
Proof.
  unfold ChatManager.sendChat.
  destruct (ChatManager.is_connected m); cbn [negb]; [|intros []].
  destruct (client_send_effects now CHAT_SEND (JObject [("content", JString content)]) m)
    as [E|(cid & Hs & Hi & E)]; rewrite E; cbn [snd].
  - intros [].
  - intros [H|[]]. injection H as <-. repeat split; assumption.
Qed.

(** X19.  Whatever the input, [send] hands at most one message to the
    socket, and only while the client is connected: the message is then a
    [chat:send], [chat:whisper] or [chat:emote] carrying the client's own
    id, it is the only effect, the result is handled without an error and
    the history is left as it was.  In particular nothing is ever sent
    while the client is not connected. *)
Theorem send_emits_only_when_connected :
  forall (now : Z) (input : string) (m : ChatManager.t) (msg : Protocol.BaseMessage),
    In (ChatManager.ClientSend msg) (snd (ChatManager.send now input m)) ->
    LoungeClient.state (ChatManager.client m) = LoungeClient.connected
    /\ LoungeClient.clientId (ChatManager.client m) = Some (Protocol.senderId msg)
    /\ (Protocol.type msg = CHAT_SEND \/ Protocol.type msg = CHAT_WHISPER
        \/ Protocol.type msg = CHAT_EMOTE)
    /\ ChatManager.send now input m
       = ({| ChatManager.handled := true; ChatManager.error := None |}, m,
          [ChatManager.ClientSend msg]).
Proof.
  intros now input m msg. unfold ChatManager.send.
  destruct (LoungeClient.nonempty (trim input)); cbn [negb]; [|intros []].
  destruct (startsWith (trim input) "/").
  - unfold ChatManager.handleCommand.
    destruct (String.eqb (ChatManager.command_of (trim input)) "me").
    { destruct (LoungeClient.nonempty (join_space (ChatManager.args_of (trim input))));
        cbn [negb]; [|intros []].
      destruct (ChatManager.sendEmote now (join_space (ChatManager.args_of (trim input))) m)
        as [res effects] eqn:E. cbn [snd]. intros H.
      pose proof (sendEmote_effects now (join_space (ChatManager.args_of (trim input))) m msg) as P.
      rewrite E in P. destruct (P H) as (Hs & Hi & Ht & Heq).
      injection Heq as -> ->. repeat split; auto. }
    destruct (ChatManager.is_whisper_command (ChatManager.command_of (trim input))).
    { destruct (List.length (ChatManager.args_of (trim input)) <? 2)%nat; [intros []|].
      destruct (ChatManager.sendWhisper now (hd EmptyString (ChatManager.args_of (trim input)))
                  (join_space (tl (ChatManager.args_of (trim input)))) m)
        as [res effects] eqn:E. cbn [snd]. intros H.
      pose proof (sendWhisper_effects now (hd EmptyString (ChatManager.args_of (trim input)))
                    (join_space (tl (ChatManager.args_of (trim input)))) m msg) as P.
      rewrite E in P. destruct (P H) as (Hs & Hi & Ht & Heq).
      injection Heq as -> ->. repeat split; auto. }
    destruct (String.eqb (ChatManager.command_of (trim input)) "help").
    + cbn. intros [H|[]]. discriminate H.
    + intros [].
  - destruct (ChatManager.sendChat now (trim input) m) as [res effects] eqn:E.
    cbn [snd]. intros H.
    pose proof (sendChat_effects now (trim input) m msg) as P.
    rewrite E in P. destruct (P H) as (Hs & Hi & Ht & Heq).
    injection Heq as -> ->. repeat split; auto.
Qed.

Lemma send_emits_only_when_connected_witness :
  LoungeClient.state (ChatManager.client sample_chat) = LoungeClient.connected.
Proof.
  refine (proj1 (send_emits_only_when_connected 5 "hello" sample_chat
                   (Protocol.createMessage 5 CHAT_SEND
                      (JObject [("content", JString "hello")]) "abc123") _)).
  left. reflexivity.
Defined.

(** ** Lounge server *)

Lemma In_get {V : Type} (k : string) (v : V) (m : JsMap.t V) :
  NoDup (JsMap.keys m) -> In (k, v) m -> JsMap.get k m = Some v.
Proof.
  induction m as [|[k' v'] r IH]; simpl; [tauto|].
  intros Hnd [H|H].
  - injection H as -> ->. now rewrite String.eqb_refl.
  - inversion_clear Hnd as [|? ? Hni Hr].
    destruct (String.eqb_spec k k') as [->|Hne]; [|now apply IH].
    exfalso. apply Hni. change k' with (fst (k', v)). now apply in_map.
Qed.

Lemma keyed_In {V : Type} (key_of : V -> string) (m : JsMap.t V) (k : string) (v : V) :
  keyed key_of m -> In (k, v) m -> key_of v = k.
Proof.
  unfold keyed. rewrite Forall_forall. intros H Hin. exact (H (k, v) Hin).
Qed.

Lemma is_open_OPEN (r : LoungeServer.ReadyState) :
  LoungeServer.is_open r = true <-> r = LoungeServer.OPEN.
Proof. destruct r; simpl; split; congruence. Qed.

Lemma heartbeat_loop_keyed (now : Z)
      (entries : list (string * LoungeServer.ClientConnection)) :
  forall s, keyed LoungeServer.id (LoungeServer.clients s) ->
            keyed LoungeServer.id
              (LoungeServer.clients (fst (LoungeServer.heartbeat_loop now entries s))).
Proof.
  induction entries as [|[k client] rest IH]; intros s H; cbn [LoungeServer.heartbeat_loop];
    [exact H|].
  destruct (negb (LoungeServer.isAlive client)).
  - specialize (IH (LoungeServer.remove_session k s)).
    destruct (LoungeServer.heartbeat_loop now rest (LoungeServer.remove_session k s)).
    apply IH. unfold LoungeServer.remove_session. cbn [LoungeServer.clients
      LoungeServer.with_clients]. now apply keyed_delete.
  - specialize (IH (LoungeServer.with_clients
                      (JsMap.modify k (LoungeServer.with_isAlive false)
                         (LoungeServer.clients s)) s)).
    destruct (LoungeServer.heartbeat_loop now rest _).
    apply IH. cbn [LoungeServer.clients LoungeServer.with_clients].
    now apply keyed_modify.
Qed.

(** Between two handler runs every connection is stored under its own
    id. *)
Lemma reachable_clients_keyed (gpc : string -> Z) (s : LoungeServer.t) :
  LoungeServer.Reachable gpc s -> keyed LoungeServer.id (LoungeServer.clients s).
Proof.
  induction 1 as [|now rnd ev s Hreach IH]; [constructor|].
  destruct ev; cbn [LoungeServer.step].
  - unfold LoungeServer.handleConnection, PlayerRegistry.addPlayer. cbv zeta.
    cbn [fst LoungeServer.clients LoungeServer.with_clients LoungeServer.with_registry].
    now apply keyed_set.
  - unfold LoungeServer.handleMessage. destruct parsed as [msg|]; [|exact IH].
    assert (Hrest : keyed LoungeServer.id
                      (LoungeServer.clients
                         (fst (if isPlayerMessage msg
                               then LoungeServer.handlePlayerMessage now client msg s
                               else if isChatMessage msg
                                    then (s, LoungeServer.handleChatMessage now rnd client msg s)
                                    else (s, LoungeServer.broadcast msg
                                               (Some (LoungeServer.id client)) s))))).
    { destruct (isPlayerMessage msg).
      - unfold LoungeServer.handlePlayerMessage. destruct (body msg); exact IH.
      - destruct (isChatMessage msg); exact IH. }
    destruct (body msg); try exact Hrest; [exact IH|].
    cbn [fst LoungeServer.clients LoungeServer.with_clients]. now apply keyed_modify.
  - unfold LoungeServer.handleDisconnect, LoungeServer.remove_session. cbv zeta.
    cbn [fst LoungeServer.clients LoungeServer.with_clients]. now apply keyed_delete.
  - unfold LoungeServer.handlePong. cbn [fst LoungeServer.clients LoungeServer.with_clients].
    now apply keyed_modify.
  - unfold LoungeServer.heartbeat. now apply heartbeat_loop_keyed.
  - unfold LoungeServer.playerTick.
    destruct (PlayerRegistry.tick now (LoungeServer.playerRegistry s)) as [registry [[u t0]|]];
      exact IH.
  - cbn [fst LoungeServer.clients LoungeServer.with_clients]. now apply keyed_modify.
Qed.

Lemma In_broadcast (msg : Message) (ex : option string) (s : LoungeServer.t)
      (e : LoungeServer.Effect) :
  In e (LoungeServer.broadcast msg ex s)
  <-> exists k c, In (k, c) (LoungeServer.clients s)
                  /\ LoungeServer.excluded k ex = false
                  /\ LoungeServer.readyState c = LoungeServer.OPEN
                  /\ e = LoungeServer.Send (LoungeServer.id c) msg.
Proof.
  unfold LoungeServer.broadcast. rewrite in_flat_map. split.
  - intros ([k c] & Hin & He).
    destruct (LoungeServer.excluded k ex) eqn:Ex; cbn [negb andb] in He; [destruct He|].
    destruct (LoungeServer.is_open (LoungeServer.readyState c)) eqn:Ho; [|destruct He].
    destruct He as [<-|[]]. exists k, c. repeat split; auto. now apply is_open_OPEN.
  - intros (k & c & Hin & Ex & Ho & ->). exists (k, c). split; [exact Hin|].
    rewrite Ex, Ho. now left.
Qed.

Lemma broadcast_NoDup (msg : Message) (ex : option string) (s : LoungeServer.t) :
  keyed LoungeServer.id (LoungeServer.clients s) ->
  NoDup (LoungeServer.session_ids s) ->
  NoDup (LoungeServer.broadcast msg ex s).
Proof.
  unfold LoungeServer.broadcast, LoungeServer.session_ids.
  induction (LoungeServer.clients s) as [|[k c] r IH]; intros Hk Hnd; [constructor|].
  inversion_clear Hk as [|? ? Hhd Htl]. inversion_clear Hnd as [|? ? Hni Hr].
  cbn [flat_map]. specialize (IH Htl Hr).
  destruct (negb (LoungeServer.excluded k ex)
            && LoungeServer.is_open (LoungeServer.readyState c)); [|exact IH].
  cbn [app]. constructor; [|exact IH].
  rewrite in_flat_map. intros ([k' c'] & Hin & He).
  destruct (negb (LoungeServer.excluded k' ex)
            && LoungeServer.is_open (LoungeServer.readyState c')); [|destruct He].
  destruct He as [He|[]]. injection He as He.
  apply Hni. simpl in Hhd. rewrite <- Hhd, <- He.
  rewrite (keyed_In LoungeServer.id r k' c' Htl Hin).
  change k' with (fst (k', c')). now apply in_map.
Qed.

Lemma handleMessage_relay (now : Z) (rnd : string) (client : LoungeServer.ClientConnection)
      (msg : Message) (s : LoungeServer.t) :
  type_of (body msg) <> "system:ping" ->
  type_of (body msg) <> "system:pong" ->
  isPlayerMessage msg = false ->
  isChatMessage msg = false ->
  LoungeServer.handleMessage now rnd client (Some msg) s
  = (s, LoungeServer.broadcast msg (Some (LoungeServer.id client)) s).
Proof.
  intros Hping Hpong Hp Hc. unfold LoungeServer.handleMessage.
  destruct (body msg) eqn:Hb; rewrite ?Hp, ?Hc; try reflexivity.
  - exfalso. now apply Hping.
  - exfalso. now apply Hpong.
Qed.

(** X20.  A message that is neither a ping or pong nor a player or chat
    message is relayed as it is: every other connection with an open
    socket receives it exactly once, the sender never does, and the
    server's state is unchanged.  (The two conditions on the clients map
    hold in every reachable state: [reachable_clients_keyed],
    [reachable_consistent].) *)
Theorem unrecognised_message_is_relayed_to_the_others :
  forall (now : Z) (rnd : string) (client : LoungeServer.ClientConnection)
         (msg : Message) (s : LoungeServer.t),
    type_of (body msg) <> "system:ping" ->
    type_of (body msg) <> "system:pong" ->
    isPlayerMessage msg = false ->
    isChatMessage msg = false ->
    keyed LoungeServer.id (LoungeServer.clients s) ->
    NoDup (LoungeServer.session_ids s) ->
    fst (LoungeServer.handleMessage now rnd client (Some msg) s) = s
    /\ (forall e, In e (snd (LoungeServer.handleMessage now rnd client (Some msg) s))
                  <-> exists c, open_client s c
                                /\ LoungeServer.id c <> LoungeServer.id client
                                /\ e = LoungeServer.Send (LoungeServer.id c) msg)
    /\ NoDup (snd (LoungeServer.handleMessage now rnd client (Some msg) s)).
Proof.
  intros now rnd client msg s Hping Hpong Hp Hc Hk Hnd.
  rewrite (handleMessage_relay now rnd client msg s Hping Hpong Hp Hc). cbn [fst snd].
  split; [reflexivity|]. split; [|now apply broadcast_NoDup].
  intros e. rewrite In_broadcast. unfold open_client. split.
  - intros (k & c & Hin & Ex & Ho & ->). exists c.
    pose proof (keyed_In LoungeServer.id _ k c Hk Hin) as Hid.
    repeat split; auto.
    + rewrite Hid. now apply In_get.
    + rewrite Hid. simpl in Ex. intros E. rewrite E, String.eqb_refl in Ex. discriminate.
  - intros (c & (Hget & Ho) & Hne & ->). exists (LoungeServer.id c), c.
    repeat split; auto.
    + now apply get_In_entry.
    + simpl. now apply String.eqb_neq.
Qed.

Lemma sample_server_keyed : keyed LoungeServer.id (LoungeServer.clients sample_server).
Proof. repeat constructor. Qed.

Lemma sample_server_NoDup : NoDup (LoungeServer.session_ids sample_server).
Proof. repeat constructor; simpl; intuition discriminate. Qed.

Lemma unrecognised_message_is_relayed_to_the_others_witness :
  NoDup (snd (LoungeServer.handleMessage 30 "r3"
                (sample_connection "aaaaaaaa" "Player_aaaaaa" LoungeServer.OPEN)
                (Some (createMessage 29 (Unknown "game:wave" JNull) "aaaaaaaa"))
                sample_server)).
Proof.
  refine (proj2 (proj2 (unrecognised_message_is_relayed_to_the_others 30 "r3"
                          (sample_connection "aaaaaaaa" "Player_aaaaaa" LoungeServer.OPEN)
                          (createMessage 29 (Unknown "game:wave" JNull) "aaaaaaaa")
                          sample_server _ _ eq_refl eq_refl
                          sample_server_keyed sample_server_NoDup)));
    discriminate.
Defined.

Lemma find_by_name_In (targetName : string) (cs : list LoungeServer.ClientConnection)
      (c : LoungeServer.ClientConnection) :
  LoungeServer.find_by_name targetName cs = Some c ->
  In c cs /\ toLowerCase (LoungeServer.username c) = toLowerCase targetName.
Proof.
  induction cs as [|c0 rest IH]; simpl; [discriminate|].
  destruct (String.eqb_spec (toLowerCase (LoungeServer.username c0)) (toLowerCase targetName))
    as [E|E].
  - intros H. injection H as <-. split; [now left | exact E].
  - intros H. destruct (IH H). split; [now right | assumption].
Qed.

(** X21.  Chat cannot be forged and whispers are private.  Whatever a
    chat message claims as its sender, everything the server sends in
    response comes from "server" and is either a chat message that names
    the connection's own id and username as sender, or an error returned
    to the sending connection only.  A whisper is sent to nobody but its
    sender and the connection it names as target, which is one of the
    server's connections. *)
Theorem chat_is_attributed_by_the_server :
  forall (now : Z) (rnd : string) (client : LoungeServer.ClientConnection)
         (msg : Message) (s : LoungeServer.t) (to : string) (out : Message),
    In (LoungeServer.Send to out) (LoungeServer.handleChatMessage now rnd client msg s) ->
    m_senderId out = "server"
    /\ match body out with
       | ChatBroadcast cm =>
           cm_senderId cm = LoungeServer.id client
           /\ cm_senderName cm = LoungeServer.username client
           /\ cm_timestamp cm = now
           /\ (cm_type cm = whisper ->
               exists target,
                 In target (JsMap.values (LoungeServer.clients s))
                 /\ cm_targetId cm = Some (LoungeServer.id target)
                 /\ cm_targetName cm = Some (LoungeServer.username target)
                 /\ (to = LoungeServer.id client \/ to = LoungeServer.id target))
       | ChatError _ _ => to = LoungeServer.id client
       | _ => False
       end.
Proof.
  intros now rnd client msg s to out. unfold LoungeServer.handleChatMessage.
  destruct (body msg) as [| | | | | | | | | | | |content|targetId targetName content|action| | | |];
    try (intros []).
  - rewrite In_broadcast. intros (k & c & _ & _ & _ & H). injection H as -> ->.
    cbn. repeat split. discriminate.
  - destruct (LoungeServer.find_target targetId targetName s) as [target|] eqn:Ht.
    + assert (Hin : In target (JsMap.values (LoungeServer.clients s))).
      { unfold LoungeServer.find_target in Ht.
        destruct (LoungeServer.truthy targetId).
        - apply get_In_entry in Ht. unfold JsMap.values.
          change target with (snd (LoungeServer.value targetId, target)). now apply in_map.
        - destruct (LoungeServer.truthy targetName); [|discriminate].
          now apply find_by_name_In in Ht. }
      unfold LoungeServer.sendTo. rewrite in_app_iff.
      intros [H|H].
      * destruct (LoungeServer.is_open (LoungeServer.readyState target)); [|destruct H].
        destruct H as [H|[]]. injection H as <- <-. cbn. repeat split.
        intros _. exists target. repeat split; auto.
      * destruct (LoungeServer.is_open (LoungeServer.readyState client)); [|destruct H].
        destruct H as [H|[]]. injection H as <- <-. cbn. repeat split.
        intros _. exists target. repeat split; auto.
    + unfold LoungeServer.sendTo.
      destruct (LoungeServer.is_open (LoungeServer.readyState client)); [|intros []].
      intros [H|[]]. injection H as <- <-. cbn. split; reflexivity.
  - rewrite In_broadcast. intros (k & c & _ & _ & _ & H). injection H as -> ->.
    cbn. repeat split. discriminate.
Qed.

Lemma chat_is_attributed_by_the_server_witness :
  m_senderId
    (createMessage 30
       (ChatBroadcast (createChatMessage 30 "r3" "aaaaaaaa" "Player_aaaaaa" "hi" chat None None))
       "server") = "server".
Proof.
  refine (proj1 (chat_is_attributed_by_the_server 30 "r3"
                   (sample_connection "aaaaaaaa" "Player_aaaaaa" LoungeServer.OPEN)
                   (createMessage 29 (ChatSend "hi") "mallory") sample_server
                   "bbbbbbbb" _ _)).
  vm_compute. right. left. reflexivity.
Defined.

(** X22.  A chat line or an emote is delivered to every connection with
    an open socket, the sender included, exactly once each and in the
    order of connection; it changes nothing in the server. *)
Theorem public_chat_reaches_every_open_client :
  forall (now : Z) (rnd : string) (client : LoungeServer.ClientConnection)
         (msg : Message) (s : LoungeServer.t) (text : string) (kind : ChatType),
    (body msg = ChatSend text /\ kind = chat) \/ (body msg = ChatEmote text /\ kind = emote) ->
    LoungeServer.handleMessage now rnd client (Some msg) s
    = (s, map (fun c => LoungeServer.Send (LoungeServer.id c)
                          (createMessage now
                             (ChatBroadcast
                                (createChatMessage now rnd (LoungeServer.id client)
                                   (LoungeServer.username client) text kind None None))
                             "server"))
              (filter (fun c => LoungeServer.is_open (LoungeServer.readyState c))
                      (JsMap.values (LoungeServer.clients s)))).
Proof.
  intros now rnd client msg s text kind H. unfold LoungeServer.handleMessage.
  assert (Hp : isPlayerMessage msg = false)
    by (unfold isPlayerMessage; destruct H as [[-> _]|[-> _]]; reflexivity).
  assert (Hc : isChatMessage msg = true)
    by (unfold isChatMessage; destruct H as [[-> _]|[-> _]]; reflexivity).
  unfold LoungeServer.handleChatMessage.
  destruct H as [[Hb ->]|[Hb ->]]; rewrite Hb, Hp, Hc; now rewrite broadcast_all.
Qed.

Lemma public_chat_reaches_every_open_client_witness :
  List.length
    (snd (LoungeServer.handleMessage 30 "r3"
            (sample_connection "aaaaaaaa" "Player_aaaaaa" LoungeServer.OPEN)
            (Some (createMessage 29 (ChatSend "hi") "aaaaaaaa")) sample_server)) = 2%nat.
Proof.
  rewrite (public_chat_reaches_every_open_client 30 "r3"
             (sample_connection "aaaaaaaa" "Player_aaaaaa" LoungeServer.OPEN)
             (createMessage 29 (ChatSend "hi") "aaaaaaaa") sample_server "hi" chat
             (or_introl (conj eq_refl eq_refl))).
  reflexivity.
Defined.

Lemma keys_app {V : Type} (a b : JsMap.t V) :
  JsMap.keys (a ++ b) = JsMap.keys a ++ JsMap.keys b.
Proof. apply map_app. Qed.

Lemma delete_app {V : Type} (k : string) (a b : JsMap.t V) :
  JsMap.delete k (a ++ b) = JsMap.delete k a ++ JsMap.delete k b.
Proof.
  induction a as [|[k' v'] r IH]; simpl; [reflexivity|].
  destruct (String.eqb k k'); [exact IH | now rewrite IH].
Qed.

Lemma delete_fresh {V : Type} (k : string) (m : JsMap.t V) :
  ~ In k (JsMap.keys m) -> JsMap.delete k m = m.
Proof. intros H. apply delete_absent. now apply get_None_not_In. Qed.

Lemma modify_fresh {V : Type} (k : string) (f : V -> V) (m : JsMap.t V) :
  ~ In k (JsMap.keys m) -> JsMap.modify k f m = m.
Proof.
  unfold JsMap.modify. induction m as [|[k' v'] r IH]; simpl; [reflexivity|].
  intros H. destruct (String.eqb_spec k k') as [->|Hne]; [exfalso; apply H; now left|].
  rewrite IH; [reflexivity | tauto].
Qed.

Lemma modify_app {V : Type} (k : string) (f : V -> V) (a b : JsMap.t V) :
  JsMap.modify k f (a ++ b) = JsMap.modify k f a ++ JsMap.modify k f b.
Proof. apply map_app. Qed.

Lemma heartbeat_loop_clients (now : Z)
      (entries : list (string * LoungeServer.ClientConnection)) :
  forall (visited : JsMap.t LoungeServer.ClientConnection) (s : LoungeServer.t),
    LoungeServer.clients s = visited ++ entries ->
    NoDup (JsMap.keys (visited ++ entries)) ->
    LoungeServer.clients (fst (LoungeServer.heartbeat_loop now entries s))
    = visited ++ swept entries.
Proof.
  induction entries as [|[k c] rest IH]; intros visited s Hs Hnd.
  - simpl. rewrite Hs. reflexivity.
  - assert (Hfresh : ~ In k (JsMap.keys visited) /\ ~ In k (JsMap.keys rest)).
    { rewrite keys_app in Hnd. simpl in Hnd. apply NoDup_remove_2 in Hnd.
      rewrite in_app_iff in Hnd. tauto. }
    destruct Hfresh as [Hv Hr].
    cbn [LoungeServer.heartbeat_loop]. unfold swept. cbn [filter snd].
    destruct (LoungeServer.isAlive c) eqn:Ha; cbn [negb].
    + specialize (IH (visited ++ [(k, LoungeServer.with_isAlive false c)])
                     (LoungeServer.with_clients
                        (JsMap.modify k (LoungeServer.with_isAlive false)
                           (LoungeServer.clients s)) s)).
      destruct (LoungeServer.heartbeat_loop now rest _) as [s2 later]. cbn [fst] in *.
      rewrite IH.
      * rewrite <- app_assoc. reflexivity.
      * cbn [LoungeServer.clients LoungeServer.with_clients]. rewrite Hs, modify_app.
        rewrite (modify_fresh k _ visited Hv). unfold JsMap.modify at 1. cbn [map fst snd].
        rewrite String.eqb_refl. fold (JsMap.modify k (LoungeServer.with_isAlive false) rest).
        rewrite (modify_fresh k _ rest Hr). now rewrite <- app_assoc.
      * rewrite <- app_assoc. cbn [app]. rewrite keys_app in *. exact Hnd.
    + specialize (IH visited (LoungeServer.remove_session k s)).
      destruct (LoungeServer.heartbeat_loop now rest _) as [s2 later]. cbn [fst] in *.
      apply IH.
      * unfold LoungeServer.remove_session.
        cbn [LoungeServer.clients LoungeServer.with_clients LoungeServer.with_registry].
        rewrite Hs, delete_app, (delete_fresh k visited Hv). cbn [JsMap.delete].
        rewrite String.eqb_refl. now rewrite (delete_fresh k rest Hr).
      * rewrite keys_app in *. simpl in Hnd. now apply NoDup_remove_1 in Hnd.
Qed.

Lemma broadcast_sends (msg : Message) (ex : option string) (s : LoungeServer.t)
      (e : LoungeServer.Effect) :
  In e (LoungeServer.broadcast msg ex s) -> exists to, e = LoungeServer.Send to msg.
Proof.
  rewrite In_broadcast. intros (k & c & _ & _ & _ & ->). now eexists.
Qed.

Lemma heartbeat_loop_terminate (now : Z)
      (entries : list (string * LoungeServer.ClientConnection)) :
  forall (s : LoungeServer.t) (i : string),
    In (LoungeServer.SocketTerminate i) (snd (LoungeServer.heartbeat_loop now entries s))
    <-> exists k c, In (k, c) entries /\ LoungeServer.isAlive c = false
                    /\ LoungeServer.id c = i.
Proof.
  induction entries as [|[k c] rest IH]; intros s i.
  - simpl. split; [intros [] | intros (? & ? & [] & _)].
  - cbn [LoungeServer.heartbeat_loop].
    destruct (LoungeServer.isAlive c) eqn:Ha; cbn [negb].
    + specialize (IH (LoungeServer.with_clients
                        (JsMap.modify k (LoungeServer.with_isAlive false)
                           (LoungeServer.clients s)) s) i).
      destruct (LoungeServer.heartbeat_loop now rest _) as [s2 later]. cbn [fst snd] in *.
      split.
      * intros [H|H]; [discriminate H|]. apply IH in H.
        destruct H as (k' & c' & Hin & Hd & Hi). exists k', c'. repeat split; auto.
        now right.
      * intros (k' & c' & [H|Hin] & Hd & Hi).
        { injection H as -> ->. congruence. }
        right. apply IH. now exists k', c'.
    + specialize (IH (LoungeServer.remove_session k s) i).
      destruct (LoungeServer.heartbeat_loop now rest _) as [s2 later]. cbn [fst snd] in *.
      split.
      * intros [H|H].
        { injection H as <-. exists k, c. repeat split; auto. now left. }
        rewrite !in_app_iff in H. destruct H as [H|[H|H]].
        { apply broadcast_sends in H. destruct H as [? H]. discriminate H. }
        { apply broadcast_sends in H. destruct H as [? H]. discriminate H. }
        apply IH in H. destruct H as (k' & c' & Hin & Hd & Hi).
        exists k', c'. repeat split; auto. now right.
      * intros (k' & c' & [H|Hin] & Hd & Hi).
        { injection H as -> ->. left. now rewrite Hi. }
        right. rewrite !in_app_iff. right. right. apply IH. now exists k', c'.
Qed.

Lemma heartbeat_loop_ping (now : Z)
      (entries : list (string * LoungeServer.ClientConnection)) :
  forall (s : LoungeServer.t) (i : string),
    In (LoungeServer.SocketPing i) (snd (LoungeServer.heartbeat_loop now entries s))
    <-> exists k c, In (k, c) entries /\ LoungeServer.isAlive c = true
                    /\ LoungeServer.id c = i.
Proof.
  induction entries as [|[k c] rest IH]; intros s i.
  - simpl. split; [intros [] | intros (? & ? & [] & _)].
  - cbn [LoungeServer.heartbeat_loop].
    destruct (LoungeServer.isAlive c) eqn:Ha; cbn [negb].
    + specialize (IH (LoungeServer.with_clients
                        (JsMap.modify k (LoungeServer.with_isAlive false)
                           (LoungeServer.clients s)) s) i).
      destruct (LoungeServer.heartbeat_loop now rest _) as [s2 later]. cbn [fst snd] in *.
      split.
      * intros [H|H].
        { injection H as <-. exists k, c. repeat split; auto. now left. }
        apply IH in H. destruct H as (k' & c' & Hin & Hd & Hi).
        exists k', c'. repeat split; auto. now right.
      * intros (k' & c' & [H|Hin] & Hd & Hi).
        { injection H as -> ->. left. now rewrite Hi. }
        right. apply IH. now exists k', c'.
    + specialize (IH (LoungeServer.remove_session k s) i).
      destruct (LoungeServer.heartbeat_loop now rest _) as [s2 later]. cbn [fst snd] in *.
      split.
      * intros [H|H]; [discriminate H|].
        rewrite !in_app_iff in H. destruct H as [H|[H|H]].
        { apply broadcast_sends in H. destruct H as [? H]. discriminate H. }
        { apply broadcast_sends in H. destruct H as [? H]. discriminate H. }
        apply IH in H. destruct H as (k' & c' & Hin & Hd & Hi).
        exists k', c'. repeat split; auto. now right.
      * intros (k' & c' & [H|Hin] & Hd & Hi).
        { injection H as -> ->. congruence. }
        right. rewrite !in_app_iff. right. right. apply IH. now exists k', c'.
Qed.

Lemma swept_keys_NoDup (cs : JsMap.t LoungeServer.ClientConnection) :
  NoDup (JsMap.keys cs) -> NoDup (JsMap.keys (swept cs)).
Proof.
  unfold swept, JsMap.keys. rewrite map_map. cbn [fst].
  induction cs as [|[k c] r IH]; intros H; [constructor|].
  inversion_clear H as [|? ? Hni Hr]. cbn [filter snd].
  destruct (LoungeServer.isAlive c); [|now apply IH].
  cbn [map fst]. constructor; [|now apply IH].
  intros Hin. apply Hni. apply in_map_iff in Hin. destruct Hin as ([k' c'] & Hk & Hin).
  apply filter_In in Hin. destruct Hin as [Hin _]. simpl in Hk. subst k'.
  change k with (fst (k, c')). now apply in_map.
Qed.

Lemma swept_swept (cs : JsMap.t LoungeServer.ClientConnection) : swept (swept cs) = [].
Proof.
  unfold swept. induction cs as [|[k c] r IH]; [reflexivity|].
  cbn [filter snd]. destruct (LoungeServer.isAlive c); [|exact IH].
  cbn [map filter fst snd LoungeServer.isAlive LoungeServer.with_isAlive]. exact IH.
Qed.

(** X23.  One heartbeat sweep keeps exactly the connections that were
    marked alive, in their order, and marks each of them as not alive; it
    terminates the socket of every connection that was not alive and
    pings every one that was.  A connection that answers no ping between
    two sweeps is therefore gone after the second: two sweeps in a row
    leave no connection at all. *)
Theorem heartbeat_drops_silent_clients :
  forall (now : Z) (s : LoungeServer.t),
    NoDup (LoungeServer.session_ids s) ->
    LoungeServer.clients (fst (LoungeServer.heartbeat now s)) = swept (LoungeServer.clients s)
    /\ (forall i, In (LoungeServer.SocketTerminate i) (snd (LoungeServer.heartbeat now s))
                  <-> exists k c, In (k, c) (LoungeServer.clients s)
                                  /\ LoungeServer.isAlive c = false
                                  /\ LoungeServer.id c = i)
    /\ (forall i, In (LoungeServer.SocketPing i) (snd (LoungeServer.heartbeat now s))
                  <-> exists k c, In (k, c) (LoungeServer.clients s)
                                  /\ LoungeServer.isAlive c = true
                                  /\ LoungeServer.id c = i)
    /\ (forall later,
          LoungeServer.clients
            (fst (LoungeServer.heartbeat later (fst (LoungeServer.heartbeat now s)))) = []).
Proof.
  intros now s Hnd. unfold LoungeServer.session_ids in Hnd.
  assert (Hsweep : forall t0 s0, NoDup (JsMap.keys (LoungeServer.clients s0)) ->
            LoungeServer.clients (fst (LoungeServer.heartbeat t0 s0))
            = swept (LoungeServer.clients s0)).
  { intros t0 s0 H0. unfold LoungeServer.heartbeat.
    exact (heartbeat_loop_clients t0 (LoungeServer.clients s0) [] s0 eq_refl H0). }
  split; [now apply Hsweep|]. split; [|split].
  - intros i. apply heartbeat_loop_terminate.
  - intros i. apply heartbeat_loop_ping.
  - intros later. rewrite Hsweep.
    + rewrite (Hsweep now s Hnd). apply swept_swept.
    + rewrite (Hsweep now s Hnd). now apply swept_keys_NoDup.
Qed.

Lemma heartbeat_drops_silent_clients_witness :
  LoungeServer.clients (fst (LoungeServer.heartbeat 40 sample_server))
  = swept (LoungeServer.clients sample_server).
Proof.
  exact (proj1 (heartbeat_drops_silent_clients 40 sample_server sample_server_NoDup)).
Defined.

Lemma In_delete {V : Type} (k k' : string) (v : V) (m : JsMap.t V) :
  In (k', v) (JsMap.delete k m) <-> k' <> k /\ In (k', v) m.
Proof.
  induction m as [|[k0 v0] r IH]; simpl; [tauto|].
  destruct (String.eqb_spec k k0) as [->|Hne].
  - rewrite IH. split.
    + intros [H1 H2]. tauto.
    + intros [H1 [H2|H2]]; [injection H2 as -> ->; contradiction | tauto].
  - simpl. rewrite IH. split.
    + intros [H|[H1 H2]]; [injection H as -> ->; split; [congruence | now left] | tauto].
    + intros [H1 [H2|H2]]; tauto.
Qed.

(** X24.  The connection handshake.  A newly accepted connection with an
    open socket is first told its id, then sent the list of all players,
    in which it finds itself under that id and the default name built from
    the id's first six characters.  The announcement of the new player
    goes to the other connections and never to the newcomer, while the
    system chat line about the join reaches the newcomer too. *)
Theorem connection_handshake :
  forall (generatePlayerColor : string -> Z) (now : Z) (rnd : string) (clientId : string)
         (s : LoungeServer.t),
    keyed LoungeServer.id (LoungeServer.clients s) ->
    let s' := fst (LoungeServer.handleConnection generatePlayerColor now rnd clientId
                     LoungeServer.OPEN s) in
    let effects := snd (LoungeServer.handleConnection generatePlayerColor now rnd clientId
                          LoungeServer.OPEN s) in
    let uname := ("Player_" ++ String.substring 0 6 clientId)%string in
    let me := createDefaultPlayerState generatePlayerColor clientId uname None in
    exists rest,
      effects
      = LoungeServer.Send clientId (createMessage now (Connect clientId now) "server")
        :: LoungeServer.Send clientId
             (createMessage now
                (PlayerStateMsg (PlayerRegistry.getAllPlayers (LoungeServer.playerRegistry s')))
                "server")
        :: rest
      /\ In me (PlayerRegistry.getAllPlayers (LoungeServer.playerRegistry s'))
      /\ PlayerRegistry.getPlayer clientId (LoungeServer.playerRegistry s') = Some me
      /\ (forall to joined out,
            In (LoungeServer.Send to out) rest -> body out = PlayerJoin joined ->
            to <> clientId /\ joined = me)
      /\ In (LoungeServer.Send clientId
               (createMessage now
                  (ChatSystem (createChatMessage now rnd "server" "System"
                                 (uname ++ " joined the lounge")%string system None None))
                  "server")) rest.
Proof.
  intros gpc now rnd clientId s Hk s' effects uname me.
  set (client := {| LoungeServer.id := clientId; LoungeServer.readyState := LoungeServer.OPEN;
                    LoungeServer.isAlive := true; LoungeServer.connectedAt := now;
                    LoungeServer.lastPingSeq := 0; LoungeServer.username := uname |}).
  set (mine := {| PlayerRegistry.pub := me; PlayerRegistry.lastUpdate := now;
                  PlayerRegistry.dirty := true |}).
  set (s2 := {| LoungeServer.clients := JsMap.set clientId client (LoungeServer.clients s);
                LoungeServer.playerRegistry :=
                  PlayerRegistry.with_players
                    (JsMap.set clientId mine
                       (PlayerRegistry.players (LoungeServer.playerRegistry s)))
                    (LoungeServer.playerRegistry s) |}).
  assert (E : LoungeServer.handleConnection gpc now rnd clientId LoungeServer.OPEN s
              = (s2,
                 LoungeServer.Send clientId (createMessage now (Connect clientId now) "server")
                 :: LoungeServer.Send clientId
                      (createMessage now
                         (PlayerStateMsg
                            (PlayerRegistry.getAllPlayers (LoungeServer.playerRegistry s2)))
                         "server")
                 :: LoungeServer.broadcast (createMessage now (PlayerJoin me) "server")
                      (Some clientId) s2
                 ++ LoungeServer.broadcast
                      (createMessage now
                         (ChatSystem (createChatMessage now rnd "server" "System"
                                        (SystemMessages.playerJoin uname) system None None))
                         "server") None s2)) by reflexivity.
  subst s' effects. rewrite E. cbn [fst snd]. clear E.
  assert (Hget : JsMap.get clientId
                   (PlayerRegistry.players (LoungeServer.playerRegistry s2))
                 = Some mine).
  { subst s2. cbn [LoungeServer.playerRegistry PlayerRegistry.players
                     PlayerRegistry.with_players]. apply get_set_same. }
  assert (Hk2 : keyed LoungeServer.id (LoungeServer.clients s2)).
  { subst s2. cbn [LoungeServer.clients]. now apply keyed_set. }
  eexists. split; [reflexivity|]. split; [|split; [|split]].
  - unfold PlayerRegistry.getAllPlayers.
    change me with (PlayerRegistry.toPublicState mine).
    apply in_map. unfold JsMap.values.
    change mine with (snd (clientId, mine)).
    apply in_map. now apply get_In_entry.
  - unfold PlayerRegistry.getPlayer. rewrite Hget. reflexivity.
  - intros to joined out Hin Hb. rewrite in_app_iff in Hin. destruct Hin as [Hin|Hin].
    + apply In_broadcast in Hin. destruct Hin as (k & c & Hc & Ex & _ & E).
      injection E as -> ->. cbn in Hb. injection Hb as <-. split; [|reflexivity].
      rewrite (keyed_In LoungeServer.id _ k c Hk2 Hc). simpl in Ex.
      intros ->. rewrite String.eqb_refl in Ex. discriminate.
    + apply In_broadcast in Hin. destruct Hin as (k & c & _ & _ & _ & E).
      injection E as -> ->. discriminate Hb.
  - rewrite in_app_iff. right. apply In_broadcast. exists clientId, client.
    repeat split. apply get_In_entry. subst s2. cbn [LoungeServer.clients].
    apply get_set_same.
Qed.

Lemma connection_handshake_witness :
  PlayerRegistry.getPlayer "cccccccc"
    (LoungeServer.playerRegistry
       (fst (LoungeServer.handleConnection sample_color 30 "r3" "cccccccc"
               LoungeServer.OPEN sample_server)))
  = Some (createDefaultPlayerState sample_color "cccccccc" "Player_cccccc" None).
Proof.
  destruct (connection_handshake sample_color 30 "r3" "cccccccc" sample_server
              sample_server_keyed) as (rest & _ & _ & H & _).
  exact H.
Defined.

(** X25.  A position message moves the sender's own player and nobody
    else's, whatever player id its payload names: every other player's
    state is exactly as before, nothing is sent in response, and the
    connections are untouched. *)
Theorem position_message_moves_only_the_sender :
  forall (now : Z) (rnd : string) (client : LoungeServer.ClientConnection)
         (msg : Message) (update : PlayerPositionUpdate) (s : LoungeServer.t),
    body msg = PlayerPosition update ->
    let s' := fst (LoungeServer.handleMessage now rnd client (Some msg) s) in
    snd (LoungeServer.handleMessage now rnd client (Some msg) s) = []
    /\ LoungeServer.clients s' = LoungeServer.clients s
    /\ (forall other, other <> LoungeServer.id client ->
          JsMap.get other (PlayerRegistry.players (LoungeServer.playerRegistry s'))
          = JsMap.get other (PlayerRegistry.players (LoungeServer.playerRegistry s)))
    /\ (forall p, PlayerRegistry.getPlayer (LoungeServer.id client) (LoungeServer.playerRegistry s)
                  = Some p ->
          PlayerRegistry.getPlayer (LoungeServer.id client) (LoungeServer.playerRegistry s')
          = Some {| id := id p; username := username p;
                    position := u_position update; rotation := u_rotation update;
                    avatar := avatar p; status := status p; color := color p |}).
Proof.
  intros now rnd client msg update s Hb s'. subst s'.
  unfold LoungeServer.handleMessage. rewrite Hb.
  assert (Hp : isPlayerMessage msg = true) by (unfold isPlayerMessage; now rewrite Hb).
  rewrite Hp. unfold LoungeServer.handlePlayerMessage. rewrite Hb. cbn [fst snd].
  split; [reflexivity|]. split; [reflexivity|].
  unfold PlayerRegistry.updatePosition, PlayerRegistry.getPlayer.
  destruct (JsMap.get (LoungeServer.id client)
              (PlayerRegistry.players (LoungeServer.playerRegistry s))) as [mine|] eqn:Hm;
    cbn [fst LoungeServer.playerRegistry LoungeServer.with_registry PlayerRegistry.players
           PlayerRegistry.with_players].
  - split.
    + intros other Hne. rewrite get_modify.
      destruct (String.eqb_spec (LoungeServer.id client) other); [congruence | reflexivity].
    + intros p Hp'. injection Hp' as <-. rewrite get_modify, String.eqb_refl, Hm. reflexivity.
  - split; [reflexivity | discriminate].
Qed.

Lemma position_message_moves_only_the_sender_witness :
  JsMap.get "bbbbbbbb"
    (PlayerRegistry.players
       (LoungeServer.playerRegistry
          (fst (LoungeServer.handleMessage 30 "r3"
                  (sample_connection "aaaaaaaa" "Player_aaaaaa" LoungeServer.OPEN)
                  (Some (createMessage 29
                           (PlayerPosition {| u_id := "bbbbbbbb"; u_position := vec 1 2 3;
                                              u_rotation := vec 0 0 0; u_timestamp := 29 |})
                           "aaaaaaaa"))
                  sample_server))))
  = JsMap.get "bbbbbbbb" (PlayerRegistry.players (LoungeServer.playerRegistry sample_server)).
Proof.
  refine (proj1 (proj2 (proj2 (position_message_moves_only_the_sender 30 "r3"
            (sample_connection "aaaaaaaa" "Player_aaaaaa" LoungeServer.OPEN)
            (createMessage 29
               (PlayerPosition {| u_id := "bbbbbbbb"; u_position := vec 1 2 3;
                                  u_rotation := vec 0 0 0; u_timestamp := 29 |})
               "aaaaaaaa")
            _ sample_server eq_refl))) "bbbbbbbb" _).
  discriminate.
Defined.

(** X26.  When a connection closes, its session and its player are
    removed, and every remaining connection with an open socket receives
    three messages in this order: the player left, the system chat line
    about it, and the disconnect notice.  The closed connection itself is
    sent nothing. *)
Theorem disconnect_notifies_the_others :
  forall (now : Z) (rnd : string) (client : LoungeServer.ClientConnection)
         (code : Z) (reason : string) (s : LoungeServer.t),
    keyed LoungeServer.id (LoungeServer.clients s) ->
    let s' := fst (LoungeServer.handleDisconnect now rnd client code reason s) in
    let effects := snd (LoungeServer.handleDisconnect now rnd client code reason s) in
    let notices :=
      [createMessage now (PlayerLeave (LoungeServer.id client) reason) "server";
       createMessage now
         (ChatSystem (createChatMessage now rnd "server" "System"
                        (LoungeServer.username client ++ " left the lounge")%string
                        system None None)) "server";
       createMessage now (Disconnect (LoungeServer.id client) reason) "server"] in
    let remaining :=
      filter (fun c => LoungeServer.is_open (LoungeServer.readyState c))
             (JsMap.values (LoungeServer.clients s')) in
    JsMap.get (LoungeServer.id client) (LoungeServer.clients s') = None
    /\ PlayerRegistry.getPlayer (LoungeServer.id client) (LoungeServer.playerRegistry s') = None
    /\ effects
       = flat_map (fun out => map (fun c => LoungeServer.Send (LoungeServer.id c) out) remaining)
                  notices
    /\ (forall out, ~ In (LoungeServer.Send (LoungeServer.id client) out) effects).
Proof.
  intros now rnd client code reason s Hk s' effects notices remaining.
  subst s' effects notices remaining. unfold LoungeServer.handleDisconnect.
  cbv zeta. cbn [fst snd flat_map]. rewrite !broadcast_all, app_nil_r.
  split; [|split; [|split]].
  - unfold LoungeServer.remove_session. cbn [LoungeServer.clients LoungeServer.with_clients].
    apply get_delete_same.
  - unfold LoungeServer.remove_session, PlayerRegistry.getPlayer, PlayerRegistry.removePlayer.
    cbn [LoungeServer.playerRegistry LoungeServer.with_clients LoungeServer.with_registry].
    destruct (JsMap.get (LoungeServer.id client)
                (PlayerRegistry.players (LoungeServer.playerRegistry s))) eqn:Hg;
      cbn [fst PlayerRegistry.players PlayerRegistry.with_players].
    + now rewrite get_delete_same.
    + now rewrite Hg.
  - reflexivity.
  - intros out Hin. rewrite !in_app_iff in Hin.
    assert (Hno : forall m0, ~ In (LoungeServer.Send (LoungeServer.id client) out)
                    (map (fun c => LoungeServer.Send (LoungeServer.id c) m0)
                       (filter (fun c => LoungeServer.is_open (LoungeServer.readyState c))
                          (JsMap.values
                             (LoungeServer.clients
                                (LoungeServer.remove_session (LoungeServer.id client) s)))))).
    { intros m0 H. apply in_map_iff in H. destruct H as (c & E & Hc).
      injection E as Hid _. apply filter_In in Hc. destruct Hc as [Hc _].
      unfold JsMap.values in Hc. apply in_map_iff in Hc. destruct Hc as ([k c'] & E' & Hc).
      simpl in E'. subst c'.
      unfold LoungeServer.remove_session in Hc.
      cbn [LoungeServer.clients LoungeServer.with_clients] in Hc.
      apply In_delete in Hc. destruct Hc as [Hne Hc].
      apply Hne. rewrite <- (keyed_In LoungeServer.id _ k c Hk Hc). exact Hid. }
    destruct Hin as [H|[H|H]]; exact (Hno _ H).
Qed.

Lemma disconnect_notifies_the_others_witness :
  JsMap.get "aaaaaaaa"
    (LoungeServer.clients
       (fst (LoungeServer.handleDisconnect 30 "r3"
               (sample_connection "aaaaaaaa" "Player_aaaaaa" LoungeServer.OPEN)
               1001 "bye" sample_server))) = None.
Proof.
  exact (proj1 (disconnect_notifies_the_others 30 "r3"
                  (sample_connection "aaaaaaaa" "Player_aaaaaa" LoungeServer.OPEN)
                  1001 "bye" sample_server sample_server_keyed)).
Defined.

(** ** Player manager *)

Lemma full_state_step_local (acc : PlayerManager.t) (st : PlayerState) :
  PlayerManager.localPlayerId
    (if PlayerManager.is_local (id st) acc then acc else PlayerManager.addRemotePlayer st acc)
  = PlayerManager.localPlayerId acc.
Proof.
  destruct (PlayerManager.is_local (id st) acc); [reflexivity|].
  unfold PlayerManager.addRemotePlayer.
  now destruct (JsMap.has (id st) (PlayerManager.remotePlayers acc)).
Qed.

Lemma full_state_fold (players : list PlayerState) :
  forall (acc : PlayerManager.t) (k : string),
    let m' := fold_left (fun acc st => if PlayerManager.is_local (id st) acc then acc
                                       else PlayerManager.addRemotePlayer st acc)
                        players acc in
    PlayerManager.localPlayerId m' = PlayerManager.localPlayerId acc
    /\ JsMap.get k (PlayerManager.remotePlayers m')
       = match JsMap.get k (PlayerManager.remotePlayers acc) with
         | Some r => Some r
         | None =>
             if PlayerManager.is_local k acc then None
             else option_map RemotePlayer.create
                    (find (fun st => String.eqb (id st) k) players)
         end.
Proof.
  induction players as [|st rest IH]; intros acc k; cbn [fold_left find option_map].
  - split; [reflexivity|].
    destruct (JsMap.get k (PlayerManager.remotePlayers acc)); [reflexivity|].
    now destruct (PlayerManager.is_local k acc).
  - cbv zeta in IH.
    destruct (IH (if PlayerManager.is_local (id st) acc then acc
                  else PlayerManager.addRemotePlayer st acc) k) as [Hl Hg].
    rewrite Hl, Hg, full_state_step_local. split; [reflexivity|].
    assert (Hloc : forall a b, PlayerManager.localPlayerId a = PlayerManager.localPlayerId b ->
                               PlayerManager.is_local k a = PlayerManager.is_local k b).
    { intros a b E. unfold PlayerManager.is_local. now rewrite E. }
    destruct (PlayerManager.is_local (id st) acc) eqn:Hst.
    + destruct (JsMap.get k (PlayerManager.remotePlayers acc)); [reflexivity|].
      destruct (PlayerManager.is_local k acc) eqn:Hk; [reflexivity|].
      destruct (String.eqb_spec (id st) k) as [E|E]; [congruence | reflexivity].
    + unfold PlayerManager.addRemotePlayer, JsMap.has.
      destruct (JsMap.get (id st) (PlayerManager.remotePlayers acc)) as [r0|] eqn:Hh.
      * destruct (String.eqb_spec (id st) k) as [E|E]; [|reflexivity].
        rewrite <- E, Hh. reflexivity.
      * cbn [PlayerManager.remotePlayers].
        unfold PlayerManager.is_local in *. cbn [PlayerManager.localPlayerId].
        destruct (String.eqb_spec (id st) k) as [E|E].
        -- rewrite <- E, get_set_same, Hh, Hst. reflexivity.
        -- rewrite get_set_other by congruence. reflexivity.
Qed.

(** X27.  A full state message replaces the remote players: afterwards
    the remote player stored under an id is the one freshly created from
    the first state of the list with that id, there is none for an id the
    list does not name, whoever was tracked before, and there is never one
    for the local player. *)
Theorem handleFullState_replaces_remote_players :
  forall (players : list PlayerState) (m : PlayerManager.t) (k : string),
    let m' := PlayerManager.handleFullState players m in
    PlayerManager.localPlayerId m' = PlayerManager.localPlayerId m
    /\ JsMap.get k (PlayerManager.remotePlayers m')
       = if PlayerManager.is_local k m then None
         else option_map RemotePlayer.create (find (fun st => String.eqb (id st) k) players).
Proof.
  intros players m k. unfold PlayerManager.handleFullState.
  exact (full_state_fold players (PlayerManager.clearAllPlayers m) k).
Qed.

Lemma apply_update_frame (m : PlayerManager.t) (update : PlayerPositionUpdate) :
  JsMap.keys (PlayerManager.remotePlayers (PlayerManager.apply_update m update))
  = JsMap.keys (PlayerManager.remotePlayers m)
  /\ forall k,
       JsMap.get k (PlayerManager.remotePlayers (PlayerManager.apply_update m update))
       = if String.eqb (u_id update) k && negb (PlayerManager.is_local k m)
         then option_map (RemotePlayer.pushPositionUpdate update)
                (JsMap.get k (PlayerManager.remotePlayers m))
         else JsMap.get k (PlayerManager.remotePlayers m).
Proof.
  unfold PlayerManager.apply_update.
  destruct (PlayerManager.is_local (u_id update) m) eqn:Hl.
  - split; [reflexivity|]. intros k.
    destruct (String.eqb_spec (u_id update) k) as [<-|E]; [|reflexivity].
    now rewrite Hl.
  - destruct (JsMap.get (u_id update) (PlayerManager.remotePlayers m)) eqn:Hg;
      cbn [PlayerManager.remotePlayers].
    + split; [apply keys_modify|]. intros k. rewrite get_modify.
      destruct (String.eqb_spec (u_id update) k) as [<-|E]; [|reflexivity].
      now rewrite Hl.
    + split; [reflexivity|]. intros k.
      destruct (String.eqb_spec (u_id update) k) as [<-|E]; [|reflexivity].
      rewrite Hl, Hg. reflexivity.
Qed.

(** X28.  A batch of position updates only feeds the buffers of players
    that are already tracked: it creates and removes no player and keeps
    their order, it leaves untouched every player the batch does not name
    as well as whatever is stored under the local player's id, and of a
    player it does name it changes neither the identity, the state, the
    targets nor the rendered position. *)
Theorem handleBatchPositionUpdate_only_feeds_buffers :
  forall (updates : list PlayerPositionUpdate) (m : PlayerManager.t),
    let m' := PlayerManager.handleBatchPositionUpdate updates m in
    PlayerManager.localPlayerId m' = PlayerManager.localPlayerId m
    /\ JsMap.keys (PlayerManager.remotePlayers m') = JsMap.keys (PlayerManager.remotePlayers m)
    /\ (forall k, (forall u, In u updates -> u_id u <> k) \/ PlayerManager.is_local k m = true ->
          JsMap.get k (PlayerManager.remotePlayers m')
          = JsMap.get k (PlayerManager.remotePlayers m))
    /\ (forall k p', JsMap.get k (PlayerManager.remotePlayers m') = Some p' ->
          exists p, JsMap.get k (PlayerManager.remotePlayers m) = Some p
                    /\ RemotePlayer.rp_id p' = RemotePlayer.rp_id p
                    /\ RemotePlayer.state p' = RemotePlayer.state p
                    /\ RemotePlayer.targetPosition p' = RemotePlayer.targetPosition p
                    /\ RemotePlayer.targetRotation p' = RemotePlayer.targetRotation p
                    /\ RemotePlayer.meshPosition p' = RemotePlayer.meshPosition p
                    /\ RemotePlayer.meshRotation p' = RemotePlayer.meshRotation p).
Proof.
  unfold PlayerManager.handleBatchPositionUpdate.
  induction updates as [|u rest IH]; intros m; cbn [fold_left].
  - repeat split; try reflexivity. intros k p' H. exists p'. repeat split; assumption.
  - destruct (IH (PlayerManager.apply_update m u)) as (Hl & Hk & Hother & Hsame).
    destruct (apply_update_frame m u) as [Hk1 Hg1].
    assert (Hloc : forall k, PlayerManager.is_local k (PlayerManager.apply_update m u)
                             = PlayerManager.is_local k m).
    { intros k. unfold PlayerManager.is_local. now rewrite apply_update_local. }
    split; [now rewrite Hl, apply_update_local|].
    split; [now rewrite Hk, Hk1|]. split.
    + intros k Hcase. rewrite Hother.
      * rewrite Hg1. destruct Hcase as [Hno|Hme].
        -- destruct (String.eqb_spec (u_id u) k) as [E|E]; [|reflexivity].
           exfalso. apply (Hno u); [now left | exact E].
        -- rewrite Hme. now rewrite andb_false_r.
      * destruct Hcase as [Hno|Hme]; [left | right; now rewrite Hloc].
        intros u' Hin. apply Hno. now right.
    + intros k p' Hp'. destruct (Hsame k p' Hp') as (p1 & Hp1 & E1 & E2 & E3 & E4 & E5 & E6).
      rewrite Hg1 in Hp1.
      destruct (String.eqb (u_id u) k && negb (PlayerManager.is_local k m)).
      * destruct (JsMap.get k (PlayerManager.remotePlayers m)) as [p|]; [|discriminate].
        injection Hp1 as <-. exists p. repeat split; assumption.
      * exists p1. repeat split; assumption.
Qed.

(** ** Connect screen *)

(** X29.  A username can be joined with exactly when it has between 3
    and 16 characters, all of them ASCII letters or digits.  The empty
    name is the one name that is not valid and yet shows no error. *)
Theorem username_valid_iff :
  forall uname : string,
    (ConnectScreen.isUsernameValid uname = true
     <-> (3 <= String.length uname <= 16)%nat
         /\ ConnectScreen.all_alphanumeric uname = true)
    /\ (ConnectScreen.validateUsername uname = None
        <-> uname = EmptyString \/ ConnectScreen.isUsernameValid uname = true).
Proof.
  intros uname. unfold ConnectScreen.isUsernameValid, ConnectScreen.validateUsername,
    ConnectScreen.USERNAME_PATTERN_test, ConnectScreen.USERNAME_MIN_LENGTH,
    ConnectScreen.USERNAME_MAX_LENGTH.
  assert (Hne : LoungeClient.nonempty uname = (0 <? String.length uname)%nat)
    by (destruct uname; reflexivity).
  assert (Hempty : uname = EmptyString <-> String.length uname = 0%nat)
    by (destruct uname; cbn; split; congruence).
  rewrite Hne, Hempty. clear Hne Hempty.
  destruct (Nat.eqb_spec (String.length uname) 0) as [H0|H0].
  - rewrite H0. cbn. split; split; try discriminate; try tauto. intros [H _]. lia.
  - destruct (Nat.ltb_spec 0 (String.length uname)) as [Hpos|Hpos]; [|lia].
    cbn [andb].
    destruct (Nat.ltb_spec (String.length uname) 3) as [H1|H1].
    + split; split; try discriminate.
      * intros [H _]. lia.
      * intros [H|H]; [lia | discriminate H].
    + destruct (Nat.ltb_spec 16 (String.length uname)) as [H2|H2].
      * split; split; try discriminate.
        -- intros [H _]. lia.
        -- intros [H|H]; [lia | discriminate H].
      * destruct (ConnectScreen.all_alphanumeric uname) eqn:Ha; cbn [negb].
        -- split; split; intros _.
           ++ split; [lia | reflexivity].
           ++ reflexivity.
           ++ now right.
           ++ reflexivity.
        -- split; split; try discriminate.
           ++ intros [_ H]. discriminate H.
           ++ intros [H|H]; [lia | discriminate H].
Qed.

(** ** Presence *)

Lemma updateLocalStatus_sets (now : Z) (st : PlayerStatus) (m : PresenceManager.t) :
  PresenceManager.localStatus (fst (PresenceManager.updateLocalStatus now st m)) = st
  /\ PresenceManager.lastInputTime (fst (PresenceManager.updateLocalStatus now st m))
     = PresenceManager.lastInputTime m
  /\ PresenceManager.localPlayerId (fst (PresenceManager.updateLocalStatus now st m))
     = PresenceManager.localPlayerId m
  /\ PresenceManager.client (fst (PresenceManager.updateLocalStatus now st m))
     = PresenceManager.client m
  /\ forall msg, In (PresenceManager.ClientSend msg)
                    (snd (PresenceManager.updateLocalStatus now st m)) ->
       LoungeClient.state (PresenceManager.client m) = LoungeClient.connected
       /\ Protocol.type msg = PresenceManager.PLAYER_STATUS_CHANGE
       /\ exists me, PresenceManager.localPlayerId m = Some me
                     /\ Protocol.payload msg
                        = JObject [("id", JString me);
                                   ("status", JString (PresenceManager.status_name st))].
Proof.
  unfold PresenceManager.updateLocalStatus. cbn [fst snd PresenceManager.localStatus
    PresenceManager.lastInputTime PresenceManager.localPlayerId PresenceManager.client].
  repeat split. rewrite in_app_iff in H. destruct H as [H|H].
  - destruct (PresenceManager.localPlayerId m) as [me|]; [|destruct H].
    destruct (LoungeClient.state (PresenceManager.client m)); cbn in H; try contradiction.
    reflexivity.
  - destruct (PresenceManager.localPlayerId m) as [me|]; [|destruct H].
    destruct (JsMap.get me (PresenceManager.players m)); [|destruct H].
    destruct H as [H|[]]. discriminate H.
  - rewrite in_app_iff in H. destruct H as [H|H].
    + destruct (PresenceManager.localPlayerId m) as [me|]; [|destruct H].
      destruct (LoungeClient.state_eqb _ _ && LoungeClient.nonempty me); [|destruct H].
      unfold LoungeClient.send in H.
      destruct (LoungeClient.clientId (PresenceManager.client m)); [|destruct H].
      destruct (_ && _ && _) in H; [|destruct H].
      destruct H as [H|[]]. injection H as <-. reflexivity.
    + destruct (PresenceManager.localPlayerId m) as [me|]; [|destruct H].
      destruct (JsMap.get me (PresenceManager.players m)); [|destruct H].
      destruct H as [H|[]]. discriminate H.
  - rewrite in_app_iff in H. destruct H as [H|H].
    + destruct (PresenceManager.localPlayerId m) as [me|]; [|destruct H].
      destruct (LoungeClient.state_eqb _ _ && LoungeClient.nonempty me); [|destruct H].
      unfold LoungeClient.send in H.
      destruct (LoungeClient.clientId (PresenceManager.client m)); [|destruct H].
      destruct (_ && _ && _) in H; [|destruct H].
      destruct H as [H|[]]. injection H as <-. exists me. split; reflexivity.
    + destruct (PresenceManager.localPlayerId m) as [me|]; [|destruct H].
      destruct (JsMap.get me (PresenceManager.players m)); [|destruct H].
      destruct H as [H|[]]. discriminate H.
Qed.

(** X30.  The idle check derives the local status from the time since the
    last input: active below one minute, idle from one minute, away from
    five.  It reports to the server only when the status changes and the
    client is connected, and then with a status-change message naming the
    local player; when the status is as before it does nothing at all.
    After recorded activity the status is active, and an idle check less
    than a minute later keeps it so without any effect. *)
Theorem idle_status_follows_last_input :
  forall (now : Z) (m : PresenceManager.t),
    let elapsed := now - PresenceManager.lastInputTime m in
    let m' := fst (PresenceManager.checkIdleStatus now m) in
    let effects := snd (PresenceManager.checkIdleStatus now m) in
    (elapsed < 60000 -> PresenceManager.localStatus m' = active)
    /\ (60000 <= elapsed < 300000 -> PresenceManager.localStatus m' = idle)
    /\ (300000 <= elapsed -> PresenceManager.localStatus m' = away)
    /\ PresenceManager.lastInputTime m' = PresenceManager.lastInputTime m
    /\ (PresenceManager.localStatus m' = PresenceManager.localStatus m ->
        m' = m /\ effects = [])
    /\ (forall msg, In (PresenceManager.ClientSend msg) effects ->
          LoungeClient.state (PresenceManager.client m) = LoungeClient.connected
          /\ Protocol.type msg = PresenceManager.PLAYER_STATUS_CHANGE
          /\ exists me, PresenceManager.localPlayerId m = Some me
                        /\ Protocol.payload msg
                           = JObject [("id", JString me);
                                      ("status",
                                       JString (PresenceManager.status_name
                                                  (PresenceManager.localStatus m')))])
    /\ (forall later,
          later - now < 60000 ->
          let active_again := fst (PresenceManager.recordActivity now m) in
          PresenceManager.localStatus active_again = active
          /\ PresenceManager.checkIdleStatus later active_again = (active_again, [])).
Proof.
  intros now m elapsed m' effects.
  assert (Hst : PresenceManager.localStatus m' = PresenceManager.status_for elapsed).
  { subst m'. unfold PresenceManager.checkIdleStatus. fold elapsed.
    destruct (PresenceManager.status_eqb (PresenceManager.status_for elapsed)
                (PresenceManager.localStatus m)) eqn:E; cbn [negb].
    - cbn [fst]. destruct (PresenceManager.status_for elapsed),
        (PresenceManager.localStatus m); try discriminate E; reflexivity.
    - apply updateLocalStatus_sets. }
  assert (Hfor : forall e, (e < 60000 -> PresenceManager.status_for e = active)
                           /\ (60000 <= e < 300000 -> PresenceManager.status_for e = idle)
                           /\ (300000 <= e -> PresenceManager.status_for e = away)).
  { intros e. unfold PresenceManager.status_for, PresenceManager.AWAY_TIMEOUT,
      PresenceManager.IDLE_TIMEOUT.
    change (5 * 60 * 1000) with 300000. change (60 * 1000) with 60000.
    destruct (Z.leb_spec 300000 e); destruct (Z.leb_spec 60000 e);
      repeat split; intros; try reflexivity; lia. }
  destruct (Hfor elapsed) as (Ha & Hi & Hw).
  split; [intros H; rewrite Hst; auto|].
  split; [intros H; rewrite Hst; auto|].
  split; [intros H; rewrite Hst; auto|].
  split; [|split; [|split]].
  - subst m'. unfold PresenceManager.checkIdleStatus. fold elapsed.
    destruct (negb _); [apply updateLocalStatus_sets | reflexivity].
  - intros Heq. rewrite Hst in Heq. subst m' effects.
    unfold PresenceManager.checkIdleStatus. fold elapsed. rewrite Heq.
    destruct (PresenceManager.localStatus m); cbn; split; reflexivity.
  - intros msg Hin. rewrite Hst. subst effects.
    unfold PresenceManager.checkIdleStatus in Hin. fold elapsed in Hin.
    destruct (negb _) in Hin; [|destruct Hin].
    exact (proj2 (proj2 (proj2 (proj2 (updateLocalStatus_sets now _ m)))) msg Hin).
  - intros later Hlater active_again.
    assert (Hact : PresenceManager.localStatus active_again = active
                   /\ PresenceManager.lastInputTime active_again = now).
    { subst active_again. unfold PresenceManager.recordActivity.
      cbn [PresenceManager.localStatus].
      destruct (PresenceManager.status_eqb (PresenceManager.localStatus m) active) eqn:E;
        cbn [negb].
      - cbn [fst PresenceManager.localStatus PresenceManager.lastInputTime].
        destruct (PresenceManager.localStatus m); try discriminate E. split; reflexivity.
      - split; [apply updateLocalStatus_sets|].
        destruct (updateLocalStatus_sets now active
                    {| PresenceManager.client := PresenceManager.client m;
                       PresenceManager.players := PresenceManager.players m;
                       PresenceManager.localPlayerId := PresenceManager.localPlayerId m;
                       PresenceManager.localStatus := PresenceManager.localStatus m;
                       PresenceManager.lastInputTime := now |}) as (_ & H & _).
        exact H. }
    destruct Hact as [Hs Ht]. split; [exact Hs|].
    unfold PresenceManager.checkIdleStatus. rewrite Ht, Hs.
    destruct (Hfor (later - now)) as (Hlt & _). rewrite (Hlt Hlater). reflexivity.
Qed.
